(** * VITShare: the peer-discovery and file-transfer backend

    A shallow embedding of [P2PFileSharerBackend] (FileShare11.py): the peer
    registry with its discovery listener and stale-peer sweep, the inbound
    transfer handler, the outbound send operation and the QR pairing
    handler, followed by the properties the specification states about
    them.

    Conventions of the embedding.
    - Python [bytes] are [list byte]; Python [str] values are [string].
    - A decoded JSON document is a [json] value.  Numbers are Python
      integers; documents with float literals are outside the model.
    - [time.time()] readings are integers (seconds) handed to each
      operation by its caller.
    - Every method runs in the monad [M]: explicit passing of a [world]
      (backend attributes, file system, the bytes the remote end of the
      current connection will deliver, and the trace of observable actions)
      together with Python's three ways of leaving a block: falling
      through, [return], and a raised exception.
    - The locals [filepath] of [handle_item_receive] and [temp_zip_path] of
      [send_item], which their [except] and [finally] clauses read, are
      fields of the world.
    - The file system maps a path to a file or a directory; two spellings
      of one path are two keys.  The directories [setup_directories] makes
      exist.  Paths follow [posixpath].
    - A read loop of the source is a [Fixpoint] on a bound of its
      iterations, the number of bytes still to be delivered plus one; the
      methods compute that bound themselves.
    - Functions of the Python library whose results are only passed on
      (decoding, JSON parsing, archives) are fields of [Host].
    - [sendall] and the callbacks of the user interface do not raise.  The
      rate-limited progress notifications inside the two copy loops, which
      depend on clock readings between reads, are left out of the trace;
      the final [Completed!] notification is in it. *)

From Stdlib Require Import ZArith List Bool Lia.
From Stdlib Require Import Strings.Byte Strings.Ascii Strings.String.
From stdpp Require Import base decidable countable gmap strings list fin_maps.

Open Scope string_scope.
Open Scope list_scope.
Open Scope Z_scope.

(** ** Bytes *)

Definition bytes := list byte.

(** A bytes literal: [b "ACCEPT"] is Python's [b'ACCEPT']. *)
Definition b (s : string) : bytes := list_byte_of_string s.
Arguments b : simpl never.

Definition NL : byte := x0a.

Definition byte_eqb (x y : byte) : bool := Byte.eqb x y.
Arguments byte_eqb : simpl never.

Fixpoint bytes_eqb (x y : bytes) : bool :=
  match x, y with
  | [], [] => true
  | c :: x', d :: y' => byte_eqb c d && bytes_eqb x' y'
  | _, _ => false
  end.

(** [b'\n' in data] *)
Definition has_newline (data : bytes) : bool := existsb (byte_eqb NL) data.

(** [data.split(b'\n', 1)] when [data] holds a newline: the bytes before the
    first newline and the bytes after it; [None] when there is none. *)
Fixpoint split_newline (data : bytes) : option (bytes * bytes) :=
  match data with
  | [] => None
  | c :: rest =>
      if byte_eqb c NL then Some ([], rest)
      else match split_newline rest with
           | Some (hd, tl) => Some (c :: hd, tl)
           | None => None
           end
  end.

(** The bytes [bytes.strip()] removes: ASCII space, tab, newline, carriage
    return, vertical tab and form feed. *)
Definition is_ascii_space (c : byte) : bool :=
  byte_eqb c x20 || byte_eqb c x09 || byte_eqb c x0a
  || byte_eqb c x0d || byte_eqb c x0b || byte_eqb c x0c.

Fixpoint lstrip (data : bytes) : bytes :=
  match data with
  | c :: rest => if is_ascii_space c then lstrip rest else data
  | [] => []
  end.

Definition rstrip (data : bytes) : bytes := rev (lstrip (rev data)).

(** [data.strip()] *)
Definition strip (data : bytes) : bytes := rstrip (lstrip data).

(** ** JSON values and the Python operations applied to them *)

#[local] Unset Elimination Schemes.
Inductive json :=
| JNull
| JBool (v : bool)
| JInt (z : Z)
| JStr (s : string)
| JList (l : list json)
| JDict (d : list (string * json)).
#[local] Set Elimination Schemes.

Fixpoint dict_get (key : string) (d : list (string * json)) : option json :=
  match d with
  | [] => None
  | (k, v) :: rest => if String.eqb k key then Some v else dict_get key rest
  end.

(** [key in d] *)
Definition dict_has (key : string) (d : list (string * json)) : bool :=
  match dict_get key d with Some _ => true | None => false end.

(** [d.get(key)]: a missing key reads as [None]. *)
Definition get (key : string) (d : list (string * json)) : json :=
  match dict_get key d with Some v => v | None => JNull end.

(** [d.get(key, default)] *)
Definition get_default (key : string) (default : json)
  (d : list (string * json)) : json :=
  match dict_get key d with Some v => v | None => default end.

(** [v == s] for a [str] constant [s]. *)
Definition eq_str (v : json) (s : string) : bool :=
  match v with JStr t => String.eqb t s | _ => false end.

(** Truth value of [v] in an [if]. *)
Definition truthy (v : json) : bool :=
  match v with
  | JNull => false
  | JBool v => v
  | JInt z => negb (z =? 0)
  | JStr s => negb (String.eqb s "")
  | JList l => match l with [] => false | _ => true end
  | JDict d => match d with [] => false | _ => true end
  end.

(** Keys of the peers dictionary.  Python hashes [True] and [1] (and
    [False] and [0]) to the same key, so booleans and integers share
    [KInt]; lists and dictionaries are unhashable. *)
Inductive pykey :=
| KNone
| KInt (z : Z)
| KStr (s : string).

Definition hashable (v : json) : option pykey :=
  match v with
  | JNull => Some KNone
  | JBool v => Some (KInt (if v then 1 else 0))
  | JInt z => Some (KInt z)
  | JStr s => Some (KStr s)
  | JList _ | JDict _ => None
  end.

(** The integer Python compares with when [v] is used as a number. *)
Definition as_number (v : json) : option Z :=
  match v with
  | JInt z => Some z
  | JBool v => Some (if v then 1 else 0)
  | _ => None
  end.

#[global] Instance pykey_eq_dec : EqDecision pykey.
Proof. solve_decision. Defined.

Definition pykey_enc (k : pykey) : option (Z + string) :=
  match k with
  | KNone => None
  | KInt z => Some (inl z)
  | KStr s => Some (inr s)
  end.

Definition pykey_dec (o : option (Z + string)) : pykey :=
  match o with
  | None => KNone
  | Some (inl z) => KInt z
  | Some (inr s) => KStr s
  end.

#[global] Instance pykey_countable : Countable pykey.
Proof.
  apply (inj_countable' pykey_enc pykey_dec). intros []; reflexivity.
Defined.

(** ** Configuration *)

Definition TCP_PORT : Z := 65432.
Definition UDP_PORT : Z := 65431.
Definition QR_CONNECT_PORT : Z := 65433.
Definition BROADCAST_MAGIC : string := "c0d3-p2p-share-v1".
Definition PEER_TIMEOUT : Z := 30.
Definition BUFFER_SIZE : Z := 16 * 1048576.

(** ** The world the backend runs in *)

(** One value of [self.peers]. *)
Record peer_info := {
  ip : json;
  last_seen : Z;
  device_type : json;
  qr_connected : bool
}.

(** One value of [self.active_transfers]; the socket handle is named by the
    address of its remote end. *)
Record transfer_entry := {
  cancel : bool;
  socket : string
}.

Inductive node :=
| File (content : bytes)
| Dir.

Inductive exn :=
| SocketTimeout
| OSError
| JSONDecodeError
| UnicodeDecodeError
| TypeError
| AttributeError
| KeyError
| UnboundLocalError
| TransferIncomplete
| OutOfFuel.

(** What the remote end of a connection delivers to successive [recv] calls:
    a non-empty segment of bytes, or a failure of the read ([socket.timeout]
    or a connection error).  When the list is exhausted the remote end has
    closed and [recv] returns [b'']. *)
Inductive rx :=
| Seg (c : byte) (rest : bytes)
| Fail (e : exn).

(** What [sendall] is given: raw bytes, or
    [(json.dumps(obj) + '\n').encode('utf-8')]. *)
Inductive wire :=
| Raw (data : bytes)
| JsonLine (obj : json).

Inductive log_msg :=
| Discovered (peer_nickname dev ip_ : json)
| PeerListenError (e : exn)
| PeerTimedOut (nick : pykey)
| NoMetadata (addr : string)
| ReceivedMetadata (metadata : json)
| InvalidJsonMetadata (addr : string)
| DetectedQRHandshake (addr : string)
| QRHandshakeAdded (peer_nickname dev : json) (addr : string)
| MissingFields (addr : string)
| ReceivedSuccessfully (filename : string)
| FolderUnpacked (filename : string)
| ErrorUnpacking (filename : string)
| ReceiveFailed (e : exn)
| PeerNotFound (nick : pykey)
| ItemNotFound (item_name : string)
| Connecting (nick : pykey) (ip_ : json)
| TransferRejected (nick : pykey)
| ItemSent (item_name : string) (nick : pykey)
| SendTimeout (nick : pykey)
| SendFailed (item_name : string) (e : exn)
| SentOurInfo (addr : string)
| ReceivedPeerInfo (peer : json)
| QRConnectAdded (peer_nickname dev ip_ : json)
| QRInvalidJson (addr : string)
| QRTimedOut (addr : string)
| QRHandlerError (addr : string) (e : exn).

(** Observable actions, in the order they happen. *)
Inductive event :=
| Log (m : log_msg)
| SockOpen
| SockConnect (ip_ : string) (port : Z)
| SockRecv (bufsize : Z)
| SockSend (data : wire)
| TransferRequest (metadata : json)
| ReceiveActive (on : bool)
| ReceiveCompleted (filename : string)
| SendActive (on : bool)
| SendCompleted (item_name : string)
| TransferAdded (transfer_id : string)
| TransferRemoved (transfer_id : string)
| FsOpenWrite (path : string)
| FsWrite (path : string) (data : bytes)
| FsOpenRead (path : string)
| FsRemove (path : string)
| FsUnpack (path : string)
| FsArchive (path : string).

Record world := World {
  nickname : string;
  running : bool;
  peers : gmap pykey peer_info;
  active_transfers : gmap string transfer_entry;
  fs : gmap string node;
  conn : list rx;
  trace : list event;
  filepath : string;
  temp_zip_path : option string
}.

Definition set_peers (f : gmap pykey peer_info -> gmap pykey peer_info)
  (w : world) : world :=
  World (nickname w) (running w) (f (peers w)) (active_transfers w) (fs w)
    (conn w) (trace w) (filepath w) (temp_zip_path w).

Definition set_active
  (f : gmap string transfer_entry -> gmap string transfer_entry)
  (w : world) : world :=
  World (nickname w) (running w) (peers w) (f (active_transfers w)) (fs w)
    (conn w) (trace w) (filepath w) (temp_zip_path w).

Definition set_fs (f : gmap string node -> gmap string node) (w : world)
  : world :=
  World (nickname w) (running w) (peers w) (active_transfers w) (f (fs w))
    (conn w) (trace w) (filepath w) (temp_zip_path w).

Definition set_conn (c : list rx) (w : world) : world :=
  World (nickname w) (running w) (peers w) (active_transfers w) (fs w)
    c (trace w) (filepath w) (temp_zip_path w).

Definition set_filepath (p : string) (w : world) : world :=
  World (nickname w) (running w) (peers w) (active_transfers w) (fs w)
    (conn w) (trace w) p (temp_zip_path w).

Definition set_temp_zip_path (p : option string) (w : world) : world :=
  World (nickname w) (running w) (peers w) (active_transfers w) (fs w)
    (conn w) (trace w) (filepath w) p.

Definition emit (e : event) (w : world) : world :=
  World (nickname w) (running w) (peers w) (active_transfers w) (fs w)
    (conn w) (trace w ++ [e]) (filepath w) (temp_zip_path w).

(** ** Control flow *)

(** How a block ends: it falls through with a value, executes [return], or
    raises. *)
Inductive res (A : Type) :=
| Val (a : A)
| Ret
| Exc (e : exn).
Arguments Val {A} a.
Arguments Ret {A}.
Arguments Exc {A} e.

Definition M (A : Type) : Type := world -> res A * world.

Definition ret {A} (a : A) : M A := fun w => (Val a, w).

Definition bind {A B} (m : M A) (k : A -> M B) : M B :=
  fun w =>
    match m w with
    | (Val a, w') => k a w'
    | (Ret, w') => (Ret, w')
    | (Exc e, w') => (Exc e, w')
    end.

Declare Scope M_scope.
Delimit Scope M_scope with M.
Bind Scope M_scope with M.
Notation "x ← y ; z" := (bind y (fun x : _ => z))
  (at level 20, y at level 100, z at level 200, only parsing) : M_scope.
Notation "' x ← y ; z" := (bind y (fun x : _ => z))
  (at level 20, x pattern, y at level 100, z at level 200, only parsing)
  : M_scope.
Notation "x ;; z" := (bind x (fun _ => z))
  (at level 100, z at level 200, only parsing, right associativity)
  : M_scope.
Open Scope M_scope.

(** [return] *)
Definition return_ {A} : M A := fun w => (Ret, w).

(** [raise e] *)
Definition raise {A} (e : exn) : M A := fun w => (Exc e, w).

(** [try: body / except Exception as e: handler e] *)
Definition try_except {A} (body : M A) (handler : exn -> M A) : M A :=
  fun w =>
    match body w with
    | (Exc e, w') => handler e w'
    | r => r
    end.

(** [try: body / finally: final]; an exit of [final] other than falling
    through replaces the exit of [body]. *)
Definition try_finally {A} (body : M A) (final : M unit) : M A :=
  fun w =>
    let (r, w') := body w in
    match final w' with
    | (Val _, w'') => (r, w'')
    | (Ret, w'') => (Ret, w'')
    | (Exc e, w'') => (Exc e, w'')
    end.

(** A method called as a statement: [return] ends the method, not the
    caller. *)
Definition call (body : M unit) : M unit :=
  fun w =>
    match body w with
    | (Ret, w') => (Val tt, w')
    | r => r
    end.

Definition gets {A} (f : world -> A) : M A := fun w => (Val (f w), w).

Definition modify (f : world -> world) : M unit := fun w => (Val tt, f w).

Definition act (e : event) : M unit := modify (emit e).

(** [self.log(message)] *)
Definition log (m : log_msg) : M unit := act (Log m).

(** The world a computation leaves, and how it ends. *)
Definition exec {A} (m : M A) (w : world) : world := snd (m w).
Definition outcome {A} (m : M A) (w : world) : res A := fst (m w).

Fixpoint for_each {A} (l : list A) (body : A -> M unit) : M unit :=
  match l with
  | [] => ret tt
  | x :: rest => body x ;; for_each rest body
  end.

(** ** Library functions and host facts

    Functions of the Python library whose results the backend only passes
    on, and what the host machine answers. *)
Class Host := {
  (** [data.decode('utf-8')]; [None] is [UnicodeDecodeError]. *)
  decode_utf8 : bytes -> option string;
  (** [text.strip()] on a [str]. *)
  str_strip : string -> string;
  (** [json.loads(text)]; [None] is [json.JSONDecodeError]. *)
  json_loads : string -> option json;
  (** [shutil.unpack_archive(filename, extract_dir)]; [None] is a raised
      error. *)
  unpack_archive :
    string -> string -> gmap string node -> option (gmap string node);
  (** [shutil.make_archive(base_name, 'zip', root_dir, base_dir)]: the path
      of the archive and the file system holding it; [None] is a raised
      error. *)
  make_archive :
    string -> string -> string -> gmap string node ->
    option (string * gmap string node);
  (** [os.path.dirname(os.path.abspath(__file__))] *)
  SCRIPT_DIR : string;
  (** [tempfile.gettempdir()] *)
  gettempdir : string;
  (** [self.get_local_ip()] *)
  get_local_ip : string
}.

(** ** Paths ([posixpath]) *)

Definition SLASH : ascii := "/"%char.

Fixpoint has_slash (p : string) : bool :=
  match p with
  | EmptyString => false
  | String c rest => Ascii.eqb c SLASH || has_slash rest
  end.

(** [os.path.basename(p)]: what follows the last slash. *)
Fixpoint basename (p : string) : string :=
  match p with
  | EmptyString => EmptyString
  | String c rest =>
      if Ascii.eqb c SLASH then basename rest
      else if has_slash rest then basename rest
      else p
  end.

Fixpoint ends_with_slash (p : string) : bool :=
  match p with
  | EmptyString => false
  | String c EmptyString => Ascii.eqb c SLASH
  | String _ rest => ends_with_slash rest
  end.

Definition starts_with_slash (p : string) : bool :=
  match p with
  | String c _ => Ascii.eqb c SLASH
  | EmptyString => false
  end.

(** [os.path.join(a, p)] *)
Definition join (a p : string) : string :=
  if starts_with_slash p then p
  else if String.eqb a "" || ends_with_slash a then String.append a p
  else String.append a (String SLASH p).

Definition APP_FOLDER_NAME : string := "P2P File Sharer Data".

Section Operations.
Context {H : Host}.

Definition APP_FOLDER_PATH : string := join SCRIPT_DIR APP_FOLDER_NAME.
Definition SHARE_DIR : string := join APP_FOLDER_PATH "sharable".
Definition DOWNLOAD_DIR : string := join APP_FOLDER_PATH "downloads".

(** ** Python operations that may raise *)

(** [v.get(key)]: only a dictionary has [get]. *)
Definition json_get (v : json) (key : string) : M json :=
  match v with
  | JDict d => ret (get key d)
  | _ => raise AttributeError
  end.

(** [v.get(key, default)] *)
Definition json_get_default (v : json) (key : string) (default : json)
  : M json :=
  match v with
  | JDict d => ret (get_default key default d)
  | _ => raise AttributeError
  end.

(** [key in v] for a [str] key: membership in a dictionary, in a list, or
    substring of a string; numbers, booleans and [None] are not iterable. *)
Definition json_contains (v : json) (key : string) : M bool :=
  match v with
  | JDict d => ret (dict_has key d)
  | JList l =>
      ret (existsb (fun x => eq_str x key) l)
  | JStr s =>
      ret (match String.index 0 key s with Some _ => true | None => false end)
  | _ => raise TypeError
  end.

(** [v[key]] on the dictionary [v]. *)
Definition json_index (v : json) (key : string) : M json :=
  match v with
  | JDict d =>
      match dict_get key d with
      | Some x => ret x
      | None => raise KeyError
      end
  | _ => raise TypeError
  end.

(** A value used as a key of [self.peers]. *)
Definition hash_key (v : json) : M pykey :=
  match hashable v with
  | Some k => ret k
  | None => raise TypeError
  end.

(** A value used as a number in a comparison with an [int]. *)
Definition number (v : json) : M Z :=
  match as_number v with
  | Some z => ret z
  | None => raise TypeError
  end.

(** [os.path.basename(v)] *)
Definition os_path_basename (v : json) : M string :=
  match v with
  | JStr s => ret (basename s)
  | _ => raise TypeError
  end.

Definition decode (data : bytes) : M string :=
  match decode_utf8 data with
  | Some text => ret text
  | None => raise UnicodeDecodeError
  end.

Definition loads (text : string) : M json :=
  match json_loads text with
  | Some v => ret v
  | None => raise JSONDecodeError
  end.

(** ** File system *)

(** A path whose last component is empty, [.] or [..] can only name a
    directory. *)
Definition names_directory (path : string) (f : gmap string node) : bool :=
  let name := basename path in
  String.eqb name "" || String.eqb name "." || String.eqb name ".."
  || match f !! path with Some Dir => true | _ => false end.

(** [open(path, 'wb')]: creates or truncates the file; fails on a
    directory.  The directories made by [setup_directories] exist. *)
Definition open_wb (path : string) : M unit :=
  f ← gets fs;
  if names_directory path f then raise OSError
  else act (FsOpenWrite path) ;; modify (set_fs <[path := File []]>).

Definition append_content (data : bytes) (n : node) : node :=
  match n with
  | File content => File (content ++ data)
  | Dir => Dir
  end.

(** [f.write(data)] on the file opened at [path]. *)
Definition write (path : string) (data : bytes) : M unit :=
  act (FsWrite path data) ;;
  modify (set_fs (alter (append_content data) path)).

(** [os.path.exists(path)] *)
Definition os_path_exists (path : string) : M bool :=
  f ← gets fs;
  ret (match f !! path with Some _ => true | None => false end).

(** [os.path.isdir(path)] *)
Definition os_path_isdir (path : string) : M bool :=
  f ← gets fs;
  ret (match f !! path with Some Dir => true | _ => false end).

(** [os.remove(path)]: removes a file, fails on anything else. *)
Definition os_remove (path : string) : M unit :=
  f ← gets fs;
  match f !! path with
  | Some (File _) => act (FsRemove path) ;; modify (set_fs (delete path))
  | _ => raise OSError
  end.

(** [os.path.getsize(path)] of a file. *)
Definition os_path_getsize (path : string) : M Z :=
  f ← gets fs;
  match f !! path with
  | Some (File content) => ret (Z.of_nat (length content))
  | _ => raise OSError
  end.

(** The bytes successive [f.read] calls deliver from [open(path, 'rb')]. *)
Definition open_rb (path : string) : M bytes :=
  f ← gets fs;
  match f !! path with
  | Some (File content) => act (FsOpenRead path) ;; ret content
  | _ => raise OSError
  end.

Definition shutil_unpack_archive (filename extract_dir : string) : M unit :=
  f ← gets fs;
  match unpack_archive filename extract_dir f with
  | Some f' => act (FsUnpack filename) ;; modify (set_fs (fun _ => f'))
  | None => raise OSError
  end.

Definition shutil_make_archive (base_name root_dir base_dir : string)
  : M string :=
  f ← gets fs;
  match make_archive base_name root_dir base_dir f with
  | Some (path, f') =>
      act (FsArchive path) ;; modify (set_fs (fun _ => f')) ;; ret path
  | None => raise OSError
  end.

(** ** Sockets *)

Definition len (data : bytes) : Z := Z.of_nat (length data).

(** [data[:n]] and [data[n:]] for [n >= 0]. *)
Fixpoint ztake (n : Z) (data : bytes) : bytes :=
  match data with
  | [] => []
  | c :: rest => if n <=? 0 then [] else c :: ztake (n - 1) rest
  end.

Fixpoint zdrop (n : Z) (data : bytes) : bytes :=
  match data with
  | [] => []
  | c :: rest => if n <=? 0 then data else zdrop (n - 1) rest
  end.

Definition segment (data : bytes) : list rx :=
  match data with
  | [] => []
  | c :: rest => [Seg c rest]
  end.

(** [conn.recv(bufsize)]: at most [bufsize] bytes of the next segment,
    [b''] once the remote end has closed. *)
Definition recv (bufsize : Z) : M bytes :=
  act (SockRecv bufsize) ;;
  pending ← gets conn;
  match pending with
  | [] => ret []
  | Fail e :: rest => modify (set_conn rest) ;; raise e
  | Seg c cs :: rest =>
      let data := c :: cs in
      if len data <=? bufsize then modify (set_conn rest) ;; ret data
      else modify (set_conn (segment (zdrop bufsize data) ++ rest)) ;;
           ret (ztake bufsize data)
  end.

(** [conn.sendall(data)] *)
Definition sendall (data : wire) : M unit := act (SockSend data).

(** Bytes still to be delivered; bounds the iterations of a read loop. *)
Fixpoint pending_bytes (c : list rx) : nat :=
  match c with
  | [] => O
  | Seg _ cs :: rest => S (length cs + pending_bytes rest)
  | Fail _ :: rest => pending_bytes rest
  end.

Definition loop_fuel : M nat := gets (fun w => S (pending_bytes (conn w))).

(** ** Peer registry *)

(** The dictionary literal stored by the discovery listener; the
    [qr_connected] entry is
    [self.peers.get(peer_nickname, {}).get('qr_connected', False)]. *)
Definition discovered_entry (peer_ip dev : json) (now : Z)
  (old : option peer_info) : peer_info :=
  {| ip := peer_ip;
     last_seen := now;
     device_type := dev;
     qr_connected := match old with
                     | Some p => qr_connected p
                     | None => false
                     end |}.

(** The dictionary literal stored by the two pairing handshakes. *)
Definition paired_entry (peer_ip dev : json) (now : Z) : peer_info :=
  {| ip := peer_ip;
     last_seen := now + 300;
     device_type := dev;
     qr_connected := true |}.

(** What [s.recvfrom(1024)] yields in one iteration of the listener. *)
Inductive dgram :=
| Datagram (data : bytes)
| RecvFail (e : exn).

Definition recvfrom (d : dgram) : M bytes :=
  match d with
  | Datagram data => ret data
  | RecvFail e => raise e
  end.

(** One iteration of the loop of [listen_for_peers], at time [now]. *)
Definition listen_iteration (now : Z) (d : dgram) : M unit :=
  try_except
    (data ← recvfrom d;
     text ← decode data;
     message ← loads text;
     magic ← json_get message "magic";
     if eq_str magic BROADCAST_MAGIC then
       peer_nickname ← json_get message "nickname";
       peer_ip ← json_get message "ip";
       dev ← json_get_default message "device_type" (JStr "unknown");
       me ← gets nickname;
       if negb (eq_str peer_nickname me) then
         key ← hash_key peer_nickname;
         known ← gets peers;
         let is_new :=
           match known !! key with Some _ => false | None => true end in
         modify (set_peers
           <[key := discovered_entry peer_ip dev now (known !! key)]>) ;;
         if is_new then log (Discovered peer_nickname dev peer_ip)
         else ret tt
       else ret tt
     else ret tt)
    (fun e =>
       match e return M unit with
       | SocketTimeout => ret tt
       | JSONDecodeError => ret tt
       | _ =>
           r ← gets running;
           if r then log (PeerListenError e) else ret tt
       end).

(** [listen_for_peers]: the loop over what the socket yields, each with the
    clock reading of its iteration. *)
Fixpoint listen_for_peers (arrivals : list (Z * dgram)) : M unit :=
  match arrivals with
  | [] => ret tt
  | (now, d) :: rest =>
      r ← gets running;
      if r then listen_iteration now d ;; listen_for_peers rest
      else ret tt
  end.

Definition is_stale (current_time : Z) (info : peer_info) : bool :=
  (current_time - last_seen info >? PEER_TIMEOUT)
  && negb (qr_connected info).

(** The list comprehension of [cleanup_stale_peers]. *)
Definition stale_peers (current_time : Z) (known : gmap pykey peer_info)
  : list pykey :=
  fmap fst
    (List.filter (fun item => is_stale current_time (snd item))
       (map_to_list known)).

(** One sweep of [cleanup_stale_peers], at time [current_time]. *)
Definition cleanup_sweep (current_time : Z) : M unit :=
  known ← gets peers;
  for_each (stale_peers current_time known)
    (fun nick =>
       modify (set_peers (delete nick)) ;;
       log (PeerTimedOut nick)).

(** [cleanup_stale_peers]: a sweep at each wake-up while running. *)
Fixpoint cleanup_stale_peers (wakeups : list Z) : M unit :=
  match wakeups with
  | [] => ret tt
  | current_time :: rest =>
      r ← gets running;
      if r then cleanup_sweep current_time ;; cleanup_stale_peers rest
      else ret tt
  end.

(** [get_peer_dict] *)
Definition get_peer_dict : M (gmap pykey json) :=
  known ← gets peers;
  ret (ip <$> known).

End Operations.

Section Handlers.
Context {H : Host}.

(** ** The inbound transfer handler *)

(** The header loop of [handle_item_receive]: the bytes before the first
    newline and [remaining_data], which stays unbound ([None]) when the loop
    ends without having seen a newline. *)
Fixpoint read_metadata (fuel : nat) (metadata_bytes : bytes)
  : M (bytes * option bytes) :=
  match fuel with
  | O => raise OutOfFuel
  | S fuel =>
      r ← gets running;
      if negb r then ret (metadata_bytes, None)
      else
        chunk ← recv 1024;
        match chunk with
        | [] => ret (metadata_bytes, None)
        | _ =>
            let metadata_bytes := metadata_bytes ++ chunk in
            match split_newline metadata_bytes with
            | Some (head, tail) => ret (head, Some tail)
            | None => read_metadata fuel metadata_bytes
            end
        end
  end.

(** The copy loop of [handle_item_receive]; returns [received_bytes]. *)
Fixpoint copy_loop (fuel : nat) (path : string) (filesize received_bytes : Z)
  : M Z :=
  match fuel with
  | O => raise OutOfFuel
  | S fuel =>
      if received_bytes <? filesize then
        let bytes_to_read := Z.min BUFFER_SIZE (filesize - received_bytes) in
        bytes_read ← recv bytes_to_read;
        match bytes_read with
        | [] => ret received_bytes
        | _ =>
            write path bytes_read ;;
            copy_loop fuel path filesize (received_bytes + len bytes_read)
        end
      else ret received_bytes
  end.

Definition our_handshake_response : M json :=
  me ← gets nickname;
  ret (JDict [("type", JStr "qr_handshake_response");
              ("nickname", JStr me);
              ("ip", JStr get_local_ip);
              ("device_type", JStr "desktop");
              ("status", JStr "connected")]).

(** The [with open(filepath, 'wb') as f:] block of [handle_item_receive];
    returns [received_bytes]. *)
Definition store_payload (path : string) (filesize : json)
  (remaining_data : option bytes) : M Z :=
  open_wb path ;;
  remaining ←
    match remaining_data with
    | Some data => ret data
    | None => raise UnboundLocalError
    end;
  received_bytes ←
    match remaining with
    | [] => ret 0
    | _ => write path remaining ;; ret (len remaining)
    end;
  size ← number filesize;
  fuel ← loop_fuel;
  copy_loop fuel path size received_bytes.

(** The [try] statement that unpacks a received folder and removes its
    archive. *)
Definition unpack_folder (path filename : string) : M unit :=
  try_finally
    (try_except
       (shutil_unpack_archive path DOWNLOAD_DIR ;;
        log (FolderUnpacked filename))
       (fun e => log (ErrorUnpacking filename)))
    (present ← os_path_exists path;
     if present then os_remove path else ret tt).

(** [handle_item_receive] from the accepted request on: the reply, the
    payload and the completion check. *)
Definition receive_item (metadata : json) (remaining_data : option bytes)
  : M unit :=
  sendall (Raw (b "ACCEPT" ++ [NL])) ;;
  act (ReceiveActive true) ;;
  declared ← json_index metadata "filename";
  filename ← os_path_basename declared;
  filesize ← json_index metadata "filesize";
  item_type ← json_get_default metadata "type" (JStr "file");
  let path := join DOWNLOAD_DIR filename in
  modify (set_filepath path) ;;
  received_bytes ← store_payload path filesize remaining_data;
  size ← number filesize;
  if received_bytes =? size then
    act (ReceiveCompleted filename) ;;
    log (ReceivedSuccessfully filename) ;;
    if eq_str item_type "directory" then unpack_folder path filename
    else ret tt
  else raise TransferIncomplete.

(** [handle_item_receive] from the end of the header loop on. *)
Definition receive_request (addr : string) (now : Z)
  (transfer_request_callback : json -> bool)
  (metadata_bytes : bytes) (remaining_data : option bytes) : M unit :=
  match metadata_bytes with
  | [] => log (NoMetadata addr) ;; return_
  | _ => ret tt
  end ;;
  metadata ←
    try_except
      (text ← decode metadata_bytes;
       metadata ← loads text;
       log (ReceivedMetadata metadata) ;;
       ret metadata)
      (fun e =>
         match e return M json with
         | JSONDecodeError => log (InvalidJsonMetadata addr) ;; return_
         | _ => raise e
         end);
  kind ← json_get metadata "type";
  if eq_str kind "qr_handshake" then
    log (DetectedQRHandshake addr) ;;
    peer_nickname ← json_get metadata "nickname";
    dev ← json_get_default metadata "device_type" (JStr "android");
    (if truthy peer_nickname then
       key ← hash_key peer_nickname;
       modify (set_peers <[key := paired_entry (JStr addr) dev now]>) ;;
       log (QRHandshakeAdded peer_nickname dev addr) ;;
       our_info ← our_handshake_response;
       sendall (JsonLine our_info)
     else ret tt) ;;
    return_
  else
    has_filename ← json_contains metadata "filename";
    has_filesize ← json_contains metadata "filesize";
    (if negb has_filename || negb has_filesize then
       log (MissingFields addr) ;; return_
     else ret tt) ;;
    act (TransferRequest metadata) ;;
    (if negb (transfer_request_callback metadata) then
       sendall (Raw (b "REJECT" ++ [NL])) ;; return_
     else ret tt) ;;
    receive_item metadata remaining_data.

(** The [with conn:] block of [handle_item_receive]. *)
Definition receive_session (addr : string) (now : Z)
  (transfer_request_callback : json -> bool) : M unit :=
  fuel ← loop_fuel;
  '(metadata_bytes, remaining_data) ← read_metadata fuel [];
  receive_request addr now transfer_request_callback metadata_bytes
    remaining_data.

(** The [except Exception] clause of [handle_item_receive]. *)
Definition receive_failed (e : exn) : M unit :=
  log (ReceiveFailed e) ;;
  path ← gets filepath;
  if negb (String.eqb path "") then
    present ← os_path_exists path;
    if present then try_except (os_remove path) (fun _ => ret tt)
    else ret tt
  else ret tt.

(** The [finally] clause of [handle_item_receive]. *)
Definition receive_cleanup (transfer_id : string) : M unit :=
  table ← gets active_transfers;
  match table !! transfer_id with
  | Some _ =>
      modify (set_active (delete transfer_id)) ;;
      act (TransferRemoved transfer_id)
  | None => ret tt
  end ;;
  act (ReceiveActive false).

(** [handle_item_receive(conn, addr)], with [transfer_id] the identifier
    [uuid.uuid4()] generates, [now] the clock reading and
    [transfer_request_callback] the decision of the user. *)
Definition handle_item_receive (transfer_id addr : string) (now : Z)
  (transfer_request_callback : json -> bool) : M unit :=
  call
    (modify (set_filepath "") ;;
     modify (set_active
       <[transfer_id := {| cancel := false; socket := addr |}]>) ;;
     act (TransferAdded transfer_id) ;;
     try_finally
       (try_except
          (receive_session addr now transfer_request_callback)
          receive_failed)
       (receive_cleanup transfer_id)).

(** ** The outbound send operation *)

(** [response_file.readline()]: the buffered reader fills from the socket
    until it holds a newline or the remote end has closed. *)
Fixpoint readline (fuel : nat) (buffered : bytes) : M bytes :=
  match fuel with
  | O => raise OutOfFuel
  | S fuel =>
      chunk ← recv 8192;
      match chunk with
      | [] => ret buffered
      | _ =>
          let buffered := buffered ++ chunk in
          match split_newline buffered with
          | Some (head, _) => ret (head ++ [NL])
          | None => readline fuel buffered
          end
      end
  end.

(** The read-and-send loop of [send_item] over the content of the file. *)
Fixpoint send_chunks (fuel : nat) (content : bytes) : M unit :=
  match fuel with
  | O => raise OutOfFuel
  | S fuel =>
      match ztake BUFFER_SIZE content with
      | [] => ret tt
      | bytes_read =>
          sendall (Raw bytes_read) ;;
          send_chunks fuel (zdrop BUFFER_SIZE content)
      end
  end.

(** [s.connect((peer_ip, TCP_PORT))]; [refused] is the error the network
    answers with, if any. *)
Definition connect (peer_ip : json) (port : Z) (refused : option exn)
  : M unit :=
  match peer_ip with
  | JStr address =>
      act (SockConnect address port) ;;
      match refused with
      | Some e => raise e
      | None => ret tt
      end
  | _ => raise TypeError
  end.

(** The choice of what to send: the file itself, or the archive of the
    folder packed in the temporary directory. *)
Definition prepare_item (item_name item_path : string) (is_directory : bool)
  : M (string * string) :=
  if is_directory then
    let temp_zip_base := join gettempdir item_name in
    archive ← shutil_make_archive temp_zip_base SHARE_DIR item_name;
    modify (set_temp_zip_path (Some archive)) ;;
    ret (archive, "directory")
  else ret (item_path, "file").

(** The [try] block of [send_item] from the computation of the size on:
    the header, the decision of the peer, the payload. *)
Definition offer_item (peer_nickname : pykey) (peer_ip : json)
  (item_name filepath_to_send item_type : string) (refused : option exn)
  : M unit :=
  filesize ← os_path_getsize filepath_to_send;
  let filename := basename filepath_to_send in
  me ← gets nickname;
  let metadata :=
    JDict [("filename", JStr filename);
           ("filesize", JInt filesize);
           ("type", JStr item_type);
           ("sender_nickname", JStr me)] in
  log (Connecting peer_nickname peer_ip) ;;
  act SockOpen ;;
  connect peer_ip TCP_PORT refused ;;
  sendall (JsonLine metadata) ;;
  fuel ← loop_fuel;
  line ← readline fuel [];
  let response := strip line in
  (if negb (bytes_eqb response (b "ACCEPT")) then
     log (TransferRejected peer_nickname) ;; return_
   else ret tt) ;;
  act (SendActive true) ;;
  content ← open_rb filepath_to_send;
  send_chunks (S (length content)) content ;;
  act (SendCompleted item_name) ;;
  log (ItemSent item_name peer_nickname).

(** The [try] block of [send_item]. *)
Definition send_session (peer_nickname : pykey) (peer_ip : json)
  (item_name item_path : string) (is_directory : bool)
  (refused : option exn) : M unit :=
  '(filepath_to_send, item_type) ←
    prepare_item item_name item_path is_directory;
  offer_item peer_nickname peer_ip item_name filepath_to_send item_type
    refused.

(** The [finally] clause of [send_item]. *)
Definition send_cleanup : M unit :=
  temp ← gets temp_zip_path;
  match temp with
  | Some path =>
      present ← os_path_exists path;
      if present then try_except (os_remove path) (fun _ => ret tt)
      else ret tt
  | None => ret tt
  end ;;
  act (SendActive false).

(** [send_item(peer_nickname, item_name)] *)
Definition send_item (peer_nickname : pykey) (item_name : string)
  (refused : option exn) : M unit :=
  call
    (peer_dict ← get_peer_dict;
     match peer_dict !! peer_nickname with
     | None => log (PeerNotFound peer_nickname) ;; return_
     | Some peer_ip =>
         let item_path := join SHARE_DIR item_name in
         present ← os_path_exists item_path;
         (if negb present then log (ItemNotFound item_name) ;; return_
          else ret tt) ;;
         is_directory ← os_path_isdir item_path;
         modify (set_temp_zip_path None) ;;
         try_finally
           (try_except
              (send_session peer_nickname peer_ip item_name item_path
                 is_directory refused)
              (fun e =>
                 match e with
                 | SocketTimeout => log (SendTimeout peer_nickname)
                 | _ => log (SendFailed item_name e)
                 end))
           send_cleanup
     end).

(** ** The QR pairing handler *)

(** The read loop of [handle_qr_connection]. *)
Fixpoint read_peer_info (fuel : nat) (data : bytes) : M bytes :=
  match fuel with
  | O => raise OutOfFuel
  | S fuel =>
      if negb (has_newline data) && (len data <? 4096) then
        chunk ← recv 1024;
        match chunk with
        | [] => ret data
        | _ => read_peer_info fuel (data ++ chunk)
        end
      else ret data
  end.

Definition our_identity : M json :=
  me ← gets nickname;
  ret (JDict [("nickname", JStr me);
              ("ip", JStr get_local_ip);
              ("device_type", JStr "desktop");
              ("status", JStr "ready")]).

(** [handle_qr_connection] after its own identity was sent: the wait for
    the identity of the peer and its registration. *)
Definition await_peer_info (addr : string) (now : Z) : M unit :=
  fuel ← loop_fuel;
  data ← read_peer_info fuel [];
  match data with
  | [] => ret tt
  | _ =>
      try_except
        (text ← decode data;
         peer ← loads (str_strip text);
         log (ReceivedPeerInfo peer) ;;
         peer_nickname ← json_get peer "nickname";
         peer_ip ← json_get_default peer "ip" (JStr addr);
         dev ← json_get_default peer "device_type" (JStr "android");
         if truthy peer_nickname then
           key ← hash_key peer_nickname;
           modify (set_peers <[key := paired_entry peer_ip dev now]>) ;;
           log (QRConnectAdded peer_nickname dev peer_ip)
         else ret tt)
        (fun e =>
           match e return M unit with
           | JSONDecodeError => log (QRInvalidJson addr)
           | _ => raise e
           end)
  end.

(** The [with conn:] block of [handle_qr_connection]. *)
Definition qr_session (addr : string) (now : Z) : M unit :=
  our_info ← our_identity;
  sendall (JsonLine our_info) ;;
  log (SentOurInfo addr) ;;
  await_peer_info addr now.

(** [handle_qr_connection(conn, addr)] at time [now]. *)
Definition handle_qr_connection (addr : string) (now : Z) : M unit :=
  call
    (try_except (qr_session addr now)
       (fun e =>
          match e with
          | SocketTimeout => log (QRTimedOut addr)
          | _ => log (QRHandlerError addr e)
          end)).

End Handlers.

(** * Vocabulary of the statements *)

(** The bytes a connection delivers before its first read failure. *)
Fixpoint stream (c : list rx) : bytes :=
  match c with
  | Seg x xs :: rest => x :: xs ++ stream rest
  | _ => []
  end.

(** The remote end delivers its bytes and closes: no read fails. *)
Fixpoint closes (c : list rx) : bool :=
  match c with
  | [] => true
  | Seg _ _ :: rest => closes rest
  | Fail _ :: _ => false
  end.

(** The bytes written to [path] in a trace. *)
Fixpoint written (path : string) (t : list event) : bytes :=
  match t with
  | [] => []
  | FsWrite p data :: rest =>
      if String.eqb p path then data ++ written path rest
      else written path rest
  | _ :: rest => written path rest
  end.

(** What was sent on the connection in a trace. *)
Fixpoint sends (t : list event) : list wire :=
  match t with
  | [] => []
  | SockSend data :: rest => data :: sends rest
  | _ :: rest => sends rest
  end.

(** The files opened for writing in a trace. *)
Fixpoint opened (t : list event) : list string :=
  match t with
  | [] => []
  | FsOpenWrite p :: rest => p :: opened rest
  | _ :: rest => opened rest
  end.

(** The completions reported to the user in a trace. *)
Fixpoint completions (t : list event) : list string :=
  match t with
  | [] => []
  | ReceiveCompleted name :: rest => name :: completions rest
  | _ :: rest => completions rest
  end.

(** The failures of a reception logged in a trace. *)
Fixpoint failures (t : list event) : list exn :=
  match t with
  | [] => []
  | Log (ReceiveFailed e) :: rest => e :: failures rest
  | _ :: rest => failures rest
  end.

(** Reads from the socket and writes to an opened file. *)
Definition io_only (e : event) : bool :=
  match e with
  | SockRecv _ | FsWrite _ _ | FsOpenWrite _ => true
  | _ => false
  end.

(** The world [w] with other pending input and another trace. *)
Definition with_io (c : list rx) (t : list event) (w : world) : world :=
  World (nickname w) (running w) (peers w) (active_transfers w) (fs w)
    c t (filepath w) (temp_zip_path w).

(** The datagram [d] decodes to the JSON object [message]. *)
Definition announces {H : Host} (d : dgram) (message : list (string * json))
  : Prop :=
  exists data text,
    d = Datagram data /\ decode_utf8 data = Some text
    /\ json_loads text = Some (JDict message).

(** [message] carries the magic string and a nickname other than [me]. *)
Definition foreign_announcement (me : string)
  (message : list (string * json)) : Prop :=
  eq_str (get "magic" message) BROADCAST_MAGIC = true
  /\ eq_str (get "nickname" message) me = false.

(** The world in which the session of a connection starts. *)
Definition registered (transfer_id addr : string) (w : world) : world :=
  emit (TransferAdded transfer_id)
    (set_active <[transfer_id := {| cancel := false; socket := addr |}]>
       (set_filepath "" w)).

(** The payload bytes sent on the connection in a trace. *)
Fixpoint payload_sent (t : list event) : bytes :=
  match t with
  | [] => []
  | SockSend (Raw data) :: rest => data ++ payload_sent rest
  | _ :: rest => payload_sent rest
  end.

(** The errors of a send attempt logged in a trace. *)
Fixpoint send_errors (t : list event) : list log_msg :=
  match t with
  | [] => []
  | Log (SendTimeout nick) :: rest => SendTimeout nick :: send_errors rest
  | Log (SendFailed item e) :: rest => SendFailed item e :: send_errors rest
  | _ :: rest => send_errors rest
  end.

(** The line [readline] returns on a connection: up to and including the
    first newline delivered before any read failure, or everything when
    the remote end closes first; [None] when a read fails first. *)
Definition first_line (c : list rx) : option bytes :=
  match split_newline (stream c) with
  | Some (head, _) => Some (head ++ [NL])
  | None => if closes c then Some (stream c) else None
  end.

(** The header of an offer of the file at [path]. *)
Definition offer_header (w : world) (path item_type : string)
  (content : bytes) : json :=
  JDict [("filename", JStr (basename path));
         ("filesize", JInt (Z.of_nat (length content)));
         ("type", JStr item_type);
         ("sender_nickname", JStr (nickname w))].

(** The identity object the pairing listener sends. *)
Definition identity_of {H : Host} (w : world) : json :=
  JDict [("nickname", JStr (nickname w));
         ("ip", JStr get_local_ip);
         ("device_type", JStr "desktop");
         ("status", JStr "ready")].

(** The registrations and removals of transfers in a trace. *)
Fixpoint table_events (t : list event) : list event :=
  match t with
  | [] => []
  | TransferAdded id :: rest => TransferAdded id :: table_events rest
  | TransferRemoved id :: rest => TransferRemoved id :: table_events rest
  | _ :: rest => table_events rest
  end.

(** From [w] to [w'] the table of active transfers is untouched: the same
    entries, and a trace that grew by events other than registrations and
    removals. *)
Definition table_untouched (w w' : world) : Prop :=
  active_transfers w' = active_transfers w
  /\ exists t, trace w' = trace w ++ t /\ table_events t = [].

(** A computation that leaves the table untouched from any world. *)
Definition keeps_table {A} (m : M A) : Prop :=
  forall w, table_untouched w (exec m w).

(** * A host for the examples

    The example texts are written with apostrophes where JSON has double
    quotes; [dq] puts the double quotes back. *)

Definition dq (text : string) : string :=
  string_of_list_ascii
    (List.map
       (fun c => if Ascii.eqb c "'"%char then ascii_of_byte x22 else c)
       (list_ascii_of_string text)).

(** The bytes of an ASCII text. *)
Definition wire_text (text : string) : bytes := list_byte_of_string (dq text).

(** [json.loads] on the documents of the examples. *)
Definition sample_documents : list (string * json) :=
  [ (dq "{'magic': 'c0d3-p2p-share-v1', 'nickname': 'bob', 'ip': '10.0.0.7', 'device_type': 'android'}",
     JDict [("magic", JStr "c0d3-p2p-share-v1"); ("nickname", JStr "bob");
            ("ip", JStr "10.0.0.7"); ("device_type", JStr "android")]);
    (dq "{'filename': 'a.txt', 'filesize': 5, 'type': 'file', 'sender_nickname': 'X'}",
     JDict [("filename", JStr "a.txt"); ("filesize", JInt 5);
            ("type", JStr "file"); ("sender_nickname", JStr "X")]);
    (dq "{'filename': 'docs/', 'filesize': 0, 'type': 'file', 'sender_nickname': 'X'}",
     JDict [("filename", JStr "docs/"); ("filesize", JInt 0);
            ("type", JStr "file"); ("sender_nickname", JStr "X")]);
    (dq "{'filename': 'a.txt', 'filesize': 0}",
     JDict [("filename", JStr "a.txt"); ("filesize", JInt 0)]);
    (dq "{'nickname': 'phone', 'ip': '10.0.0.9', 'device_type': 'android'}",
     JDict [("nickname", JStr "phone"); ("ip", JStr "10.0.0.9");
            ("device_type", JStr "android")]) ].

Definition sample_loads (text : string) : option json :=
  match List.find (fun doc => String.eqb (fst doc) text) sample_documents with
  | Some doc => Some (snd doc)
  | None => None
  end.

(** [decode('utf-8')] on ASCII bytes. *)
Definition sample_decode (data : bytes) : option string :=
  if forallb (fun c => (Byte.to_N c <? 128)%N) data
  then Some (string_of_list_byte data)
  else None.

(** [str.strip] on ASCII text. *)
Definition sample_strip (text : string) : string :=
  string_of_list_byte (strip (list_byte_of_string text)).

Definition sample_host : Host :=
  {| decode_utf8 := sample_decode;
     str_strip := sample_strip;
     json_loads := sample_loads;
     unpack_archive := fun _ _ f => Some f;
     make_archive := fun _ _ _ _ => None;
     SCRIPT_DIR := "/opt/vitshare";
     gettempdir := "/tmp";
     get_local_ip := "10.0.0.2" |}.

(** The backend of nickname [alice], running, with no peers, on an empty
    file system, about to handle a connection that delivers [c]. *)
Definition sample_world (c : list rx) : world :=
  World "alice" true ∅ ∅ ∅ c [] "" None.

(** A transfer request for [a.txt] of five bytes, and one that names a
    directory. *)
Definition sample_request : bytes :=
  wire_text "{'filename': 'a.txt', 'filesize': 5, 'type': 'file', 'sender_nickname': 'X'}".

Definition sample_request_json : list (string * json) :=
  [("filename", JStr "a.txt"); ("filesize", JInt 5);
   ("type", JStr "file"); ("sender_nickname", JStr "X")].

Definition directory_request : bytes :=
  wire_text "{'filename': 'docs/', 'filesize': 0, 'type': 'file', 'sender_nickname': 'X'}".

Definition accept_all (metadata : json) : bool := true.

(** An announcement of the peer [bob], and a registry in which [bob] is
    pinned. *)
Definition sample_announcement : bytes :=
  wire_text "{'magic': 'c0d3-p2p-share-v1', 'nickname': 'bob', 'ip': '10.0.0.7', 'device_type': 'android'}".

Definition sample_announcement_json : list (string * json) :=
  [("magic", JStr "c0d3-p2p-share-v1"); ("nickname", JStr "bob");
   ("ip", JStr "10.0.0.7"); ("device_type", JStr "android")].

Definition bob_entry (seen : Z) (pinned : bool) : peer_info :=
  {| ip := JStr "10.0.0.5"; last_seen := seen; device_type := JStr "ios";
     qr_connected := pinned |}.

Definition world_with_bob (seen : Z) (pinned : bool) : world :=
  World "alice" true {[ KStr "bob" := bob_entry seen pinned ]} ∅ ∅ [] []
    "" None.

(** A request whose line is not ended by a newline. *)
Definition unterminated_request : bytes :=
  wire_text "{'filename': 'a.txt', 'filesize': 0}".

Definition reject_all (metadata : json) : bool := false.

(** The identity line of the peer [phone]. *)
Definition sample_identity : bytes :=
  wire_text "{'nickname': 'phone', 'ip': '10.0.0.9', 'device_type': 'android'}".

Definition sample_identity_json : list (string * json) :=
  [("nickname", JStr "phone"); ("ip", JStr "10.0.0.9");
   ("device_type", JStr "android")].

(** The backend of [alice] knowing [bob], with [notes.txt] to share, on a
    connection that delivers [c]. *)
Definition sending_world (c : list rx) : world :=
  World "alice" true {[ KStr "bob" := bob_entry 0 false ]} ∅
    {[ join (@SHARE_DIR sample_host) "notes.txt" := File (b "hi") ]}
    c [] "" None.

(** * Further vocabulary and examples *)

(** The header the receiver parses on a connection that will close: the
    bytes before the first newline, or everything delivered when there is
    no newline. *)
Definition header_line (c : list rx) : bytes :=
  match split_newline (stream c) with
  | Some (head, _) => head
  | None => stream c
  end.

(** The pinned flag an upsert of the listener copies. *)
Definition pinned (known : gmap pykey peer_info) (key : pykey) : bool :=
  match known !! key with
  | Some old => qr_connected old
  | None => false
  end.


(** The number of reads from the socket in a trace. *)
Fixpoint reads (t : list event) : nat :=
  match t with
  | [] => O
  | SockRecv _ :: rest => S (reads rest)
  | _ :: rest => reads rest
  end.

(** * More examples

    A host that also knows a pairing request, the request of a folder and
    a JSON list, and that packs a folder into an archive of two bytes. *)

Definition example_documents : list (string * json) :=
  sample_documents ++
  [ (dq "{'type': 'qr_handshake', 'nickname': 'phone', 'device_type': 'ios'}",
     JDict [("type", JStr "qr_handshake"); ("nickname", JStr "phone");
            ("device_type", JStr "ios")]);
    (dq "{'filename': 'album.zip', 'filesize': 2, 'type': 'directory'}",
     JDict [("filename", JStr "album.zip"); ("filesize", JInt 2);
            ("type", JStr "directory")]);
    ("[1]", JList [JInt 1]) ].

Definition example_loads (text : string) : option json :=
  match List.find (fun doc => String.eqb (fst doc) text) example_documents with
  | Some doc => Some (snd doc)
  | None => None
  end.

Definition example_host : Host :=
  {| decode_utf8 := sample_decode;
     str_strip := sample_strip;
     json_loads := example_loads;
     unpack_archive := fun _ _ f => Some f;
     make_archive := fun base_name _ _ f =>
       Some (String.append base_name ".zip",
             <[String.append base_name ".zip" := File (b "PK")]> f);
     SCRIPT_DIR := "/opt/vitshare";
     gettempdir := "/tmp";
     get_local_ip := "10.0.0.2" |}.

(** A pairing request and the request of a folder. *)
Definition handshake_request : bytes :=
  wire_text "{'type': 'qr_handshake', 'nickname': 'phone', 'device_type': 'ios'}".

Definition handshake_request_json : list (string * json) :=
  [("type", JStr "qr_handshake"); ("nickname", JStr "phone");
   ("device_type", JStr "ios")].



(** The backend of [alice] knowing [bob], with the folder [album] to share,
    on a connection that delivers [c]. *)
Definition folder_world (c : list rx) : world :=
  World "alice" true {[ KStr "bob" := bob_entry 0 false ]} ∅
    {[ join (@SHARE_DIR example_host) "album" := Dir ]}
    c [] "" None.

(** The backend of [alice] after [stop_services]. *)
Definition stopped_world (c : list rx) : world :=
  World "alice" false ∅ ∅ ∅ c [] "" None.

(** ** What travels between two backends *)

(** The serialisation on the sending side: [json.dumps(obj)] and
    [text.encode('utf-8')]. *)
Class Encoder := {
  json_dumps : json -> string;
  encode_utf8 : string -> bytes
}.

(** The string ['\n']. *)
Definition LF : string := String (ascii_of_byte x0a) EmptyString.

(** The bytes [sendall] is given. *)
Definition on_wire {E : Encoder} (data : wire) : bytes :=
  match data with
  | Raw raw => raw
  | JsonLine obj => encode_utf8 (String.append (json_dumps obj) LF)
  end.

(** The bytes a sequence of [sendall] calls puts on a connection. *)
Definition wire_stream {E : Encoder} (sent : list wire) : bytes :=
  List.concat (List.map on_wire sent).

(** ** The presence broadcast *)

(** What [broadcast_presence] does: its log line, the datagrams it hands to
    [sendto], and its pauses. *)
Inductive presence_event :=
| LogBroadcasting (local_ip : string) (port : Z)
| SendTo (data : bytes) (address : string) (port : Z)
| Sleep (seconds : Z).

(** The object [broadcast_presence] announces. *)
Definition presence_message {H : Host} (w : world) : list (string * json) :=
  [("magic", JStr BROADCAST_MAGIC);
   ("nickname", JStr (nickname w));
   ("ip", JStr get_local_ip);
   ("device_type", JStr "desktop")].

(** The loop of [broadcast_presence], for at most [rounds] iterations: one
    [sendto] for each of the two broadcast addresses, then the pause.  An
    error of a [sendto] is passed over; it changes nothing of what
    follows. *)
Fixpoint broadcast_loop {E : Encoder} (rounds : nat) (message : string)
  (w : world) : list presence_event :=
  match rounds with
  | O => []
  | S rounds =>
      if running w then
        List.map (fun broadcast_addr =>
                    SendTo (encode_utf8 message) broadcast_addr UDP_PORT)
          ["255.255.255.255"; "<broadcast>"]
        ++ Sleep 3 :: broadcast_loop rounds message w
      else []
  end.

(** [broadcast_presence] *)
Definition broadcast_presence {H : Host} {E : Encoder} (rounds : nat)
  (w : world) : list presence_event :=
  let local_ip := get_local_ip in
  let message := json_dumps (JDict (presence_message w)) in
  LogBroadcasting local_ip UDP_PORT :: broadcast_loop rounds message w.

(** ** The names shown in the list of shared items *)

Definition FOLDER_TAG : string := " [Folder]".

(** [text[n:]] *)
Fixpoint str_drop (n : nat) (text : string) : string :=
  match n, text with
  | S n, String _ rest => str_drop n rest
  | _, _ => text
  end.

(** [text.replace('', new)]: [new] before every character and at the
    end. *)
Fixpoint str_intersperse (new text : string) : string :=
  match text with
  | EmptyString => new
  | String c rest => String.append new (String c (str_intersperse new rest))
  end.

(** The scan of [text.replace(old, new)] for a non-empty [old]: an
    occurrence at the current position is replaced and passed over,
    otherwise one character is kept. *)
Fixpoint replace_loop (fuel : nat) (old new text : string) : string :=
  match fuel with
  | O => text
  | S fuel =>
      if String.prefix old text then
        String.append new
          (replace_loop fuel old new (str_drop (String.length old) text))
      else
        match text with
        | EmptyString => EmptyString
        | String c rest => String c (replace_loop fuel old new rest)
        end
  end.

(** [text.replace(old, new)] *)
Definition str_replace (old new text : string) : string :=
  match old with
  | EmptyString => str_intersperse new text
  | _ => replace_loop (String.length text) old new text
  end.

(** The text [update_sharable_files_list] shows for an item. *)
Definition display_text (item_name : string) (is_folder : bool) : string :=
  if is_folder then String.append item_name FOLDER_TAG else item_name.

(** The item [send_selected_items] and [delete_selected_items] take a
    selected text to name. *)
Definition selected_item_name (item_display : string) : string :=
  str_replace FOLDER_TAG "" item_display.

(** [old in text] *)
Fixpoint occurs (old text : string) : bool :=
  String.prefix old text
  || match text with
     | EmptyString => false
     | String _ rest => occurs old rest
     end.

(** [old] has a border: a proper, non-empty end of it that is also its
    start. *)
Definition bordered (old : string) : bool :=
  existsb (fun k => String.prefix (str_drop k old) old)
    (seq 1 (String.length old - 1)).

(** ** Colours of the interface *)

(** [int(text, 16)]; [None] is [ValueError]. *)
Class Numerals := {
  int16 : string -> option Z
}.

(** [text[:n]] *)
Fixpoint str_take (n : nat) (text : string) : string :=
  match n, text with
  | S n, String c rest => String c (str_take n rest)
  | _, _ => EmptyString
  end.

(** [text[i:j]] for [0 <= i <= j] *)
Definition str_slice (i j : nat) (text : string) : string :=
  str_take (j - i) (str_drop i text).

(** [text.lstrip('#')] *)
Fixpoint lstrip_hash (text : string) : string :=
  match text with
  | String c rest => if Ascii.eqb c "#" then lstrip_hash rest else text
  | EmptyString => EmptyString
  end.

Definition hex_digit (d : Z) : ascii :=
  nth (Z.to_nat d) (list_ascii_of_string "0123456789abcdef") "0"%char.

(** [f'{n:02x}'] for [0 <= n <= 255] *)
Definition format_02x (n : Z) : string :=
  String (hex_digit (n / 16)) (String (hex_digit (n mod 16)) EmptyString).

(** [max(0, min(255, c))] *)
Definition clamp (c : Z) : Z := Z.max 0 (Z.min 255 c).

(** [f'#{r:02x}{g:02x}{b:02x}'] *)
Definition format_colour (r g b : Z) : string :=
  String "#" (String.append (format_02x r)
                (String.append (format_02x g) (format_02x b))).

(** [adjust_color(hex_color, brightness_offset)] for an integer offset;
    [None] is the [ValueError] of [int]. *)
Definition adjust_color {N : Numerals} (hex_color : string)
  (brightness_offset : Z) : option string :=
  let hex_color := lstrip_hash hex_color in
  match int16 (str_slice 0 2 hex_color) with
  | None => None
  | Some r =>
      match int16 (str_slice 2 4 hex_color) with
      | None => None
      | Some g =>
          match int16 (str_slice 4 6 hex_color) with
          | None => None
          | Some b =>
              let r := clamp (r + brightness_offset) in
              let g := clamp (g + brightness_offset) in
              let b := clamp (b + brightness_offset) in
              Some (format_colour r g b)
          end
      end
  end.

(** The value of a hexadecimal digit, of either case. *)
Definition hex_value (c : ascii) : option Z :=
  let n := Z.of_N (N_of_ascii c) in
  if (48 <=? n) && (n <=? 57) then Some (n - 48)
  else if (97 <=? n) && (n <=? 102) then Some (n - 87)
  else if (65 <=? n) && (n <=? 70) then Some (n - 55)
  else None.

(** [text] is the two-digit hexadecimal numeral of [n]. *)
Definition hex_pair (n : Z) (text : string) : Prop :=
  exists c d h l,
    text = String c (String d EmptyString)
    /\ hex_value c = Some h /\ hex_value d = Some l /\ n = 16 * h + l.

(** * Examples of what travels between two backends

    A serialisation that writes the documents the example host reads, and
    a reader of two hexadecimal digits. *)

Fixpoint json_eqb (v v' : json) : bool :=
  match v, v' with
  | JNull, JNull => true
  | JBool x, JBool y => Bool.eqb x y
  | JInt x, JInt y => x =? y
  | JStr x, JStr y => String.eqb x y
  | JList l, JList l' =>
      (fix all (l l' : list json) : bool :=
         match l, l' with
         | [], [] => true
         | x :: l, y :: l' => json_eqb x y && all l l'
         | _, _ => false
         end) l l'
  | JDict d, JDict d' =>
      (fix all (d d' : list (string * json)) : bool :=
         match d, d' with
         | [], [] => true
         | (k, x) :: d, (k', y) :: d' =>
             String.eqb k k' && json_eqb x y && all d d'
         | _, _ => false
         end) d d'
  | _, _ => false
  end.

Definition wire_documents : list (string * json) :=
  example_documents ++
  [ (dq "{'filename': 'notes.txt', 'filesize': 2, 'type': 'file', 'sender_nickname': 'alice'}",
     JDict [("filename", JStr "notes.txt"); ("filesize", JInt 2);
            ("type", JStr "file"); ("sender_nickname", JStr "alice")]);
    (dq "{'magic': 'c0d3-p2p-share-v1', 'nickname': 'alice', 'ip': '10.0.0.2', 'device_type': 'desktop'}",
     JDict [("magic", JStr "c0d3-p2p-share-v1"); ("nickname", JStr "alice");
            ("ip", JStr "10.0.0.2"); ("device_type", JStr "desktop")]) ].

Definition wire_loads (text : string) : option json :=
  match List.find (fun doc => String.eqb (fst doc) text) wire_documents with
  | Some doc => Some (snd doc)
  | None => None
  end.

Definition wire_dumps (obj : json) : string :=
  match List.find (fun doc => json_eqb (snd doc) obj) wire_documents with
  | Some doc => fst doc
  | None => "null"
  end.

Definition wire_host : Host :=
  {| decode_utf8 := sample_decode;
     str_strip := sample_strip;
     json_loads := wire_loads;
     unpack_archive := fun _ _ f => Some f;
     make_archive := fun _ _ _ _ => None;
     SCRIPT_DIR := "/home/bob/vitshare";
     gettempdir := "/tmp";
     get_local_ip := "10.0.0.5" |}.

Definition example_encoder : Encoder :=
  {| json_dumps := wire_dumps;
     encode_utf8 := list_byte_of_string |}.

(** The offer of [notes.txt] and the announcement of [alice], as sent. *)
Definition notes_offer : bytes :=
  wire_text "{'filename': 'notes.txt', 'filesize': 2, 'type': 'file', 'sender_nickname': 'alice'}".

Definition alice_presence : bytes :=
  wire_text "{'magic': 'c0d3-p2p-share-v1', 'nickname': 'alice', 'ip': '10.0.0.2', 'device_type': 'desktop'}".

(** The backend of [bob], running, with no peers, on an empty file system,
    about to handle a connection that delivers [c]. *)
Definition receiving_world (c : list rx) : world :=
  World "bob" true ∅ ∅ ∅ c [] "" None.

(** [int(text, 16)] on two hexadecimal digits. *)
Definition sample_int16 (text : string) : option Z :=
  match text with
  | String c (String d EmptyString) =>
      match hex_value c, hex_value d with
      | Some h, Some l => Some (16 * h + l)
      | _, _ => None
      end
  | _ => None
  end.

Definition sample_numerals : Numerals := {| int16 := sample_int16 |}.

(** * Properties *)

(** ** Bytes and paths *)

Lemma byte_eqb_eq x y : byte_eqb x y = true <-> x = y.
Proof.
  unfold byte_eqb. split.
  - apply Byte.byte_dec_bl.
  - intros ->. apply Byte.byte_dec_lb. reflexivity.
Qed.

Lemma byte_eqb_refl x : byte_eqb x x = true.
Proof. apply byte_eqb_eq. reflexivity. Qed.

Lemma bytes_eqb_eq x y : bytes_eqb x y = true <-> x = y.
Proof.
  revert y. induction x as [|c x IH]; intros [|d y]; simpl; split;
    try congruence; try reflexivity.
  - intros H. apply andb_true_iff in H as [H1 H2].
    apply byte_eqb_eq in H1. apply IH in H2. congruence.
  - intros H. injection H as -> ->. rewrite byte_eqb_refl. simpl.
    apply IH. reflexivity.
Qed.

(** ** The stale-peer sweep *)

Section SweepProperties.
Context {H : Host}.

Lemma for_each_delete_peers (l : list pykey) (w : world) :
  outcome (for_each l (fun nick =>
     modify (set_peers (delete nick)) ;; log (PeerTimedOut nick))) w = Val tt
  /\ forall nick,
      peers (exec (for_each l (fun nick =>
        modify (set_peers (delete nick)) ;; log (PeerTimedOut nick))) w)
        !! nick
      = if bool_decide (nick ∈ l) then None else peers w !! nick.
Proof.
  revert w. induction l as [|k l IH]; intros w.
  - split; [reflexivity|]. intros nick. reflexivity.
  - unfold exec, outcome in *. cbn [for_each].
    unfold bind at 1 3. unfold bind at 1 3. unfold modify, log, act. cbn.
    set (w1 := emit _ _).
    destruct (IH w1) as [IH1 IH2]. split; [exact IH1|].
    intros nick. rewrite IH2. subst w1. cbn.
    destruct (decide (nick = k)) as [->|Hne].
    + rewrite lookup_delete_eq.
      rewrite (bool_decide_eq_true_2 (k ∈ k :: l)); [|left].
      destruct (bool_decide (k ∈ l)); reflexivity.
    + rewrite lookup_delete_ne by congruence.
      destruct (decide (nick ∈ l)) as [Hin|Hnin].
      * rewrite !bool_decide_eq_true_2; [reflexivity | by right | done].
      * rewrite !bool_decide_eq_false_2; [reflexivity | | done].
        intros Hc. apply elem_of_cons in Hc as [?|?]; done.
Qed.

Lemma elem_of_stale_peers (now : Z) (known : gmap pykey peer_info) nick :
  nick ∈ stale_peers now known <->
  exists info, known !! nick = Some info /\ is_stale now info = true.
Proof.
  unfold stale_peers. rewrite list_elem_of_fmap. split.
  - intros [[k info] [-> Hin]]. apply list_elem_of_In in Hin.
    apply filter_In in Hin as [Hin Hst]. apply list_elem_of_In in Hin.
    apply elem_of_map_to_list in Hin. exists info. split; assumption.
  - intros (info & Hlk & Hst). exists (nick, info). split; [reflexivity|].
    apply list_elem_of_In. apply filter_In. split; [|exact Hst].
    apply list_elem_of_In. apply elem_of_map_to_list. exact Hlk.
Qed.

Lemma cleanup_sweep_lookup (now : Z) (w : world) nick :
  peers (exec (cleanup_sweep now) w) !! nick =
  match peers w !! nick with
  | Some info => if is_stale now info then None else Some info
  | None => None
  end.
Proof.
  unfold cleanup_sweep, exec. unfold bind at 1. unfold gets. cbn.
  destruct (for_each_delete_peers (stale_peers now (peers w)) w) as [_ Hl].
  unfold exec in Hl. rewrite Hl.
  destruct (decide (nick ∈ stale_peers now (peers w))) as [Hin|Hnin].
  - rewrite bool_decide_eq_true_2 by done.
    apply elem_of_stale_peers in Hin as (info & -> & ->). reflexivity.
  - rewrite bool_decide_eq_false_2 by done.
    destruct (peers w !! nick) as [info|] eqn:Hlk; [|reflexivity].
    destruct (is_stale now info) eqn:Hst; [|reflexivity].
    exfalso. apply Hnin. apply elem_of_stale_peers. eauto.
Qed.

(** C4.  One sweep at time [now] removes an entry exactly when
    [now - last_seen > PEER_TIMEOUT] and the entry is not pinned; an entry
    that stays is unchanged, and a pinned entry always stays. *)
Theorem cleanup_sweep_removes_iff_stale_unpinned
  (w : world) (now : Z) (nick : pykey) (info : peer_info) :
  peers w !! nick = Some info ->
  (peers (exec (cleanup_sweep now) w) !! nick = None <->
     now - last_seen info > PEER_TIMEOUT /\ qr_connected info = false)
  /\ (peers (exec (cleanup_sweep now) w) !! nick = None \/
      peers (exec (cleanup_sweep now) w) !! nick = Some info)
  /\ (qr_connected info = true ->
      peers (exec (cleanup_sweep now) w) !! nick = Some info).
Proof.
  intros Hlk. rewrite cleanup_sweep_lookup, Hlk. unfold is_stale.
  destruct (qr_connected info) eqn:Hq;
    destruct (now - last_seen info >? PEER_TIMEOUT) eqn:Hgt; cbn;
    repeat split; try (intros; congruence); try (intros [? ?]; congruence);
    auto.
  - apply Z.gtb_lt in Hgt. lia.
  - intros [Hc _]. exfalso.
    assert (Hn : (now - last_seen info >? PEER_TIMEOUT) = true)
      by (apply Z.gtb_lt; lia).
    congruence.
Qed.

End SweepProperties.

(** ** The discovery listener *)

Section ListenerProperties.
Context {H : Host}.

Ltac run_listener :=
  unfold exec, outcome, listen_iteration, try_except, bind, recvfrom,
    decode, loads, json_get, json_get_default, hash_key, log, act, gets,
    modify, ret, raise, return_ in *; cbn in *.

Lemma listen_iteration_returns (now : Z) (d : dgram) (w : world) :
  outcome (listen_iteration now d) w = Val tt.
Proof.
  run_listener. repeat (case_match; cbn in *; simplify_eq); reflexivity.
Qed.

Lemma listen_iteration_frame (now : Z) (d : dgram) (w : world) :
  nickname (exec (listen_iteration now d) w) = nickname w
  /\ running (exec (listen_iteration now d) w) = running w.
Proof.
  run_listener. repeat (case_match; cbn in *; simplify_eq); auto.
Qed.

Lemma listen_iteration_upsert (now : Z) (d : dgram) (w : world) message key :
  announces d message ->
  foreign_announcement (nickname w) message ->
  hashable (get "nickname" message) = Some key ->
  peers (exec (listen_iteration now d) w) =
  <[key := discovered_entry (get "ip" message)
             (get_default "device_type" (JStr "unknown") message) now
             (peers w !! key)]> (peers w).
Proof.
  intros (data & text & -> & Hdec & Hload) [Hmagic Hnick] Hkey.
  run_listener. rewrite Hdec. cbn. rewrite Hload. cbn.
  rewrite Hmagic. cbn. rewrite Hnick. cbn. rewrite Hkey. cbn.
  destruct (peers w !! key); reflexivity.
Qed.

Lemma listen_iteration_drop (now : Z) (d : dgram) (w : world) :
  (forall message,
     announces d message -> ~ foreign_announcement (nickname w) message) ->
  peers (exec (listen_iteration now d) w) = peers w.
Proof.
  intros Hno. unfold foreign_announcement in Hno.
  destruct d as [data|e].
  2:{ run_listener. repeat (case_match; cbn in *; simplify_eq); auto. }
  destruct (decode_utf8 data) as [text|] eqn:Hdec.
  2:{ run_listener. rewrite Hdec. cbn.
      repeat (case_match; cbn in *; simplify_eq); auto. }
  destruct (json_loads text) as [v|] eqn:Hload.
  2:{ run_listener. rewrite Hdec. cbn. rewrite Hload. reflexivity. }
  destruct v as [ | | | | |message];
    try (run_listener; rewrite Hdec; cbn; rewrite Hload; cbn;
         repeat (case_match; cbn in *; simplify_eq); auto; fail).
  specialize (Hno message).
  assert (Ha : announces (Datagram data) message)
    by (exists data, text; auto).
  specialize (Hno Ha).
  run_listener. rewrite Hdec. cbn. rewrite Hload. cbn.
  destruct (eq_str (get "magic" message) BROADCAST_MAGIC) eqn:Hm;
    [|reflexivity].
  destruct (eq_str (get "nickname" message) (nickname w)) eqn:Hn;
    [reflexivity|].
  exfalso. apply Hno. split; reflexivity.
Qed.

(** What one iteration does to the entry of [key]: nothing, or a rewrite
    that keeps the pinned flag. *)
Lemma listen_iteration_entry (now : Z) (d : dgram) (w : world) key :
  peers (exec (listen_iteration now d) w) !! key = peers w !! key
  \/ exists peer_ip dev,
       peers (exec (listen_iteration now d) w) !! key =
       Some (discovered_entry peer_ip dev now (peers w !! key)).
Proof.
  destruct d as [data|e].
  2:{ left. run_listener.
      repeat (case_match; cbn in *; simplify_eq); auto. }
  destruct (decode_utf8 data) as [text|] eqn:Hdec.
  2:{ left. run_listener. rewrite Hdec. cbn.
      repeat (case_match; cbn in *; simplify_eq); auto. }
  destruct (json_loads text) as [v|] eqn:Hload.
  2:{ left. run_listener. rewrite Hdec. cbn. rewrite Hload. reflexivity. }
  destruct v as [ | | | | |message];
    try (left; run_listener; rewrite Hdec; cbn; rewrite Hload; cbn;
         repeat (case_match; cbn in *; simplify_eq); auto; fail).
  destruct (eq_str (get "magic" message) BROADCAST_MAGIC) eqn:Hm.
  2:{ left. run_listener. rewrite Hdec. cbn. rewrite Hload. cbn.
      rewrite Hm. reflexivity. }
  destruct (eq_str (get "nickname" message) (nickname w)) eqn:Hn.
  { left. run_listener. rewrite Hdec. cbn. rewrite Hload. cbn.
    rewrite Hm. cbn. rewrite Hn. reflexivity. }
  destruct (hashable (get "nickname" message)) as [k|] eqn:Hk.
  2:{ left. run_listener. rewrite Hdec. cbn. rewrite Hload. cbn.
      rewrite Hm. cbn. rewrite Hn. cbn. rewrite Hk. cbn.
      repeat (case_match; cbn in *; simplify_eq); auto. }
  rewrite (listen_iteration_upsert now (Datagram data) w message k);
    [ | exists data, text; auto | split; auto | exact Hk ].
  destruct (decide (k = key)) as [->|Hne].
  - right. eexists _, _. rewrite lookup_insert_eq. reflexivity.
  - left. rewrite lookup_insert_ne by exact Hne. reflexivity.
Qed.

Lemma listen_iteration_keeps_pin (now : Z) (d : dgram) (w : world) key info :
  peers w !! key = Some info -> qr_connected info = true ->
  exists info',
    peers (exec (listen_iteration now d) w) !! key = Some info'
    /\ qr_connected info' = true.
Proof.
  intros Hlk Hpin.
  destruct (listen_iteration_entry now d w key) as [->|(a & dv & ->)].
  - eauto.
  - eexists. split; [reflexivity|]. rewrite Hlk. exact Hpin.
Qed.

Lemma listen_for_peers_keeps_pin (arrivals : list (Z * dgram)) (w : world)
  key info :
  peers w !! key = Some info -> qr_connected info = true ->
  exists info',
    peers (exec (listen_for_peers arrivals) w) !! key = Some info'
    /\ qr_connected info' = true.
Proof.
  revert w info. induction arrivals as [|[now d] rest IH]; intros w info Hlk Hpin.
  - exists info. auto.
  - unfold exec in *. cbn [listen_for_peers]. unfold bind at 1. unfold gets.
    cbn. destruct (running w); [|cbn; eauto].
    unfold bind at 1.
    pose proof (listen_iteration_returns now d w) as Hret.
    destruct (listen_iteration_keeps_pin now d w key info Hlk Hpin)
      as (info1 & Hlk1 & Hpin1).
    unfold exec, outcome in *.
    destruct (listen_iteration now d w) as [r w1]. cbn in *. subst r.
    apply (IH w1 info1 Hlk1 Hpin1).
Qed.

Lemma announces_functional (d : dgram) m1 m2 :
  announces d m1 -> announces d m2 -> m1 = m2.
Proof.
  intros (d1 & t1 & E1 & D1 & L1) (d2 & t2 & E2 & D2 & L2).
  subst d. injection E2 as <-. rewrite D1 in D2. injection D2 as <-.
  rewrite L1 in L2. injection L2 as <-. reflexivity.
Qed.

Lemma announcement_cases (d : dgram) (me : string) :
  (exists message, announces d message /\ foreign_announcement me message)
  \/ (forall message, announces d message ->
        ~ foreign_announcement me message).
Proof.
  destruct d as [data|e].
  2:{ right. intros m (? & ? & ? & _). discriminate. }
  destruct (decode_utf8 data) as [text|] eqn:Hdec.
  2:{ right. intros m (? & ? & E & D & _). injection E as <-. congruence. }
  destruct (json_loads text) as [v|] eqn:Hload.
  2:{ right. intros m (? & ? & E & D & L). injection E as <-.
      rewrite Hdec in D. injection D as <-. congruence. }
  destruct v as [ | | | | |message];
    try (right; intros m (? & ? & E & D & L); injection E as <-;
         rewrite Hdec in D; injection D as <-; congruence).
  assert (Ha : announces (Datagram data) message)
    by (exists data, text; auto).
  destruct (eq_str (get "magic" message) BROADCAST_MAGIC) eqn:Hm.
  2:{ right. intros m Hm' [Hc _].
      rewrite (announces_functional _ _ _ Hm' Ha) in Hc. congruence. }
  destruct (eq_str (get "nickname" message) me) eqn:Hn.
  { right. intros m Hm' [_ Hc].
    rewrite (announces_functional _ _ _ Hm' Ha) in Hc. congruence. }
  left. exists message. split; [exact Ha | split; assumption].
Qed.

Lemma listen_iteration_unhashable (now : Z) (d : dgram) (w : world) message :
  announces d message ->
  foreign_announcement (nickname w) message ->
  hashable (get "nickname" message) = None ->
  peers (exec (listen_iteration now d) w) = peers w.
Proof.
  intros (data & text & -> & Hdec & Hload) [Hmagic Hnick] Hkey.
  run_listener. rewrite Hdec. cbn. rewrite Hload. cbn.
  rewrite Hmagic. cbn. rewrite Hnick. cbn. rewrite Hkey. cbn.
  destruct (running w); reflexivity.
Qed.

(** C5.  Under discovery upserts the registry has one entry per nickname;
    an announcement rewrites the address, the last-seen time and the device
    class of its nickname, keeps that entry's pinned flag and leaves the
    other entries alone; and a pinned entry stays pinned through any
    sequence of iterations of the listener. *)
Theorem discovery_upsert_last_write_wins_pin_monotonic
  (arrivals : list (Z * dgram)) (w : world) :
  NoDup (fmap fst (map_to_list (peers (exec (listen_for_peers arrivals) w))))
  /\ (forall now d message key,
        announces d message ->
        foreign_announcement (nickname w) message ->
        hashable (get "nickname" message) = Some key ->
        peers (exec (listen_iteration now d) w) !! key =
          Some {| ip := get "ip" message;
                  last_seen := now;
                  device_type :=
                    get_default "device_type" (JStr "unknown") message;
                  qr_connected :=
                    match peers w !! key with
                    | Some old => qr_connected old
                    | None => false
                    end |}
        /\ forall other, other <> key ->
             peers (exec (listen_iteration now d) w) !! other
             = peers w !! other)
  /\ (forall key info,
        peers w !! key = Some info -> qr_connected info = true ->
        exists info',
          peers (exec (listen_for_peers arrivals) w) !! key = Some info'
          /\ qr_connected info' = true).
Proof.
  split; [apply NoDup_fst_map_to_list|]. split.
  - intros now d message key Ha Hf Hk.
    rewrite (listen_iteration_upsert now d w message key Ha Hf Hk). split.
    + rewrite lookup_insert_eq. reflexivity.
    + intros other Hne. apply lookup_insert_ne. congruence.
  - intros key info. apply listen_for_peers_keeps_pin.
Qed.

(** C7.  An iteration of the listener leaves the registry as it is when the
    datagram does not decode (bad encoding or bad JSON), when it lacks the
    magic string, and when it carries the nickname of this instance; the
    registry changes only for a decoded object with the magic string and a
    foreign nickname, and then by an upsert that does not pin. *)
Theorem listener_drops_malformed_foreign_and_own
  (now : Z) (d : dgram) (w : world) :
  (forall data, d = Datagram data ->
     decode_utf8 data = None
     \/ (exists text, decode_utf8 data = Some text /\ json_loads text = None) ->
     peers (exec (listen_iteration now d) w) = peers w)
  /\ (forall message, announces d message ->
        eq_str (get "magic" message) BROADCAST_MAGIC = false ->
        peers (exec (listen_iteration now d) w) = peers w)
  /\ (forall message, announces d message ->
        get "nickname" message = JStr (nickname w) ->
        peers (exec (listen_iteration now d) w) = peers w)
  /\ (peers (exec (listen_iteration now d) w) <> peers w ->
      exists message key,
        announces d message
        /\ foreign_announcement (nickname w) message
        /\ hashable (get "nickname" message) = Some key
        /\ peers (exec (listen_iteration now d) w) =
           <[key := discovered_entry (get "ip" message)
                      (get_default "device_type" (JStr "unknown") message)
                      now (peers w !! key)]> (peers w)
        /\ (forall info',
              peers (exec (listen_iteration now d) w) !! key = Some info' ->
              qr_connected info' =
              match peers w !! key with
              | Some old => qr_connected old
              | None => false
              end)).
Proof.
  repeat split.
  - intros data -> Hbad. apply listen_iteration_drop.
    intros m (? & text & E & D & L). injection E as <-.
    destruct Hbad as [Hb|(t & Hd & Hl)]; [congruence|].
    rewrite D in Hd. injection Hd as <-. congruence.
  - intros message Ha Hm. apply listen_iteration_drop.
    intros m Hm' [Hc _].
    rewrite (announces_functional _ _ _ Hm' Ha) in Hc. congruence.
  - intros message Ha Hn. apply listen_iteration_drop.
    intros m Hm' [_ Hc].
    rewrite (announces_functional _ _ _ Hm' Ha) in Hc.
    rewrite Hn in Hc. cbn in Hc. rewrite String.eqb_refl in Hc.
    discriminate.
  - intros Hchg.
    destruct (announcement_cases d (nickname w)) as [(m & Ha & Hf)|Hno].
    2:{ exfalso. apply Hchg. apply listen_iteration_drop. exact Hno. }
    destruct (hashable (get "nickname" m)) as [key|] eqn:Hk.
    2:{ exfalso. apply Hchg.
        apply (listen_iteration_unhashable now d w m Ha Hf Hk). }
    exists m, key. repeat split; try assumption; try apply Hf.
    + apply (listen_iteration_upsert now d w m key Ha Hf Hk).
    + intros info'.
      rewrite (listen_iteration_upsert now d w m key Ha Hf Hk).
      rewrite lookup_insert_eq. intros [= <-]. reflexivity.
Qed.

End ListenerProperties.

(** ** Reading from a connection *)

Lemma ztake_zdrop (k : Z) (data : bytes) : ztake k data ++ zdrop k data = data.
Proof.
  revert k. induction data as [|c rest IH]; intros k; cbn; [reflexivity|].
  destruct (k <=? 0); cbn; [reflexivity|]. rewrite IH. reflexivity.
Qed.

Lemma ztake_nonpos (k : Z) (data : bytes) : k <= 0 -> ztake k data = [].
Proof.
  intros Hk. destruct data as [|c rest]; cbn; [reflexivity|].
  destruct (Z.leb_spec k 0); [reflexivity | lia].
Qed.

Lemma len_app (x y : bytes) : len (x ++ y) = len x + len y.
Proof. unfold len. rewrite length_app. lia. Qed.

Lemma len_nonneg (x : bytes) : 0 <= len x.
Proof. unfold len. lia. Qed.

Lemma len_cons (c : byte) (x : bytes) : len (c :: x) = 1 + len x.
Proof. unfold len. cbn [length]. lia. Qed.

Lemma len_ztake_le (k : Z) (data : bytes) : 0 <= k -> len (ztake k data) <= k.
Proof.
  revert k. induction data as [|c rest IH]; intros k Hk; cbn.
  - unfold len. cbn. lia.
  - destruct (Z.leb_spec k 0).
    + unfold len. cbn. lia.
    + rewrite len_cons. specialize (IH (k - 1)). lia.
Qed.

Lemma ztake_all (k : Z) (data : bytes) : len data <= k -> ztake k data = data.
Proof.
  revert k. induction data as [|c rest IH]; intros k Hk; cbn; [reflexivity|].
  rewrite len_cons in Hk. pose proof (len_nonneg rest).
  destruct (Z.leb_spec k 0); [lia|]. rewrite IH by lia. reflexivity.
Qed.

Lemma ztake_app (k : Z) (x y : bytes) :
  len x <= k -> ztake k (x ++ y) = x ++ ztake (k - len x) y.
Proof.
  revert k. induction x as [|c rest IH]; intros k Hk; cbn.
  - unfold len. cbn. rewrite Z.sub_0_r. reflexivity.
  - rewrite len_cons in *. pose proof (len_nonneg rest).
    destruct (Z.leb_spec k 0); [lia|]. rewrite IH by lia.
    replace (k - 1 - len rest) with (k - (1 + len rest)) by lia.
    reflexivity.
Qed.

Lemma stream_segment (data : bytes) (rest : list rx) :
  stream (segment data ++ rest) = data ++ stream rest.
Proof. destruct data; reflexivity. Qed.

Lemma closes_segment (data : bytes) (rest : list rx) :
  closes (segment data ++ rest) = closes rest.
Proof. destruct data; reflexivity. Qed.

Lemma pending_segment (data : bytes) (rest : list rx) :
  pending_bytes (segment data ++ rest) = (length data + pending_bytes rest)%nat.
Proof. destruct data; reflexivity. Qed.

Lemma length_zdrop (k : Z) (c : byte) (data : bytes) :
  0 < k -> (length (zdrop k (c :: data)) <= length data)%nat.
Proof.
  intros Hk. cbn. destruct (Z.leb_spec k 0); [lia|].
  clear. generalize (k - 1). induction data as [|d rest IH]; intros j; cbn.
  - lia.
  - destruct (j <=? 0); cbn; [lia|]. specialize (IH (j - 1)). lia.
Qed.

(** A read of at least one byte from a connection that will close. *)
Lemma recv_closes (k : Z) (w : world) :
  0 < k -> closes (conn w) = true ->
  exists data c',
    recv k w = (Val data, with_io c' (trace w ++ [SockRecv k]) w)
    /\ stream (conn w) = data ++ stream c'
    /\ closes c' = true
    /\ len data <= k
    /\ (data = [] -> stream (conn w) = [] /\ c' = [])
    /\ (data <> [] -> (pending_bytes c' < pending_bytes (conn w))%nat).
Proof.
  intros Hk Hc. unfold recv, bind, act, modify, gets, ret. cbn.
  unfold with_io, emit, set_conn. cbn.
  destruct (conn w) as [|[c cs|e] rest] eqn:Hconn; cbn in *.
  - exists [], []. split; [reflexivity|]. split; [reflexivity|].
    split; [reflexivity|]. split; [unfold len; cbn; lia|].
    split; [auto | congruence].
  - destruct (Z.leb_spec (len (c :: cs)) k) as [Hle|Hgt]; cbn.
    + exists (c :: cs), rest. split; [reflexivity|]. split; [reflexivity|].
      split; [assumption|]. split; [assumption|].
      split; [discriminate|]. intros _. lia.
    + exists (ztake k (c :: cs)), (segment (zdrop k (c :: cs)) ++ rest).
      rewrite stream_segment, closes_segment, pending_segment.
      split; [reflexivity|].
      split; [rewrite app_assoc, ztake_zdrop; reflexivity|].
      split; [assumption|]. split; [apply len_ztake_le; lia|].
      split.
      * cbn. destruct (Z.leb_spec k 0); [lia | discriminate].
      * intros _. pose proof (length_zdrop k c cs Hk). lia.
  - discriminate.
Qed.

Lemma byte_eqb_sym (x y : byte) : byte_eqb x y = byte_eqb y x.
Proof.
  destruct (byte_eqb x y) eqn:Hxy, (byte_eqb y x) eqn:Hyx; try reflexivity.
  - apply byte_eqb_eq in Hxy. subst. rewrite byte_eqb_refl in Hyx.
    discriminate.
  - apply byte_eqb_eq in Hyx. subst. rewrite byte_eqb_refl in Hxy.
    discriminate.
Qed.

Lemma split_newline_none (data : bytes) :
  split_newline data = None <-> has_newline data = false.
Proof.
  induction data as [|c rest IH]; cbn; [tauto|].
  rewrite (byte_eqb_sym NL c).
  destruct (byte_eqb c NL); cbn; [split; discriminate|].
  destruct (split_newline rest) as [[hd tl]|]; [|tauto].
  split; [discriminate|]. intros Hn. apply IH in Hn. discriminate.
Qed.

Lemma has_newline_cons (c : byte) (data : bytes) :
  has_newline (c :: data) = byte_eqb c NL || has_newline data.
Proof. unfold has_newline. cbn [existsb]. rewrite byte_eqb_sym. reflexivity. Qed.

Lemma split_newline_some (data head tail : bytes) :
  split_newline data = Some (head, tail) <->
  data = head ++ NL :: tail /\ has_newline head = false.
Proof.
  revert head tail.
  induction data as [|c rest IH]; intros head tail; cbn [split_newline].
  - split; [discriminate|]. intros [Hd _]. destruct head; discriminate.
  - destruct (byte_eqb c NL) eqn:Hc.
    + apply byte_eqb_eq in Hc. subst c. split.
      * intros [= <- <-]. split; reflexivity.
      * intros [Hd Hn]. destruct head as [|h head].
        -- cbn in Hd. injection Hd as ->. reflexivity.
        -- cbn in Hd. injection Hd as <- _.
           rewrite has_newline_cons, byte_eqb_refl in Hn. discriminate.
    + destruct (split_newline rest) as [[hd tl]|] eqn:Hs.
      * destruct (proj1 (IH hd tl) eq_refl) as [Hrest Hnh]. split.
        -- intros [= <- <-]. split.
           ++ rewrite Hrest. reflexivity.
           ++ rewrite has_newline_cons, Hc. exact Hnh.
        -- intros [Hd Hn]. destruct head as [|h head].
           ++ cbn in Hd. injection Hd as -> _.
              rewrite byte_eqb_refl in Hc. discriminate.
           ++ cbn in Hd. injection Hd as <- Hd.
              rewrite has_newline_cons, Hc in Hn. cbn in Hn.
              assert (Hx : Some (hd, tl) = Some (head, tail))
                by (apply IH; auto).
              injection Hx as -> ->. reflexivity.
      * split; [discriminate|]. intros [Hd Hn].
        destruct head as [|h head].
        -- cbn in Hd. injection Hd as -> _.
           rewrite byte_eqb_refl in Hc. discriminate.
        -- cbn in Hd. injection Hd as <- Hd.
           rewrite has_newline_cons, Hc in Hn. cbn in Hn.
           assert (Hx : None = Some (head, tail)) by (apply IH; auto).
           discriminate.
Qed.

Lemma has_newline_app (x y : bytes) :
  has_newline (x ++ y) = has_newline x || has_newline y.
Proof. unfold has_newline. apply existsb_app. Qed.

Lemma split_newline_app (x y head tail : bytes) :
  split_newline x = Some (head, tail) ->
  split_newline (x ++ y) = Some (head, tail ++ y).
Proof.
  intros Hs. apply split_newline_some in Hs as [-> Hn].
  apply split_newline_some. split; [|exact Hn].
  rewrite <- app_assoc. reflexivity.
Qed.

(** The header loop on a connection that will close: it stops at the first
    newline of the stream, keeping what the same read delivered after it,
    or it drains the stream. *)
Lemma read_metadata_closes (fuel : nat) (acc : bytes) (w : world) :
  running w = true -> closes (conn w) = true ->
  (pending_bytes (conn w) < fuel)%nat -> has_newline acc = false ->
  exists c' k,
    closes c' = true /\
    match split_newline (acc ++ stream (conn w)) with
    | Some (head, tail) =>
        exists remaining,
          read_metadata fuel acc w =
            (Val (head, Some remaining),
             with_io c' (trace w ++ repeat (SockRecv 1024) k) w)
          /\ remaining ++ stream c' = tail
    | None =>
        read_metadata fuel acc w =
          (Val (acc ++ stream (conn w), None),
           with_io [] (trace w ++ repeat (SockRecv 1024) k) w)
    end.
Proof.
  revert acc w. induction fuel as [|fuel IH]; intros acc w Hrun Hc Hp Hacc.
  { lia. }
  cbn [read_metadata]. unfold bind at 1 3. unfold gets. cbn.
  rewrite Hrun. cbn. unfold bind at 1 2.
  destruct (recv_closes 1024 w) as (d & c1 & Hrecv & Hstream & Hc1 & Hlen
                                     & Hempty & Hpend); [lia | exact Hc |].
  rewrite Hrecv, Hstream. destruct d as [|x d].
  - destruct (Hempty eq_refl) as [_ ->]. cbn [app stream].
    rewrite app_nil_r. exists [], 1%nat. split; [reflexivity|].
    apply split_newline_none in Hacc. rewrite Hacc. reflexivity.
  - rewrite app_assoc.
    destruct (split_newline (acc ++ x :: d)) as [[head tail]|] eqn:Hs.
    + rewrite (split_newline_app _ (stream c1) _ _ Hs).
      exists c1, 1%nat. split; [exact Hc1|]. exists tail. split; reflexivity.
    + apply split_newline_none in Hs.
      specialize (Hpend ltac:(discriminate)).
      destruct (IH (acc ++ x :: d)
                  (with_io c1 (trace w ++ [SockRecv 1024]) w))
        as (c' & k & Hc' & Hres); cbn; try assumption; try lia.
      exists c', (S k). split; [exact Hc'|]. cbn in Hres.
      replace (trace w ++ repeat (SockRecv 1024) (S k))
        with ((trace w ++ [SockRecv 1024]) ++ repeat (SockRecv 1024) k)
        by (rewrite <- app_assoc; reflexivity).
      destruct (split_newline ((acc ++ x :: d) ++ stream c1))
        as [[head tail]|]; exact Hres.
Qed.

Lemma stream_app (c1 c2 : list rx) :
  closes c1 = true -> stream (c1 ++ c2) = stream c1 ++ stream c2.
Proof.
  induction c1 as [|[x xs|e] c1 IH]; cbn; intros Hc; try discriminate.
  - reflexivity.
  - rewrite IH by exact Hc. rewrite <- app_assoc. reflexivity.
Qed.

Lemma closes_app (c1 c2 : list rx) :
  closes c1 = true -> closes c2 = true -> closes (c1 ++ c2) = true.
Proof.
  induction c1 as [|[x xs|e] c1 IH]; cbn; intros Hc1 Hc2; auto.
Qed.

Lemma pending_app (c1 c2 : list rx) :
  pending_bytes (c1 ++ c2) = (pending_bytes c1 + pending_bytes c2)%nat.
Proof.
  induction c1 as [|[x xs|e] c1 IH]; cbn; try rewrite IH; lia.
Qed.

(** A read of at least one byte from a connection whose next segment is
    there: what is left of the segment stays ahead of the rest. *)
Lemma recv_segment (k : Z) (w : world) (c : byte) (cs : bytes)
  (tail : list rx) :
  0 < k -> conn w = Seg c cs :: tail ->
  exists x data pre,
    recv k w =
      (Val (x :: data), with_io (pre ++ tail) (trace w ++ [SockRecv k]) w)
    /\ c :: cs = (x :: data) ++ stream pre
    /\ closes pre = true
    /\ (pending_bytes pre < S (length cs))%nat.
Proof.
  intros Hk Hconn. unfold recv. cbn. unfold with_io, emit, set_conn. cbn.
  rewrite Hconn. cbn.
  destruct (Z.leb_spec (len (c :: cs)) k) as [Hle|Hgt]; cbn.
  - exists c, cs, []. rewrite app_nil_r. repeat split. cbn. lia.
  - unfold ztake, zdrop. fold ztake. fold zdrop.
    destruct (Z.leb_spec k 0) as [|_]; [lia|].
    exists c, (ztake (k - 1) cs), (segment (zdrop (k - 1) cs)).
    split; [reflexivity|].
    pose proof (stream_segment (zdrop (k - 1) cs) []) as Hst.
    pose proof (closes_segment (zdrop (k - 1) cs) []) as Hcl.
    pose proof (pending_segment (zdrop (k - 1) cs) []) as Hpe.
    rewrite app_nil_r in Hst, Hcl, Hpe. cbn in Hst, Hpe.
    rewrite app_nil_r in Hst. rewrite Hst, Hcl, Hpe.
    split; [cbn; rewrite ztake_zdrop; reflexivity|].
    split; [reflexivity|].
    pose proof (length_zdrop k c cs Hk) as Hl.
    unfold zdrop in Hl. fold zdrop in Hl.
    destruct (Z.leb_spec k 0); [lia|]. lia.
Qed.

(** The header loop when the next read delivers the end of the header line
    and the beginning of the payload. *)
Lemma read_metadata_newline_read (fuel : nat) (acc : bytes) (w : world)
  (x : byte) (xs : bytes) (rest : list rx) (head r : bytes) :
  running w = true ->
  conn w = Seg x xs :: rest ->
  x :: xs = head ++ NL :: r ->
  has_newline (acc ++ head) = false ->
  len (x :: xs) <= 1024 ->
  read_metadata (S fuel) acc w =
  (Val (acc ++ head, Some r), with_io rest (trace w ++ [SockRecv 1024]) w).
Proof.
  intros Hrun Hconn Hseg Hnl Hlen. cbn [read_metadata].
  unfold bind at 1. unfold gets. cbn. rewrite Hrun. cbn.
  unfold bind at 1. unfold recv, bind, act, modify, gets, ret. cbn.
  rewrite Hconn. destruct (Z.leb_spec (len (x :: xs)) 1024) as [_|]; [|lia].
  cbn [app].
  assert (Hs : split_newline (acc ++ x :: xs) = Some (acc ++ head, r)).
  { apply split_newline_some. split; [|exact Hnl].
    rewrite Hseg, <- app_assoc. reflexivity. }
  rewrite Hs. destruct (acc ++ x :: xs) eqn:Hd; [|reflexivity].
  destruct acc; discriminate.
Qed.

(** The header loop reads through segments that hold no newline. *)
Lemma read_metadata_skips_prefix (fuel : nat) (acc : bytes) (w : world)
  (segs tail : list rx) :
  running w = true ->
  conn w = segs ++ tail ->
  closes segs = true ->
  has_newline (acc ++ stream segs) = false ->
  (pending_bytes segs < fuel)%nat ->
  exists k fuel',
    (0 < fuel')%nat
    /\ read_metadata fuel acc w =
       read_metadata fuel' (acc ++ stream segs)
         (with_io tail (trace w ++ repeat (SockRecv 1024) k) w).
Proof.
  revert acc w segs.
  induction fuel as [|fuel IH]; intros acc w segs Hrun Hconn Hc Hnl Hp.
  { lia. }
  destruct segs as [|[c cs|e] segs']; cbn in Hc; try discriminate.
  - exists 0%nat, (S fuel). split; [lia|]. cbn [stream repeat].
    rewrite !app_nil_r. cbn in Hconn. rewrite <- Hconn.
    destruct w; reflexivity.
  - cbn [stream] in Hnl. cbn [pending_bytes] in Hp.
    destruct (recv_segment 1024 w c cs (segs' ++ tail) ltac:(lia) Hconn)
      as (x & d & pre & Hrecv & Hsplit & Hcp & Hpp).
    assert (Hst : acc ++ c :: cs ++ stream segs'
                  = (acc ++ x :: d) ++ stream (pre ++ segs')).
    { rewrite stream_app by exact Hcp.
      change (c :: cs ++ stream segs') with ((c :: cs) ++ stream segs').
      rewrite Hsplit, <- !app_assoc. reflexivity. }
    rewrite Hst in Hnl.
    destruct (IH (acc ++ x :: d)
                (with_io (pre ++ segs' ++ tail) (trace w ++ [SockRecv 1024])
                   w) (pre ++ segs'))
      as (k & fuel' & Hpos & Hrun'); try assumption.
    + cbn. rewrite app_assoc. reflexivity.
    + apply closes_app; assumption.
    + rewrite pending_app. lia.
    + exists (S k), fuel'. split; [exact Hpos|].
      cbn [read_metadata]. unfold bind at 1. unfold gets. cbn.
      rewrite Hrun. cbn. unfold bind at 1. rewrite Hrecv.
      rewrite has_newline_app in Hnl. apply orb_false_iff in Hnl as [Hnl _].
      apply split_newline_none in Hnl. rewrite Hnl.
      rewrite Hrun'. cbn [stream]. rewrite Hst. f_equal.
      unfold with_io. cbn. rewrite <- app_assoc. reflexivity.
Qed.

Lemma alter_append_file (m : gmap string node) path content data :
  m !! path = Some (File content) ->
  alter (append_content data) path m = <[path := File (content ++ data)]> m.
Proof.
  intros Hm. apply map_eq. intros i. destruct (decide (i = path)) as [->|Hne].
  - rewrite lookup_alter_eq, lookup_insert_eq, Hm. reflexivity.
  - rewrite lookup_alter_ne, lookup_insert_ne by congruence. reflexivity.
Qed.

Lemma written_app (path : string) (t1 t2 : list event) :
  written path (t1 ++ t2) = written path t1 ++ written path t2.
Proof.
  induction t1 as [|e t1 IH]; cbn; [reflexivity|].
  destruct e; try exact IH. destruct (String.eqb path0 path); [|exact IH].
  rewrite IH, app_assoc. reflexivity.
Qed.

Lemma sends_app (t1 t2 : list event) : sends (t1 ++ t2) = sends t1 ++ sends t2.
Proof.
  induction t1 as [|e t1 IH]; cbn; [reflexivity|].
  destruct e; try exact IH. rewrite IH. reflexivity.
Qed.

Lemma opened_app (t1 t2 : list event) :
  opened (t1 ++ t2) = opened t1 ++ opened t2.
Proof.
  induction t1 as [|e t1 IH]; cbn; [reflexivity|].
  destruct e; try exact IH. rewrite IH. reflexivity.
Qed.

Lemma completions_app (t1 t2 : list event) :
  completions (t1 ++ t2) = completions t1 ++ completions t2.
Proof.
  induction t1 as [|e t1 IH]; cbn; [reflexivity|].
  destruct e; try exact IH. rewrite IH. reflexivity.
Qed.

Lemma failures_app (t1 t2 : list event) :
  failures (t1 ++ t2) = failures t1 ++ failures t2.
Proof.
  induction t1 as [|e t1 IH]; cbn; [reflexivity|].
  destruct e as [m| | | | | | | | | | | | | | | | |]; try exact IH.
  destruct m; try exact IH. rewrite IH. reflexivity.
Qed.

Lemma io_only_quiet (t : list event) :
  forallb io_only t = true -> completions t = [] /\ failures t = [].
Proof.
  induction t as [|e t IH]; cbn; [auto|].
  intros Hall. apply andb_true_iff in Hall as [He Ht].
  destruct e; try discriminate; auto.
Qed.

Lemma recvs_quiet (bufsize : Z) (k : nat) (p : string) :
  written p (repeat (SockRecv bufsize) k) = []
  /\ sends (repeat (SockRecv bufsize) k) = []
  /\ opened (repeat (SockRecv bufsize) k) = []
  /\ completions (repeat (SockRecv bufsize) k) = []
  /\ failures (repeat (SockRecv bufsize) k) = [].
Proof. induction k as [|k IH]; cbn; auto. Qed.

Lemma world_eq (w : world) c t f :
  c = conn w -> t = trace w -> f = fs w ->
  with_io c t (set_fs (fun _ => f) w) = w.
Proof. intros -> -> ->. destruct w; reflexivity. Qed.

(** The copy loop on a connection that will close: it appends to the open
    file the next [filesize - received_bytes] bytes of the stream, or all
    of the stream if that is shorter. *)
Lemma copy_loop_closes (fuel : nat) (path : string) (filesize received : Z)
  (w : world) (content : bytes) :
  closes (conn w) = true ->
  (pending_bytes (conn w) < fuel)%nat ->
  fs w !! path = Some (File content) ->
  exists c' new,
    copy_loop fuel path filesize received w =
      (Val (received + len (ztake (filesize - received) (stream (conn w)))),
       with_io c' (trace w ++ new)
         (set_fs (fun _ =>
            <[path := File (content ++
                 ztake (filesize - received) (stream (conn w)))]> (fs w)) w))
    /\ closes c' = true
    /\ written path new = ztake (filesize - received) (stream (conn w))
    /\ sends new = [] /\ opened new = []
    /\ forallb io_only new = true.
Proof.
  revert received w content.
  induction fuel as [|fuel IH]; intros received w content Hc Hp Hfile.
  { lia. }
  cbn [copy_loop]. destruct (Z.ltb_spec received filesize) as [Hlt|Hge].
  2:{ exists (conn w), []. rewrite ztake_nonpos by lia. unfold ret.
      rewrite !app_nil_r, Z.add_0_r.
      rewrite world_eq;
        [ | reflexivity | reflexivity | apply insert_id; exact Hfile ].
      repeat split; auto. }
  set (k := Z.min BUFFER_SIZE (filesize - received)).
  assert (Hk : 0 < k <= filesize - received)
    by (unfold k, BUFFER_SIZE; lia).
  unfold bind at 1.
  destruct (recv_closes k w) as (d & c1 & Hrecv & Hstream & Hc1 & Hlen
                                  & Hempty & Hpend); [lia | exact Hc |].
  rewrite Hrecv, Hstream. destruct d as [|x d].
  - destruct (Hempty eq_refl) as [Hs ->]. rewrite Hstream in Hs.
    cbn [app] in *. rewrite Hs. cbn [ztake].
    exists [], [SockRecv k]. unfold ret, len. cbn [length].
    rewrite !app_nil_r, Z.add_0_r.
    repeat split; try reflexivity.
    unfold with_io, set_fs. cbn. rewrite insert_id; auto.
  - specialize (Hpend ltac:(discriminate)).
    rewrite ztake_app by lia.
    unfold bind at 1. unfold write, bind, act, modify. cbn.
    match goal with |- context [copy_loop fuel path filesize ?r ?w1] =>
      destruct (IH r w1 (content ++ x :: d)) as (c' & new & Hrun & Hc' & Hw
                                                & Hs & Ho & Hio)
    end.
    { exact Hc1. }
    { cbn. lia. }
    { cbn. rewrite lookup_alter_eq, Hfile. reflexivity. }
    exists c', ([SockRecv k; FsWrite path (x :: d)] ++ new).
    rewrite Hrun. cbn [conn set_fs emit with_io] in *.
    replace (filesize - (received + len (x :: d)))
      with (filesize - received - len (x :: d)) in * by lia.
    split.
    + f_equal.
      * rewrite app_comm_cons, len_app. f_equal. lia.
      * unfold with_io, set_fs, emit. cbn.
        rewrite (alter_append_file _ _ content (x :: d) Hfile).
        rewrite insert_insert_eq, <- !app_assoc. reflexivity.
    + split; [exact Hc'|]. rewrite written_app, sends_app, opened_app.
      cbn. rewrite String.eqb_refl, Hw, Hs, Ho, Hio. cbn.
      rewrite app_nil_r. auto.
Qed.

(** ** Destination paths *)

Lemma basename_no_slash (p : string) : has_slash (basename p) = false.
Proof.
  induction p as [|c rest IH]; cbn; [reflexivity|].
  destruct (Ascii.eqb c SLASH) eqn:Hc; [exact IH|].
  destruct (has_slash rest) eqn:Hr; [exact IH|].
  cbn. rewrite Hc, Hr. reflexivity.
Qed.

Lemma no_slash_relative (p : string) :
  has_slash p = false -> starts_with_slash p = false.
Proof.
  destruct p as [|c rest]; cbn; [reflexivity|].
  intros Hs. apply orb_false_iff in Hs as [Hc _]. exact Hc.
Qed.

Lemma append_cons (c : ascii) (a p : string) :
  String.append (String c a) p = String c (String.append a p).
Proof. reflexivity. Qed.

Lemma append_nil (p : string) : String.append EmptyString p = p.
Proof. reflexivity. Qed.

Lemma append_nonempty (a p : string) :
  p <> EmptyString -> String.append a p <> EmptyString.
Proof.
  intros Hp. destruct a; [rewrite append_nil; exact Hp|].
  rewrite append_cons. discriminate.
Qed.

Lemma ends_with_slash_append (a p : string) :
  p <> EmptyString ->
  ends_with_slash (String.append a p) = ends_with_slash p.
Proof.
  intros Hp. induction a as [|c a IH]; [reflexivity|].
  rewrite append_cons. cbn [ends_with_slash].
  pose proof (append_nonempty a p Hp) as Hne.
  destruct (String.append a p); [contradiction | exact IH].
Qed.

Section PathProperties.
Context {H : Host}.

Lemma DOWNLOAD_DIR_shape :
  ends_with_slash DOWNLOAD_DIR = false /\ DOWNLOAD_DIR <> EmptyString.
Proof.
  unfold DOWNLOAD_DIR, join. cbn [starts_with_slash].
  change (Ascii.eqb "d" SLASH) with false. cbv iota.
  destruct (String.eqb APP_FOLDER_PATH "" || ends_with_slash APP_FOLDER_PATH).
  - split; [rewrite ends_with_slash_append by discriminate; reflexivity|].
    apply append_nonempty. discriminate.
  - split; [rewrite ends_with_slash_append by discriminate; reflexivity|].
    apply append_nonempty. discriminate.
Qed.

(** A declared filename is stored under the downloads directory, under a
    name without path components. *)
Lemma download_path (f : string) :
  join DOWNLOAD_DIR (basename f)
  = String.append DOWNLOAD_DIR (String SLASH (basename f))
  /\ has_slash (basename f) = false.
Proof.
  split; [|apply basename_no_slash].
  unfold join. rewrite (no_slash_relative _ (basename_no_slash f)).
  destruct DOWNLOAD_DIR_shape as [-> Hne].
  destruct (String.eqb_spec DOWNLOAD_DIR ""); [contradiction|]. reflexivity.
Qed.

Lemma download_path_nonempty (f : string) :
  String.eqb (join DOWNLOAD_DIR (basename f)) "" = false.
Proof.
  destruct (download_path f) as [-> _].
  destruct (String.eqb_spec (String.append DOWNLOAD_DIR
                               (String SLASH (basename f))) ""); [|reflexivity].
  exfalso. eapply append_nonempty; [|eassumption]. discriminate.
Qed.

End PathProperties.

(** ** The inbound transfer handler *)

Arguments receive_item : simpl never.
Arguments store_payload : simpl never.
Arguments unpack_folder : simpl never.
Arguments read_metadata : simpl never.
Arguments copy_loop : simpl never.
Arguments ztake : simpl never.
Arguments zdrop : simpl never.
Arguments join : simpl never.
Arguments DOWNLOAD_DIR : simpl never.
Arguments SHARE_DIR : simpl never.

(** Closes a goal [exists R W more, m w = (R, W) /\ trace W = trace w ++ more
    /\ ...] once [m w] has been reduced to a pair. *)
Ltac trace_extension :=
  eexists _, _, _; split; [reflexivity|]; cbn; rewrite <- ?app_assoc;
  split; [reflexivity|]; cbn; repeat split; try reflexivity;
  intros; intuition discriminate.

Section ReceiveProperties.
Context {H : Host}.

(** The block that stores the payload, on a connection that will close. *)
Lemma store_payload_closes (path : string) (n : Z) (r : bytes) (w : world) :
  closes (conn w) = true ->
  names_directory path (fs w) = false ->
  exists c' new,
    store_payload path (JInt n) (Some r) w =
      (Val (len (r ++ ztake (n - len r) (stream (conn w)))),
       with_io c' (trace w ++ new)
         (set_fs (fun _ =>
            <[path := File (r ++ ztake (n - len r) (stream (conn w)))]>
              (fs w)) w))
    /\ closes c' = true
    /\ written path new = r ++ ztake (n - len r) (stream (conn w))
    /\ sends new = [] /\ opened new = [path]
    /\ forallb io_only new = true.
Proof.
  intros Hc Hnd. unfold store_payload, open_wb, number, loop_fuel, write.
  destruct r as [|x r];
    unfold bind, gets, act, modify, ret; cbn; rewrite Hnd; cbn.
  - match goal with |- context [copy_loop ?fu path n 0 ?w1] =>
      destruct (copy_loop_closes fu path n 0 w1 [])
        as (c' & new & Hrun & Hc' & Hw & Hs & Ho & Hio)
    end; cbn; try assumption; try lia.
    { apply lookup_insert_eq. }
    exists c', (FsOpenWrite path :: new). cbn in Hrun.
    rewrite Z.sub_0_r in *. rewrite Hrun. cbn.
    split.
    + f_equal. unfold with_io, set_fs, emit. cbn.
      rewrite insert_insert_eq, <- app_assoc. reflexivity.
    + rewrite Hs, Ho, Hio. auto.
  - match goal with |- context [copy_loop ?fu path n ?rc ?w1] =>
      destruct (copy_loop_closes fu path n rc w1 (x :: r))
        as (c' & new & Hrun & Hc' & Hw & Hs & Ho & Hio)
    end; cbn; try assumption; try lia.
    { rewrite lookup_alter_eq, lookup_insert_eq. reflexivity. }
    exists c', ([FsOpenWrite path; FsWrite path (x :: r)] ++ new).
    cbn in Hrun. rewrite Hrun. cbn.
    split.
    + f_equal.
      * rewrite app_comm_cons, len_app. reflexivity.
      * unfold with_io, set_fs, emit. cbn.
        rewrite insert_alter_eq, insert_insert_eq, <- !app_assoc.
        reflexivity.
    + rewrite String.eqb_refl, Hw, Hs, Ho, Hio. auto.
Qed.

(** The unpacking of a received archive adds no write, reply or newly
    opened file to the trace. *)
Lemma unpack_folder_quiet (path filename : string) (w : world) :
  exists R W more,
    unpack_folder path filename w = (R, W)
    /\ trace W = trace w ++ more
    /\ (forall p, written p more = []) /\ sends more = []
    /\ opened more = []
    /\ completions more = [] /\ failures more = []
    /\ filepath W = filepath w
    /\ active_transfers W = active_transfers w.
Proof.
  unfold unpack_folder, try_finally, try_except, shutil_unpack_archive,
    os_path_exists, os_remove, log, act, bind, gets, modify, ret, raise. cbn.
  destruct (unpack_archive path DOWNLOAD_DIR (fs w)) as [f'|]; cbn.
  - destruct (f' !! path) as [[content|]|] eqn:Hp; cbn; rewrite ?Hp; cbn;
      trace_extension.
  - destruct (fs w !! path) as [[content|]|] eqn:Hp; cbn; rewrite ?Hp; cbn;
      trace_extension.
Qed.

(** From the accepted request on, on a connection that will close: the
    reply is [ACCEPT], the file at the destination path receives the bytes
    kept from the header read followed by the stream up to the declared
    size, and the transfer completes exactly when that makes the declared
    size. *)
Lemma receive_item_closes (md : list (string * json)) (f : string) (n : Z)
  (r : bytes) (w : world) :
  closes (conn w) = true ->
  dict_get "filename" md = Some (JStr f) ->
  dict_get "filesize" md = Some (JInt n) ->
  names_directory (join DOWNLOAD_DIR (basename f)) (fs w) = false ->
  exists R W new,
    receive_item (JDict md) (Some r) w = (R, W)
    /\ trace W = trace w ++ new
    /\ filepath W = join DOWNLOAD_DIR (basename f)
    /\ active_transfers W = active_transfers w
    /\ written (join DOWNLOAD_DIR (basename f)) new
       = r ++ ztake (n - len r) (stream (conn w))
    /\ sends new = [Raw (b "ACCEPT" ++ [NL])]
    /\ opened new = [join DOWNLOAD_DIR (basename f)]
    /\ failures new = []
    /\ (len (r ++ ztake (n - len r) (stream (conn w))) <> n ->
        R = Exc TransferIncomplete
        /\ fs W = <[join DOWNLOAD_DIR (basename f) :=
                     File (r ++ ztake (n - len r) (stream (conn w)))]> (fs w)
        /\ completions new = [])
    /\ (len (r ++ ztake (n - len r) (stream (conn w))) = n ->
        completions new = [basename f]
        /\ In (Log (ReceivedSuccessfully (basename f))) new
        /\ (eq_str (get_default "type" (JStr "file") md) "directory" = false ->
            R = Val tt
            /\ fs W = <[join DOWNLOAD_DIR (basename f) :=
                        File (r ++ ztake (n - len r) (stream (conn w)))]>
                        (fs w))).
Proof.
  intros Hc Hf Hn Hnd. unfold receive_item.
  set (path := join DOWNLOAD_DIR (basename f)) in *.
  set (data := r ++ ztake (n - len r) (stream (conn w))).
  unfold sendall, json_index, os_path_basename, json_get_default, number.
  unfold bind at 1 2 3 4 5 6 7. unfold act at 1 2. unfold modify at 1 2 3.
  cbn. rewrite Hf. unfold ret at 1 2. cbn. rewrite Hn. unfold ret at 1 2.
  cbn. fold path. unfold bind at 1.
  match goal with |- context [store_payload path (JInt n) (Some r) ?w0] =>
    destruct (store_payload_closes path n r w0)
      as (c' & new & Hrun & Hc' & Hw & Hs & Ho & Hio)
  end; [exact Hc | exact Hnd |].
  cbn [conn fs trace emit set_filepath] in Hrun, Hw.
  rewrite Hrun. fold data in Hw |- *.
  unfold bind at 1. cbn [as_number].
  destruct (io_only_quiet new Hio) as [Hcm Hfl].
  destruct (Z.eqb_spec (len data) n) as [Heq|Hne].
  - destruct (eq_str (get_default "type" (JStr "file") md) "directory")
      eqn:Hdir.
    + unfold bind at 1 2. unfold log at 1, act at 1 2, modify at 1 2.
      match goal with |- context [unpack_folder path (basename f) ?w1] =>
        destruct (unpack_folder_quiet path (basename f) w1)
          as (R & W & more & Hu & Ht & Hmw & Hms & Hmo & Hmc & Hmf & Hfp
              & Hat)
      end.
      exists R, W,
        ([SockSend (Raw (b "ACCEPT" ++ [NL])); ReceiveActive true] ++ new
         ++ [ReceiveCompleted (basename f);
             Log (ReceivedSuccessfully (basename f))] ++ more).
      split; [exact Hu|]. rewrite Ht, Hfp, Hat. cbn.
      rewrite ?written_app, ?sends_app, ?opened_app, ?completions_app,
        ?failures_app. cbn.
      rewrite ?Hw, ?Hs, ?Ho, ?Hmw, ?Hms, ?Hmo, ?Hcm, ?Hfl, ?Hmc, ?Hmf. cbn.
      rewrite ?app_nil_r, <- ?app_assoc. cbn.
      repeat split; try reflexivity; try contradiction; try discriminate.
      right. right. apply in_or_app. right. right. left. reflexivity.
    + unfold bind, act, log, modify, ret. cbn.
      eexists (Val tt), _,
        ([SockSend (Raw (b "ACCEPT" ++ [NL])); ReceiveActive true] ++ new
         ++ [ReceiveCompleted (basename f);
             Log (ReceivedSuccessfully (basename f))]).
      split; [reflexivity|]. cbn.
      rewrite ?written_app, ?sends_app, ?opened_app, ?completions_app,
        ?failures_app. cbn.
      rewrite ?Hw, ?Hs, ?Ho, ?Hcm, ?Hfl. cbn.
      rewrite ?app_nil_r, <- ?app_assoc. cbn.
      repeat split; try reflexivity; try contradiction; try discriminate.
      right. right. apply in_or_app. right. right. left. reflexivity.
  - unfold raise.
    eexists (Exc TransferIncomplete), _,
      ([SockSend (Raw (b "ACCEPT" ++ [NL])); ReceiveActive true] ++ new).
    split; [reflexivity|]. cbn.
    rewrite ?Hw, ?Hs, ?Ho, ?Hcm, ?Hfl. cbn. rewrite <- ?app_assoc. cbn.
    repeat split; try reflexivity; try contradiction; try discriminate.
Qed.

End ReceiveProperties.

(** From here on [cbn] runs a computation applied to a world. *)
Arguments bind {A B} m k w /.
Arguments ret {A} a w /.
Arguments raise {A} e w /.
Arguments return_ {A} w /.
Arguments gets {A} f w /.
Arguments modify f w /.
Arguments act e w /.
Arguments log m w /.
Arguments sendall data w /.
Arguments try_except {A} body handler w /.
Arguments try_finally {A} body final w /.
Arguments call body w /.
Arguments receive_request : simpl never.
Arguments receive_failed : simpl never.
Arguments receive_cleanup : simpl never.

Section HandlerProperties.
Context {H : Host}.

Lemma dict_get_has (key : string) (d : list (string * json)) (v : json) :
  dict_get key d = Some v -> dict_has key d = true.
Proof. intros Hg. unfold dict_has. rewrite Hg. reflexivity. Qed.

(** A header that decodes to a transfer request the user accepts leads to
    the reception of the item. *)
Lemma receive_request_accepts (addr : string) (now : Z) (cb : json -> bool)
  (header : bytes) (r : option bytes) (text : string)
  (md : list (string * json)) (w : world) :
  header <> [] ->
  decode_utf8 header = Some text ->
  json_loads text = Some (JDict md) ->
  eq_str (get "type" md) "qr_handshake" = false ->
  dict_has "filename" md = true ->
  dict_has "filesize" md = true ->
  cb (JDict md) = true ->
  receive_request addr now cb header r w =
  receive_item (JDict md) r
    (emit (TransferRequest (JDict md))
       (emit (Log (ReceivedMetadata (JDict md))) w)).
Proof.
  intros Hne Hdec Hload Hqr Hfn Hfs Hcb. unfold receive_request.
  destruct header as [|x header]; [contradiction|].
  unfold decode, loads, json_get, json_contains. cbn.
  rewrite Hdec. cbn. rewrite Hload. cbn. rewrite Hqr. cbn.
  rewrite Hfn, Hfs. cbn. rewrite Hcb. cbn. reflexivity.
Qed.

(** The [except] clause logs the failure and removes what was stored at
    [filepath]; it writes no bytes and sends no reply. *)
Lemma receive_failed_spec (e : exn) (w : world) :
  exists W more,
    receive_failed e w = (Val tt, W)
    /\ trace W = trace w ++ Log (ReceiveFailed e) :: more
    /\ (forall p, written p more = []) /\ sends more = []
    /\ opened more = []
    /\ completions more = [] /\ failures more = []
    /\ active_transfers W = active_transfers w
    /\ (forall content,
          String.eqb (filepath w) "" = false ->
          fs w !! filepath w = Some (File content) ->
          fs W = delete (filepath w) (fs w))
    /\ (String.eqb (filepath w) "" = true -> fs W = fs w).
Proof.
  unfold receive_failed, os_path_exists, os_remove. cbn.
  destruct (String.eqb (filepath w) "") eqn:Hp; cbn.
  { eexists _, _. split; [reflexivity|]. cbn.
    split; [reflexivity|]. cbn. repeat split; auto. discriminate. }
  destruct (fs w !! filepath w) as [[content|]|] eqn:Hl; cbn; rewrite ?Hl;
    cbn; eexists _, _; (split; [reflexivity|]); cbn;
    rewrite <- ?app_assoc; (split; [reflexivity|]); cbn;
    repeat split; auto; try discriminate; intros; intuition discriminate.
Qed.

(** The [finally] clause removes the registered entry. *)
Lemma receive_cleanup_spec (transfer_id : string) (w : world)
  (entry : transfer_entry) :
  active_transfers w !! transfer_id = Some entry ->
  receive_cleanup transfer_id w =
  (Val tt,
   emit (ReceiveActive false)
     (emit (TransferRemoved transfer_id)
        (set_active (delete transfer_id) w))).
Proof.
  intros He. unfold receive_cleanup, act, bind, gets, modify, ret. cbn.
  rewrite He. reflexivity.
Qed.

(** An accepted request on a connection that will close, from the result
    of the header loop. *)
Lemma handle_item_receive_accepted (transfer_id addr : string) (now : Z)
  (cb : json -> bool) (w : world) (header r : bytes) (c1 : list rx)
  (k : nat) (text : string) (md : list (string * json)) (f : string)
  (n : Z) :
  read_metadata (S (pending_bytes (conn w))) []
    (registered transfer_id addr w) =
    (Val (header, Some r),
     with_io c1
       (trace (registered transfer_id addr w) ++ repeat (SockRecv 1024) k)
       (registered transfer_id addr w)) ->
  closes c1 = true ->
  header <> [] ->
  decode_utf8 header = Some text ->
  json_loads text = Some (JDict md) ->
  eq_str (get "type" md) "qr_handshake" = false ->
  dict_get "filename" md = Some (JStr f) ->
  dict_get "filesize" md = Some (JInt n) ->
  cb (JDict md) = true ->
  names_directory (join DOWNLOAD_DIR (basename f)) (fs w) = false ->
  exists R W new,
    handle_item_receive transfer_id addr now cb w = (R, W)
    /\ R = Val tt
    /\ trace W = trace w ++ new
    /\ active_transfers W = delete transfer_id (active_transfers w)
    /\ written (join DOWNLOAD_DIR (basename f)) new
       = r ++ ztake (n - len r) (stream c1)
    /\ sends new = [Raw (b "ACCEPT" ++ [NL])]
    /\ opened new = [join DOWNLOAD_DIR (basename f)]
    /\ In (TransferRequest (JDict md)) new
    /\ (len (r ++ ztake (n - len r) (stream c1)) <> n ->
        completions new = [] /\ failures new = [TransferIncomplete]
        /\ fs W = delete (join DOWNLOAD_DIR (basename f)) (fs w))
    /\ (len (r ++ ztake (n - len r) (stream c1)) = n ->
        completions new = [basename f]
        /\ In (Log (ReceivedSuccessfully (basename f))) new
        /\ (eq_str (get_default "type" (JStr "file") md) "directory" = false ->
            failures new = []
            /\ fs W = <[join DOWNLOAD_DIR (basename f) :=
                        File (r ++ ztake (n - len r) (stream c1))]> (fs w))).
Proof.
  intros Hread Hc1 Hne Hdec Hload Hqr Hf Hn Hcb Hnd.
  set (path := join DOWNLOAD_DIR (basename f)) in *.
  set (data := r ++ ztake (n - len r) (stream c1)).
  unfold handle_item_receive, receive_session, loop_fuel. cbn.
  fold (registered transfer_id addr w). rewrite Hread. cbn.
  rewrite (receive_request_accepts addr now cb header (Some r) text md)
    by eauto using dict_get_has.
  match goal with |- context [receive_item (JDict md) (Some r) ?w2] =>
    destruct (receive_item_closes md f n r w2 Hc1 Hf Hn Hnd)
      as (R & W & new & Hrun & Ht & Hfp & Hat & Hw & Hs & Ho & Hfl & Hbad
          & Hgood)
  end.
  fold path in Hrun, Hfp, Hw, Ho, Hbad, Hgood.
  cbn [conn with_io emit fs] in Hw, Hbad, Hgood. fold data in Hw, Hbad, Hgood.
  rewrite Hrun. cbn [trace active_transfers emit with_io registered
                       set_active set_filepath] in Ht, Hat.
  destruct (recvs_quiet 1024 k path) as (Hrw & Hrs & Hro & Hrc & Hrf).
  assert (Hentry : forall W', active_transfers W' = active_transfers W ->
            active_transfers W' !! transfer_id
            = Some {| cancel := false; socket := addr |}).
  { intros W' ->. rewrite Hat. apply lookup_insert_eq. }
  destruct (Z.eq_dec (len data) n) as [Heq|Hneq].
  - destruct (Hgood Heq) as (Hcm & Hlog & Hfile).
    destruct R as [[]| |e].
    + rewrite (receive_cleanup_spec transfer_id W _ (Hentry W eq_refl)).
      eexists _, _, _. split; [reflexivity|]. cbn.
      rewrite Ht, Hat, delete_insert_eq, <- !app_assoc.
      split; [reflexivity|]. split; [reflexivity|].
      split; [reflexivity|]. cbn.
      rewrite ?written_app, ?sends_app, ?opened_app, ?completions_app,
        ?failures_app. cbn.
      rewrite ?written_app, ?sends_app, ?opened_app, ?completions_app,
        ?failures_app. cbn.
      rewrite Hrw, Hrs, Hro, Hrc, Hrf, Hw, Hs, Ho, Hfl, Hcm. cbn.
      rewrite ?app_nil_r.
      repeat split; try reflexivity; try contradiction;
        try (right; apply in_or_app; right; right; left; reflexivity).
      * right. apply in_or_app. right. right. right.
        apply in_or_app. left. exact Hlog.
      * apply Hfile. assumption.
    + rewrite (receive_cleanup_spec transfer_id W _ (Hentry W eq_refl)).
      eexists _, _, _. split; [reflexivity|]. cbn.
      rewrite Ht, Hat, delete_insert_eq, <- !app_assoc.
      split; [reflexivity|]. split; [reflexivity|].
      split; [reflexivity|]. cbn.
      rewrite ?written_app, ?sends_app, ?opened_app, ?completions_app,
        ?failures_app. cbn.
      rewrite ?written_app, ?sends_app, ?opened_app, ?completions_app,
        ?failures_app. cbn.
      rewrite Hrw, Hrs, Hro, Hrc, Hrf, Hw, Hs, Ho, Hfl, Hcm. cbn.
      rewrite ?app_nil_r.
      repeat split; try reflexivity; try contradiction;
        try (right; apply in_or_app; right; right; left; reflexivity).
      * right. apply in_or_app. right. right. right.
        apply in_or_app. left. exact Hlog.
      * apply Hfile. assumption.
    + destruct (receive_failed_spec e W)
        as (W' & more & Hfail & Ht' & Hmw & Hms & Hmo & Hmc & Hmf & Hat'
            & _ & _).
      rewrite Hfail.
      rewrite (receive_cleanup_spec transfer_id W' _ (Hentry W' Hat')).
      eexists _, _, _. split; [reflexivity|]. cbn.
      rewrite Ht', Ht, Hat', Hat, delete_insert_eq, <- !app_assoc.
      split; [reflexivity|]. split; [reflexivity|].
      split; [reflexivity|]. cbn.
      rewrite ?written_app, ?sends_app, ?opened_app, ?completions_app,
        ?failures_app. cbn.
      rewrite ?written_app, ?sends_app, ?opened_app, ?completions_app,
        ?failures_app. cbn.
      rewrite ?written_app, ?sends_app, ?opened_app, ?completions_app,
        ?failures_app. cbn.
      rewrite Hrw, Hrs, Hro, Hrc, Hw, Hs, Ho, Hcm, Hmw, Hms, Hmo, Hmc. cbn.
      rewrite ?app_nil_r.
      repeat split; try reflexivity; try contradiction;
        try (right; apply in_or_app; right; right; left; reflexivity).
      * right. apply in_or_app. right. right. right.
        apply in_or_app. left. exact Hlog.
      * destruct (Hfile ltac:(assumption)) as [? _]. discriminate.
      * destruct (Hfile ltac:(assumption)) as [? _]. discriminate.
  - destruct (Hbad Hneq) as (-> & Hfile & Hcm).
    destruct (receive_failed_spec TransferIncomplete W)
      as (W' & more & Hfail & Ht' & Hmw & Hms & Hmo & Hmc & Hmf & Hat'
          & Hrm & _).
    rewrite Hfail.
    rewrite (receive_cleanup_spec transfer_id W' _ (Hentry W' Hat')).
    eexists _, _, _. split; [reflexivity|]. cbn.
    rewrite Ht', Ht, Hat', Hat, delete_insert_eq, <- !app_assoc.
    split; [reflexivity|]. split; [reflexivity|].
    split; [reflexivity|]. cbn.
    rewrite ?written_app, ?sends_app, ?opened_app, ?completions_app,
      ?failures_app. cbn.
    rewrite ?written_app, ?sends_app, ?opened_app, ?completions_app,
      ?failures_app. cbn.
    rewrite ?written_app, ?sends_app, ?opened_app, ?completions_app,
      ?failures_app. cbn.
    rewrite Hrw, Hrs, Hro, Hrc, Hrf, Hw, Hs, Ho, Hcm, Hfl, Hmw, Hms, Hmo,
      Hmc, Hmf. cbn.
    rewrite ?app_nil_r.
    repeat split; try reflexivity; try contradiction;
      try (right; apply in_or_app; right; right; left; reflexivity).
    rewrite (Hrm data).
    + rewrite Hfp, Hfile. cbn. apply delete_insert_eq.
    + rewrite Hfp. apply download_path_nonempty.
    + rewrite Hfp, Hfile. apply lookup_insert_eq.
Qed.

(** A header that is empty, is not UTF-8 or is not JSON ends the request
    without a reply and without a file. *)
Lemma receive_request_unusable (addr : string) (now : Z) (cb : json -> bool)
  (header : bytes) (rem : option bytes) (w : world) :
  header = [] \/ decode_utf8 header = None
  \/ (exists text, decode_utf8 header = Some text /\ json_loads text = None) ->
  exists R W new,
    receive_request addr now cb header rem w = (R, W)
    /\ (forall a, R <> Val a)
    /\ trace W = trace w ++ new /\ sends new = [] /\ opened new = []
    /\ fs W = fs w /\ filepath W = filepath w
    /\ active_transfers W = active_transfers w.
Proof.
  intros Hbad. unfold receive_request, decode, loads.
  destruct header as [|x header]; cbn.
  { eexists _, _, [_]. repeat split; try reflexivity. discriminate. }
  destruct Hbad as [Hbad|[Hdec|(text & Hdec & Hload)]]; [discriminate| |].
  - rewrite Hdec. cbn. eexists _, _, []. rewrite app_nil_r.
    repeat split; try reflexivity. discriminate.
  - rewrite Hdec. cbn. rewrite Hload. cbn. eexists _, _, [_].
    repeat split; try reflexivity. discriminate.
Qed.

(** The part of C3 that holds: on a connection that closes, a header line
    that is empty or does not decode as UTF-8 JSON (the bytes before the
    first newline, or all the bytes delivered when there is no newline) is
    abandoned with no reply, no file opened and the file system as it
    was. *)
Lemma unusable_header_abandoned (transfer_id addr : string) (now : Z)
  (cb : json -> bool) (w : world) (header : bytes) :
  running w = true ->
  closes (conn w) = true ->
  header = match split_newline (stream (conn w)) with
           | Some (head, _) => head
           | None => stream (conn w)
           end ->
  header = [] \/ decode_utf8 header = None
  \/ (exists text, decode_utf8 header = Some text /\ json_loads text = None) ->
  exists new,
    trace (exec (handle_item_receive transfer_id addr now cb) w)
      = trace w ++ new
    /\ sends new = [] /\ opened new = []
    /\ fs (exec (handle_item_receive transfer_id addr now cb) w) = fs w.
Proof.
  intros Hrun Hc Hheader Hbad.
  destruct (read_metadata_closes (S (pending_bytes (conn w))) []
              (registered transfer_id addr w))
    as (c1 & k & Hc1 & Hres); cbn; try assumption; try lia; try reflexivity.
  cbn [conn registered emit set_active set_filepath app] in Hres.
  assert (Hread : exists rem c',
            read_metadata (S (pending_bytes (conn w))) []
              (registered transfer_id addr w) =
            (Val (header, rem),
             with_io c'
               (trace (registered transfer_id addr w)
                ++ repeat (SockRecv 1024) k)
               (registered transfer_id addr w))).
  { destruct (split_newline (stream (conn w))) as [[head tail]|].
    - destruct Hres as (r & Hread & _). subst header. eauto.
    - subst header. eauto. }
  destruct Hread as (rem & c' & Hread).
  unfold exec, handle_item_receive, receive_session, loop_fuel. cbn.
  fold (registered transfer_id addr w). rewrite Hread. cbn.
  match goal with |- context [receive_request addr now cb header rem ?w2] =>
    destruct (receive_request_unusable addr now cb header rem w2 Hbad)
      as (R & W & new & Hreq & HR & Ht & Hs & Ho & Hfs & Hfp & Hat)
  end.
  rewrite Hreq.
  cbn [trace fs filepath active_transfers with_io registered emit set_active
         set_filepath] in Ht, Hfs, Hfp, Hat.
  destruct (recvs_quiet 1024 k "") as (_ & Hrs & Hro & _).
  assert (Hentry : forall W', active_transfers W' = active_transfers W ->
            active_transfers W' !! transfer_id
            = Some {| cancel := false; socket := addr |}).
  { intros W' ->. rewrite Hat. apply lookup_insert_eq. }
  destruct R as [a| |e].
  - exfalso. apply (HR a). reflexivity.
  - rewrite (receive_cleanup_spec transfer_id W _ (Hentry W eq_refl)).
    eexists. cbn. rewrite Ht, Hfs, <- !app_assoc.
    split; [reflexivity|]. cbn. rewrite ?sends_app, ?opened_app. cbn.
    rewrite ?sends_app, ?opened_app, Hrs, Hro, Hs, Ho. auto.
  - destruct (receive_failed_spec e W)
      as (W' & more & Hfail & Ht' & _ & Hms & Hmo & _ & _ & Hat' & _ & Hkeep).
    rewrite Hfail.
    rewrite (receive_cleanup_spec transfer_id W' _ (Hentry W' Hat')).
    eexists. cbn. rewrite Ht', Ht, Hkeep, Hfs, <- ?app_assoc.
    + split; [reflexivity|]. cbn. rewrite ?sends_app, ?opened_app. cbn.
      rewrite ?sends_app, ?opened_app. cbn.
      rewrite ?sends_app, ?opened_app, Hrs, Hro, Hs, Ho, Hms, Hmo. auto.
    + rewrite Hfp. reflexivity.
Qed.

(** C1 (as amended).  An accepted transfer whose header declares the
    filename [f] and the size [n], and whose destination can be opened as a
    file, is stored at the downloads directory joined with the base name of
    [f], a name without path components.  When the connection delivers
    exactly [n] payload bytes the receiver writes exactly those bytes there
    and reports completion; when it closes after fewer, the receiver removes
    the partial file and reports the failure [TransferIncomplete]. *)
Theorem accepted_transfer_stored_or_discarded
  (transfer_id addr : string) (now : Z) (cb : json -> bool) (w : world)
  (header payload : bytes) (text : string) (md : list (string * json))
  (f : string) (n : Z) :
  running w = true ->
  closes (conn w) = true ->
  stream (conn w) = header ++ NL :: payload ->
  has_newline header = false ->
  header <> [] ->
  decode_utf8 header = Some text ->
  json_loads text = Some (JDict md) ->
  eq_str (get "type" md) "qr_handshake" = false ->
  dict_get "filename" md = Some (JStr f) ->
  dict_get "filesize" md = Some (JInt n) ->
  cb (JDict md) = true ->
  names_directory (join DOWNLOAD_DIR (basename f)) (fs w) = false ->
  join DOWNLOAD_DIR (basename f)
    = String.append DOWNLOAD_DIR (String SLASH (basename f))
  /\ has_slash (basename f) = false
  /\ exists new,
      outcome (handle_item_receive transfer_id addr now cb) w = Val tt
      /\ trace (exec (handle_item_receive transfer_id addr now cb) w)
         = trace w ++ new
      /\ sends new = [Raw (b "ACCEPT" ++ [NL])]
      /\ opened new = [join DOWNLOAD_DIR (basename f)]
      /\ (len payload = n ->
          written (join DOWNLOAD_DIR (basename f)) new = payload
          /\ completions new = [basename f]
          /\ In (Log (ReceivedSuccessfully (basename f))) new
          /\ (eq_str (get_default "type" (JStr "file") md) "directory"
               = false ->
              failures new = []
              /\ fs (exec (handle_item_receive transfer_id addr now cb) w)
                 = <[join DOWNLOAD_DIR (basename f) := File payload]> (fs w)))
      /\ (len payload < n ->
          written (join DOWNLOAD_DIR (basename f)) new = payload
          /\ completions new = []
          /\ failures new = [TransferIncomplete]
          /\ fs (exec (handle_item_receive transfer_id addr now cb) w)
                !! join DOWNLOAD_DIR (basename f) = None).
Proof.
  intros Hrun Hc Hstream Hnl Hne Hdec Hload Hqr Hf Hn Hcb Hnd.
  destruct (download_path f) as [Hpath Hslash].
  split; [exact Hpath|]. split; [exact Hslash|].
  destruct (read_metadata_closes (S (pending_bytes (conn w))) []
              (registered transfer_id addr w))
    as (c1 & k & Hc1 & Hres); cbn; try assumption; try lia; try reflexivity.
  cbn [conn registered emit set_active set_filepath app] in Hres.
  rewrite Hstream in Hres.
  assert (Hs : split_newline (header ++ NL :: payload) = Some (header, payload))
    by (apply split_newline_some; auto).
  rewrite Hs in Hres. destruct Hres as (r & Hread & Hrest).
  destruct (handle_item_receive_accepted transfer_id addr now cb w header r
              c1 k text md f n)
    as (R & W & new & Hrun' & -> & Ht & Hat & Hw & Hsd & Ho & _ & Hbad
        & Hgood);
    try assumption.
  unfold exec, outcome. rewrite Hrun'. cbn [fst snd].
  exists new. split; [reflexivity|]. split; [exact Ht|].
  split; [exact Hsd|]. split; [exact Ho|].
  assert (Hdata : len payload <= n ->
            r ++ ztake (n - len r) (stream c1) = payload).
  { intros Hle. rewrite <- Hrest in *. rewrite len_app in Hle.
    rewrite ztake_all by lia. reflexivity. }
  split.
  - intros Hlen. rewrite Hdata in * by lia.
    destruct (Hgood Hlen) as (Hcm & Hlog & Hfile).
    split; [exact Hw|]. split; [exact Hcm|]. split; [exact Hlog|].
    exact Hfile.
  - intros Hlen. rewrite Hdata in * by lia.
    destruct Hbad as (Hcm & Hfl & Hfs); [lia|].
    split; [exact Hw|]. split; [exact Hcm|]. split; [exact Hfl|].
    rewrite Hfs. apply lookup_delete_eq.
Qed.

(** C2.  When a read delivers the end of the header line together with
    the beginning of the payload, the receiver takes the bytes before the
    first newline as the header and writes every byte after it to the
    destination file, ahead of what it reads next, counting them in the
    received total: the file receives those bytes followed by the stream up
    to the declared size, and the transfer completes exactly when that
    makes the declared size. *)
Theorem header_read_keeps_payload_start
  (transfer_id addr : string) (now : Z) (cb : json -> bool) (w : world)
  (before : list rx) (x : byte) (xs : bytes) (rest : list rx)
  (head r : bytes) (text : string) (md : list (string * json))
  (f : string) (n : Z) :
  running w = true ->
  conn w = before ++ Seg x xs :: rest ->
  closes before = true ->
  x :: xs = head ++ NL :: r ->
  has_newline (stream before ++ head) = false ->
  len (x :: xs) <= 1024 ->
  closes rest = true ->
  stream before ++ head <> [] ->
  decode_utf8 (stream before ++ head) = Some text ->
  json_loads text = Some (JDict md) ->
  eq_str (get "type" md) "qr_handshake" = false ->
  dict_get "filename" md = Some (JStr f) ->
  dict_get "filesize" md = Some (JInt n) ->
  cb (JDict md) = true ->
  names_directory (join DOWNLOAD_DIR (basename f)) (fs w) = false ->
  exists new,
    trace (exec (handle_item_receive transfer_id addr now cb) w)
      = trace w ++ new
    /\ In (TransferRequest (JDict md)) new
    /\ written (join DOWNLOAD_DIR (basename f)) new
       = r ++ ztake (n - len r) (stream rest)
    /\ (len r + len (ztake (n - len r) (stream rest)) = n ->
        completions new = [basename f])
    /\ (len r + len (ztake (n - len r) (stream rest)) <> n ->
        completions new = [] /\ failures new = [TransferIncomplete]).
Proof.
  intros Hrun Hconn Hcb Hseg Hnl Hlen Hc Hne Hdec Hload Hqr Hf Hn Hacc Hnd.
  assert (Hnb : has_newline ([] ++ stream before) = false).
  { rewrite has_newline_app in Hnl. apply orb_false_iff in Hnl as [Hnl _].
    exact Hnl. }
  destruct (read_metadata_skips_prefix (S (pending_bytes (conn w))) []
              (registered transfer_id addr w) before (Seg x xs :: rest)
              Hrun Hconn Hcb Hnb)
    as (k & fuel' & Hpos & Hskip).
  { rewrite Hconn, pending_app. lia. }
  destruct fuel' as [|fuel']; [lia|].
  rewrite (read_metadata_newline_read fuel' _ _ x xs rest head r) in Hskip;
    try assumption; try reflexivity.
  cbn [app] in Hskip.
  assert (Hread : read_metadata (S (pending_bytes (conn w))) []
                    (registered transfer_id addr w) =
                  (Val (stream before ++ head, Some r),
                   with_io rest
                     (trace (registered transfer_id addr w)
                      ++ repeat (SockRecv 1024) (k + 1))
                     (registered transfer_id addr w))).
  { rewrite Hskip, repeat_app. cbn. rewrite <- app_assoc. reflexivity. }
  destruct (handle_item_receive_accepted transfer_id addr now cb w
              (stream before ++ head) r rest (k + 1) text md f n)
    as (R & W & new & Hrun' & -> & Ht & Hat & Hw & Hsd & Ho & Hreq & Hbad
        & Hgood);
    try assumption.
  unfold exec. rewrite Hrun'. cbn [snd].
  exists new. split; [exact Ht|]. rewrite <- len_app.
  split; [exact Hreq|]. split; [exact Hw|]. split.
  - intros Heq. apply Hgood. exact Heq.
  - intros Hneq. destruct (Hbad Hneq) as (? & ? & _). auto.
Qed.

End HandlerProperties.

(** ** The table of active transfers *)

Lemma table_events_app (t1 t2 : list event) :
  table_events (t1 ++ t2) = table_events t1 ++ table_events t2.
Proof.
  induction t1 as [|e t1 IH]; cbn; [reflexivity|].
  destruct e; try exact IH; rewrite IH; reflexivity.
Qed.

Lemma table_untouched_refl (w : world) : table_untouched w w.
Proof.
  split; [reflexivity|]. exists []. rewrite app_nil_r. split; reflexivity.
Qed.

Lemma table_untouched_trans (w1 w2 w3 : world) :
  table_untouched w1 w2 -> table_untouched w2 w3 -> table_untouched w1 w3.
Proof.
  intros [Ha (t & Ht & He)] [Ha' (t' & Ht' & He')]. split; [congruence|].
  exists (t ++ t'). rewrite Ht', Ht, <- app_assoc, table_events_app, He, He'.
  split; reflexivity.
Qed.

(** Closes [table_untouched w w'] when [w'] is [w] with its trace extended
    by explicit events. *)
Ltac untouched :=
  split; [reflexivity|];
  first [ exists []; split; [symmetry; apply app_nil_r | reflexivity]
        | eexists; split; [rewrite <- ?app_assoc; reflexivity | reflexivity] ].

Section TableProperties.
Context {H : Host}.

Lemma keeps_bind {A B} (m : M A) (k : A -> M B) :
  keeps_table m -> (forall a, keeps_table (k a)) -> keeps_table (bind m k).
Proof.
  intros Hm Hk w. specialize (Hm w). unfold exec, bind in *.
  destruct (m w) as [[a| |e] w1]; cbn [fst snd] in *; try exact Hm.
  eapply table_untouched_trans; [exact Hm | apply Hk].
Qed.

Lemma keeps_try_except {A} (m : M A) (h : exn -> M A) :
  keeps_table m -> (forall e, keeps_table (h e)) ->
  keeps_table (try_except m h).
Proof.
  intros Hm Hh w. specialize (Hm w). unfold exec, try_except in *.
  destruct (m w) as [[a| |e] w1]; cbn [fst snd] in *; try exact Hm.
  eapply table_untouched_trans; [exact Hm | apply Hh].
Qed.

Lemma keeps_try_finally {A} (m : M A) (f : M unit) :
  keeps_table m -> keeps_table f -> keeps_table (try_finally m f).
Proof.
  intros Hm Hf w. specialize (Hm w). unfold exec, try_finally in *.
  destruct (m w) as [r w1]. cbn [fst snd] in *. specialize (Hf w1).
  unfold exec in Hf.
  destruct (f w1) as [[[]| |e] w2]; cbn [fst snd] in *;
    (eapply table_untouched_trans; [exact Hm | exact Hf]).
Qed.

Lemma keeps_ret {A} (a : A) : keeps_table (ret a).
Proof. intros w. apply table_untouched_refl. Qed.

Lemma keeps_raise {A} (e : exn) : keeps_table (@raise A e).
Proof. intros w. apply table_untouched_refl. Qed.

Lemma keeps_return {A} : keeps_table (@return_ A).
Proof. intros w. apply table_untouched_refl. Qed.

Lemma keeps_gets {A} (f : world -> A) : keeps_table (gets f).
Proof. intros w. apply table_untouched_refl. Qed.

Lemma keeps_log (m : log_msg) : keeps_table (log m).
Proof. intros w. unfold exec. cbn. untouched. Qed.

Lemma keeps_sendall (data : wire) : keeps_table (sendall data).
Proof. intros w. unfold exec. cbn. untouched. Qed.

Lemma keeps_set_peers f : keeps_table (modify (set_peers f)).
Proof. intros w. unfold exec. cbn. untouched. Qed.

Lemma keeps_set_filepath p : keeps_table (modify (set_filepath p)).
Proof. intros w. unfold exec. cbn. untouched. Qed.

Lemma keeps_recv (bufsize : Z) : keeps_table (recv bufsize).
Proof.
  intros w. unfold exec, recv. cbn.
  destruct (conn w) as [|[c cs|e] rest]; cbn; [untouched | | untouched].
  destruct (len (c :: cs) <=? bufsize); cbn; untouched.
Qed.

Lemma keeps_open_wb (path : string) : keeps_table (open_wb path).
Proof.
  intros w. unfold exec, open_wb. cbn.
  destruct (names_directory path (fs w)); cbn; untouched.
Qed.

Lemma keeps_write (path : string) (data : bytes) :
  keeps_table (write path data).
Proof. intros w. unfold exec, write. cbn. untouched. Qed.

Lemma keeps_os_path_exists (path : string) :
  keeps_table (os_path_exists path).
Proof. intros w. apply table_untouched_refl. Qed.

Lemma keeps_os_remove (path : string) : keeps_table (os_remove path).
Proof.
  intros w. unfold exec, os_remove. cbn.
  destruct (fs w !! path) as [[content|]|]; cbn; untouched.
Qed.

Lemma keeps_shutil_unpack_archive (filename extract_dir : string) :
  keeps_table (shutil_unpack_archive filename extract_dir).
Proof.
  intros w. unfold exec, shutil_unpack_archive. cbn.
  destruct (unpack_archive filename extract_dir (fs w)); cbn; untouched.
Qed.

Lemma keeps_decode (data : bytes) : keeps_table (decode data).
Proof.
  intros w. unfold exec, decode. destruct (decode_utf8 data);
    apply table_untouched_refl.
Qed.

Lemma keeps_loads (text : string) : keeps_table (loads text).
Proof.
  intros w. unfold exec, loads. destruct (json_loads text);
    apply table_untouched_refl.
Qed.

Lemma keeps_json_get (v : json) (key : string) : keeps_table (json_get v key).
Proof. intros w. destruct v; apply table_untouched_refl. Qed.

Lemma keeps_json_get_default (v : json) (key : string) (default : json) :
  keeps_table (json_get_default v key default).
Proof. intros w. destruct v; apply table_untouched_refl. Qed.

Lemma keeps_json_contains (v : json) (key : string) :
  keeps_table (json_contains v key).
Proof. intros w. destruct v; apply table_untouched_refl. Qed.

Lemma keeps_json_index (v : json) (key : string) :
  keeps_table (json_index v key).
Proof.
  intros w. unfold exec, json_index. destruct v; try apply table_untouched_refl.
  destruct (dict_get key d); apply table_untouched_refl.
Qed.

Lemma keeps_hash_key (v : json) : keeps_table (hash_key v).
Proof.
  intros w. unfold exec, hash_key. destruct (hashable v);
    apply table_untouched_refl.
Qed.

Lemma keeps_number (v : json) : keeps_table (number v).
Proof.
  intros w. unfold exec, number. destruct (as_number v);
    apply table_untouched_refl.
Qed.

Lemma keeps_os_path_basename (v : json) : keeps_table (os_path_basename v).
Proof. intros w. destruct v; apply table_untouched_refl. Qed.

End TableProperties.

Create HintDb keeps.

#[local] Hint Resolve keeps_ret keeps_raise keeps_return keeps_gets keeps_log
  keeps_sendall keeps_set_peers keeps_set_filepath keeps_recv keeps_open_wb
  keeps_write keeps_os_path_exists keeps_os_remove
  keeps_shutil_unpack_archive keeps_decode keeps_loads keeps_json_get
  keeps_json_get_default keeps_json_contains keeps_json_index keeps_hash_key
  keeps_number keeps_os_path_basename : keeps.

(** Walks through a computation built from the operations above. *)
Ltac keeps_steps :=
  repeat first
    [ progress intros
    | progress cbv zeta
    | solve [auto with keeps]
    | apply keeps_bind
    | apply keeps_try_except
    | apply keeps_try_finally
    | match goal with
      | |- keeps_table (act ?e) => intros ?w; unfold exec; cbn; untouched
      | |- keeps_table (match ?x with _ => _ end) => destruct x
      | |- keeps_table (if ?c then _ else _) => destruct c
      end ].

Section TableInvariant.
Context {H : Host}.

Lemma keeps_read_metadata (fuel : nat) (acc : bytes) :
  keeps_table (read_metadata fuel acc).
Proof.
  revert acc. induction fuel as [|fuel IH]; intros acc;
    unfold read_metadata; fold read_metadata; keeps_steps.
Qed.

Lemma keeps_copy_loop (fuel : nat) (path : string) (filesize received : Z) :
  keeps_table (copy_loop fuel path filesize received).
Proof.
  revert received. induction fuel as [|fuel IH]; intros received;
    unfold copy_loop; fold copy_loop; keeps_steps.
Qed.

Lemma keeps_store_payload (path : string) (filesize : json)
  (remaining_data : option bytes) :
  keeps_table (store_payload path filesize remaining_data).
Proof.
  pose proof keeps_copy_loop.
  unfold store_payload, loop_fuel. keeps_steps.
Qed.

Lemma keeps_unpack_folder (path filename : string) :
  keeps_table (unpack_folder path filename).
Proof. unfold unpack_folder. keeps_steps. Qed.

Lemma keeps_receive_item (metadata : json) (remaining_data : option bytes) :
  keeps_table (receive_item metadata remaining_data).
Proof.
  pose proof keeps_store_payload. pose proof keeps_unpack_folder.
  unfold receive_item. keeps_steps.
Qed.

Lemma keeps_receive_request (addr : string) (now : Z) (cb : json -> bool)
  (metadata_bytes : bytes) (remaining_data : option bytes) :
  keeps_table (receive_request addr now cb metadata_bytes remaining_data).
Proof.
  pose proof keeps_receive_item.
  unfold receive_request, our_handshake_response. keeps_steps.
Qed.

Lemma keeps_receive_session (addr : string) (now : Z) (cb : json -> bool) :
  keeps_table (receive_session addr now cb).
Proof.
  pose proof keeps_read_metadata. pose proof keeps_receive_request.
  unfold receive_session, loop_fuel. keeps_steps.
Qed.

Lemma keeps_receive_failed (e : exn) : keeps_table (receive_failed e).
Proof. unfold receive_failed. keeps_steps. Qed.

(** C9.  Whatever the connection delivers, whatever the header holds and
    whatever the user decides, the handler first registers its transfer
    identifier, before any read from the connection, and ends having
    removed it: the table of active transfers is the initial one without
    that identifier, and the registration and the removal are the first
    and the second-to-last action of the handler, with no other change of
    the table in between. *)
Theorem handle_item_receive_always_unregisters
  (transfer_id addr : string) (now : Z) (cb : json -> bool) (w : world) :
  outcome (handle_item_receive transfer_id addr now cb) w = Val tt
  /\ active_transfers (exec (handle_item_receive transfer_id addr now cb) w)
     = delete transfer_id (active_transfers w)
  /\ exists during,
      trace (exec (handle_item_receive transfer_id addr now cb) w)
      = trace w ++ [TransferAdded transfer_id] ++ during
        ++ [TransferRemoved transfer_id; ReceiveActive false]
      /\ table_events during = [].
Proof.
  pose proof (keeps_try_except _ _ (keeps_receive_session addr now cb)
                keeps_receive_failed (registered transfer_id addr w))
    as [Hat (during & Ht & Hev)].
  unfold exec, outcome in *.
  change (handle_item_receive transfer_id addr now cb w)
    with (call (try_finally
                  (try_except (receive_session addr now cb) receive_failed)
                  (receive_cleanup transfer_id))
            (registered transfer_id addr w)).
  unfold call, try_finally.
  destruct (try_except (receive_session addr now cb) receive_failed
              (registered transfer_id addr w)) as [R W] eqn:Hbody.
  cbn [fst snd] in Hat, Ht.
  assert (HR : R <> Exc OSError /\ forall e, R <> Exc e).
  { unfold try_except in Hbody.
    destruct (receive_session addr now cb (registered transfer_id addr w))
      as [[[]| |e] W0]; try (injection Hbody as <- <-; split; discriminate).
    destruct (receive_failed_spec e W0) as (W' & more & Hfail & _).
    rewrite Hfail in Hbody. injection Hbody as <- <-. split; discriminate. }
  rewrite (receive_cleanup_spec transfer_id W
             {| cancel := false; socket := addr |})
    by (rewrite Hat; apply lookup_insert_eq).
  assert (Hout : match R with
                 | Val a => (Val a, emit (ReceiveActive false)
                     (emit (TransferRemoved transfer_id)
                        (set_active (delete transfer_id) W)))
                 | Ret => (Val tt, emit (ReceiveActive false)
                     (emit (TransferRemoved transfer_id)
                        (set_active (delete transfer_id) W)))
                 | Exc e => (Exc e, emit (ReceiveActive false)
                     (emit (TransferRemoved transfer_id)
                        (set_active (delete transfer_id) W)))
                 end
                 = (Val tt, emit (ReceiveActive false)
                     (emit (TransferRemoved transfer_id)
                        (set_active (delete transfer_id) W)))).
  { destruct R as [[]| |e]; try reflexivity. destruct HR as [_ HR].
    exfalso. apply (HR e). reflexivity. }
  rewrite Hout. cbn [fst snd]. split; [reflexivity|].
  cbn. rewrite Hat, Ht. cbn. rewrite delete_insert_eq, <- !app_assoc.
  split; [reflexivity|]. exists during. split; [reflexivity | exact Hev].
Qed.

End TableInvariant.

(** ** The outbound send operation *)

Arguments readline : simpl never.
Arguments send_chunks : simpl never.
Arguments read_peer_info : simpl never.

Section SendProperties.
Context {H : Host}.

(** C6.  Sending to a nickname that is not in the registry only logs that
    the peer was not found: the operation returns before the item is looked
    up and before any socket is opened, and leaves the registry and the
    file system as they were. *)
Theorem send_item_unknown_peer (peer_nickname : pykey) (item_name : string)
  (refused : option exn) (w : world) :
  peers w !! peer_nickname = None ->
  outcome (send_item peer_nickname item_name refused) w = Val tt
  /\ exec (send_item peer_nickname item_name refused) w
     = emit (Log (PeerNotFound peer_nickname)) w
  /\ trace (exec (send_item peer_nickname item_name refused) w)
     = trace w ++ [Log (PeerNotFound peer_nickname)]
  /\ peers (exec (send_item peer_nickname item_name refused) w) = peers w
  /\ fs (exec (send_item peer_nickname item_name refused) w) = fs w.
Proof.
  intros Hnone. unfold exec, outcome, send_item, get_peer_dict. cbn.
  rewrite lookup_fmap, Hnone. cbn. repeat split.
Qed.

Lemma payload_sent_app (t1 t2 : list event) :
  payload_sent (t1 ++ t2) = payload_sent t1 ++ payload_sent t2.
Proof.
  induction t1 as [|e t1 IH]; cbn; [reflexivity|].
  destruct e as [| | | |[data|obj]| | | | | | | | | | | | |]; try exact IH.
  rewrite IH, app_assoc. reflexivity.
Qed.

Lemma send_errors_app (t1 t2 : list event) :
  send_errors (t1 ++ t2) = send_errors t1 ++ send_errors t2.
Proof.
  induction t1 as [|e t1 IH]; cbn; [reflexivity|].
  destruct e as [m| | | | | | | | | | | | | | | | |]; try exact IH.
  destruct m; try exact IH; rewrite IH; reflexivity.
Qed.

Lemma recvs_unsent (bufsize : Z) (k : nat) :
  payload_sent (repeat (SockRecv bufsize) k) = []
  /\ send_errors (repeat (SockRecv bufsize) k) = []
  /\ sends (repeat (SockRecv bufsize) k) = []
  /\ ~ In (SendActive true) (repeat (SockRecv bufsize) k).
Proof.
  induction k as [|k (IH1 & IH2 & IH3 & IH4)]; cbn; [tauto|].
  repeat split; auto. intros [Hc|Hc]; [discriminate | auto].
Qed.

(** One read of at least one byte, whatever the connection does. *)
Lemma recv_cases (k : Z) (w : world) :
  0 < k ->
  match conn w with
  | [] => recv k w = (Val [], with_io [] (trace w ++ [SockRecv k]) w)
  | Fail e :: rest =>
      recv k w = (Exc e, with_io rest (trace w ++ [SockRecv k]) w)
  | Seg c cs :: rest =>
      exists x data c',
        recv k w = (Val (x :: data), with_io c' (trace w ++ [SockRecv k]) w)
        /\ c :: cs ++ stream rest = (x :: data) ++ stream c'
        /\ closes c' = closes rest
        /\ (pending_bytes c' < S (length cs + pending_bytes rest))%nat
  end.
Proof.
  intros Hk. unfold recv. cbn. unfold with_io, emit, set_conn. cbn.
  destruct (conn w) as [|[c cs|e] rest] eqn:Hconn; cbn; try reflexivity.
  destruct (Z.leb_spec (len (c :: cs)) k) as [Hle|Hgt]; cbn.
  - exists c, cs, rest. repeat split; lia.
  - unfold ztake, zdrop. fold ztake. fold zdrop.
    destruct (Z.leb_spec k 0) as [|_]; [lia|].
    exists c, (ztake (k - 1) cs), (segment (zdrop (k - 1) cs) ++ rest).
    rewrite stream_segment, closes_segment, pending_segment.
    split; [reflexivity|]. split.
    + cbn. rewrite app_assoc, ztake_zdrop. reflexivity.
    + split; [reflexivity|].
      pose proof (length_zdrop k c cs Hk) as Hl.
      unfold zdrop in Hl. fold zdrop in Hl.
      destruct (Z.leb_spec k 0); [lia|]. lia.
Qed.

(** [readline] returns the first line of the connection. *)
Lemma readline_first_line (fuel : nat) (acc : bytes) (w : world)
  (line : bytes) :
  has_newline acc = false ->
  (pending_bytes (conn w) < fuel)%nat ->
  match split_newline (acc ++ stream (conn w)) with
  | Some (head, _) => Some (head ++ [NL])
  | None => if closes (conn w) then Some (acc ++ stream (conn w)) else None
  end = Some line ->
  exists c' k,
    readline fuel acc w =
    (Val line, with_io c' (trace w ++ repeat (SockRecv 8192) k) w).
Proof.
  revert acc w. induction fuel as [|fuel IH]; intros acc w Hacc Hp Hline.
  { lia. }
  unfold readline. fold readline. unfold bind at 1.
  pose proof (recv_cases 8192 w ltac:(lia)) as Hrecv.
  destruct (conn w) as [|[c cs|e] rest] eqn:Hconn.
  - rewrite Hrecv. cbn [stream closes] in Hline.
    rewrite app_nil_r in Hline. apply split_newline_none in Hacc.
    rewrite Hacc in Hline. injection Hline as <-.
    exists [], 1%nat. reflexivity.
  - destruct Hrecv as (x & d & c' & Hrecv & Hstream & Hcl & Hpend).
    rewrite Hrecv. cbn [stream closes pending_bytes] in Hline, Hp.
    rewrite Hstream, app_assoc in Hline.
    destruct (split_newline (acc ++ x :: d)) as [[head tail]|] eqn:Hs.
    + rewrite (split_newline_app _ (stream c') _ _ Hs) in Hline.
      injection Hline as <-. exists c', 1%nat. reflexivity.
    + apply split_newline_none in Hs.
      destruct (IH (acc ++ x :: d)
                  (with_io c' (trace w ++ [SockRecv 8192]) w) Hs)
        as (c'' & k & Hrun).
      * cbn. lia.
      * cbn. rewrite Hcl. exact Hline.
      * exists c'', (S k). rewrite Hrun. cbn.
        rewrite <- app_assoc. reflexivity.
  - cbn [stream closes] in Hline. rewrite app_nil_r in Hline.
    apply split_newline_none in Hacc. rewrite Hacc in Hline. discriminate.
Qed.

Arguments offer_item : simpl never.

(** An offer whose answer is not [ACCEPT] ends after the reply was read:
    the rejection is logged and the method returns. *)
Lemma offer_item_rejected (peer_nickname : pykey) (address item_name path
  item_type : string) (content line : bytes) (w : world) :
  fs w !! path = Some (File content) ->
  first_line (conn w) = Some line ->
  bytes_eqb (strip line) (b "ACCEPT") = false ->
  exists c' k,
    offer_item peer_nickname (JStr address) item_name path item_type None w =
    (Ret,
     with_io c'
       (trace w
        ++ [Log (Connecting peer_nickname (JStr address)); SockOpen;
            SockConnect address TCP_PORT;
            SockSend (JsonLine (offer_header w path item_type content))]
        ++ repeat (SockRecv 8192) k
        ++ [Log (TransferRejected peer_nickname)]) w).
Proof.
  intros Hfile Hline Hrej. unfold offer_item, os_path_getsize, connect,
    loop_fuel. cbn. rewrite Hfile. cbn.
  match goal with |- context [readline ?fu [] ?w1] =>
    destruct (readline_first_line fu [] w1 line) as (c' & k & Hrun)
  end; try reflexivity.
  { cbn. lia. }
  { exact Hline. }
  rewrite Hrun. cbn. rewrite Hrej. cbn.
  exists c', k. unfold with_io, emit, offer_header. cbn.
  rewrite <- !app_assoc. reflexivity.
Qed.

(** C10.  When the first line of the reply, stripped, is anything but
    [ACCEPT] ([REJECT], the empty line of a closed connection, or any other
    token), the send attempt logs the rejection, sends the header and no
    payload byte, never reports the transfer as active, logs no error and
    returns normally. *)
Theorem send_item_rejected_unless_accept (peer_nickname : pykey)
  (item_name address : string) (w : world) (info : peer_info) (item : node)
  (line : bytes) :
  peers w !! peer_nickname = Some info ->
  ip info = JStr address ->
  fs w !! join SHARE_DIR item_name = Some item ->
  (item = Dir ->
   exists archive f' content,
     make_archive (join gettempdir item_name) SHARE_DIR item_name (fs w)
       = Some (archive, f')
     /\ f' !! archive = Some (File content)) ->
  first_line (conn w) = Some line ->
  bytes_eqb (strip line) (b "ACCEPT") = false ->
  outcome (send_item peer_nickname item_name None) w = Val tt
  /\ exists new,
      trace (exec (send_item peer_nickname item_name None) w) = trace w ++ new
      /\ In (Log (TransferRejected peer_nickname)) new
      /\ payload_sent new = []
      /\ (exists header, sends new = [JsonLine header])
      /\ send_errors new = []
      /\ ~ In (SendActive true) new.
Proof.
  intros Hpeer Hip Hitem Harchive Hline Hrej.
  unfold exec, outcome, send_item, get_peer_dict, os_path_exists,
    os_path_isdir. cbn.
  rewrite lookup_fmap, Hpeer. cbn. rewrite Hitem. cbn. rewrite ?Hitem, Hip.
  unfold send_session, prepare_item, send_cleanup, shutil_make_archive,
    os_path_exists, os_remove.
  destruct item as [content|]; cbn.
  - match goal with |- context [offer_item _ _ _ _ _ _ ?w1] =>
      destruct (offer_item_rejected peer_nickname address item_name
                  (join SHARE_DIR item_name) "file" content line w1)
        as (c' & k & Hrun)
    end; try assumption.
    rewrite Hrun. cbn. split; [reflexivity|].
    destruct (recvs_unsent 8192 k) as (Hp & He & Hs & Ha).
    eexists. rewrite <- !app_assoc. split; [reflexivity|].
    cbn. rewrite ?payload_sent_app, ?send_errors_app, ?sends_app. cbn.
    rewrite Hp, He, Hs. cbn.
    rewrite ?in_app_iff. cbn.
    split; [intuition auto|].
    split; [reflexivity|]. split; [eexists; reflexivity|].
    split; [reflexivity|]. intuition discriminate.
  - destruct (Harchive eq_refl) as (archive & f' & content & Hmake & Hzip).
    rewrite Hmake. cbn.
    match goal with |- context [offer_item _ _ _ _ _ _ ?w1] =>
      destruct (offer_item_rejected peer_nickname address item_name
                  archive "directory" content line w1)
        as (c' & k & Hrun)
    end; try assumption.
    rewrite Hrun. cbn. rewrite Hzip. cbn. rewrite ?Hzip. cbn.
    split; [reflexivity|].
    destruct (recvs_unsent 8192 k) as (Hp & He & Hs & Ha).
    eexists. rewrite <- !app_assoc. split; [reflexivity|].
    cbn. rewrite ?payload_sent_app, ?send_errors_app, ?sends_app. cbn.
    rewrite Hp, He, Hs. cbn.
    rewrite ?in_app_iff. cbn.
    split; [intuition auto|].
    split; [reflexivity|]. split; [eexists; reflexivity|].
    split; [reflexivity|]. intuition discriminate.
Qed.

End SendProperties.

(** ** The QR pairing handler *)

Lemma prefix_of_line (acc s line : bytes) :
  acc ++ s = line ++ [NL] -> has_newline line = false -> s <> [] ->
  has_newline acc = false /\ len acc <= len line.
Proof.
  revert line. induction acc as [|a acc IH]; intros line Heq Hnl Hs.
  - split; [reflexivity|]. unfold len. cbn. lia.
  - destruct line as [|l line]; cbn in Heq.
    + injection Heq as -> Heq. apply app_eq_nil in Heq as [_ ->].
      contradiction.
    + injection Heq as -> Heq. rewrite has_newline_cons in Hnl.
      apply orb_false_iff in Hnl as [Hl Hnl].
      destruct (IH line Heq Hnl Hs) as [IH1 IH2].
      rewrite has_newline_cons, Hl, IH1, !len_cons. split; [reflexivity|lia].
Qed.

Lemma with_io_same (w : world) : with_io (conn w) (trace w) w = w.
Proof. destruct w; reflexivity. Qed.

(** The read loop of the pairing handler on a connection that delivers one
    line shorter than 4096 bytes: it returns the line with its newline and
    reads no further. *)
Lemma read_peer_info_line (fuel : nat) (acc : bytes) (w : world)
  (segs rest : list rx) (line : bytes) :
  conn w = segs ++ rest ->
  closes segs = true ->
  acc ++ stream segs = line ++ [NL] ->
  has_newline line = false ->
  len line < 4096 ->
  (pending_bytes segs < fuel)%nat ->
  exists k,
    read_peer_info fuel acc w =
    (Val (line ++ [NL]),
     with_io rest (trace w ++ repeat (SockRecv 1024) k) w).
Proof.
  revert acc w segs.
  induction fuel as [|fuel IH]; intros acc w segs Hconn Hc Heq Hnl Hlen Hp.
  { lia. }
  unfold read_peer_info. fold read_peer_info.
  destruct segs as [|[c cs|e] segs']; cbn in Hc; try discriminate.
  - cbn in Heq, Hconn. rewrite app_nil_r in Heq. subst acc.
    rewrite has_newline_app. replace (has_newline [NL]) with true
      by reflexivity.
    rewrite orb_true_r. cbn. exists 0%nat. cbn. rewrite app_nil_r.
    rewrite <- Hconn, with_io_same. reflexivity.
  - cbn [stream] in Heq.
    destruct (prefix_of_line acc _ line Heq Hnl ltac:(discriminate))
      as [Hacc Hla].
    rewrite Hacc. cbn [negb andb].
    destruct (Z.ltb_spec (len acc) 4096) as [_|]; [|lia].
    destruct (recv_segment 1024 w c cs (segs' ++ rest) ltac:(lia) Hconn)
      as (x & d & pre & Hrecv & Hsplit & Hcp & Hpp).
    unfold bind at 1. rewrite Hrecv.
    destruct (IH (acc ++ x :: d)
                (with_io (pre ++ segs' ++ rest) (trace w ++ [SockRecv 1024])
                   w) (pre ++ segs'))
      as (k & Hrun); try assumption.
    + cbn. rewrite app_assoc. reflexivity.
    + apply closes_app; assumption.
    + rewrite stream_app by exact Hcp. rewrite <- Heq.
      rewrite <- !app_assoc. f_equal.
      change (c :: cs ++ stream segs') with ((c :: cs) ++ stream segs').
      rewrite Hsplit, <- !app_assoc. reflexivity.
    + rewrite pending_app. cbn in Hp. lia.
    + exists (S k). rewrite Hrun. cbn. rewrite <- app_assoc. reflexivity.
Qed.

Arguments await_peer_info : simpl never.

Section PairingProperties.
Context {H : Host}.

Lemma keeps_read_peer_info (fuel : nat) (data : bytes) :
  keeps_table (read_peer_info fuel data).
Proof.
  revert data. induction fuel as [|fuel IH]; intros data;
    unfold read_peer_info; fold read_peer_info; keeps_steps.
Qed.

Lemma keeps_await_peer_info (addr : string) (now : Z) :
  keeps_table (await_peer_info addr now).
Proof.
  pose proof keeps_read_peer_info.
  unfold await_peer_info, loop_fuel. keeps_steps.
Qed.

(** The registration that follows the identity line of the peer. *)
Lemma await_peer_info_pairs (addr : string) (now : Z) (w : world)
  (segs rest : list rx) (line : bytes) (text : string)
  (peer : list (string * json)) (key : pykey) :
  conn w = segs ++ rest ->
  closes segs = true ->
  stream segs = line ++ [NL] ->
  has_newline line = false ->
  len line < 4096 ->
  decode_utf8 (line ++ [NL]) = Some text ->
  json_loads (str_strip text) = Some (JDict peer) ->
  truthy (get "nickname" peer) = true ->
  hashable (get "nickname" peer) = Some key ->
  exists W,
    await_peer_info addr now w = (Val tt, W)
    /\ peers W =
       <[key := paired_entry (get_default "ip" (JStr addr) peer)
                  (get_default "device_type" (JStr "android") peer) now]>
         (peers w).
Proof.
  intros Hconn Hc Hs Hnl Hlen Hdec Hload Htruthy Hkey.
  unfold await_peer_info, loop_fuel. cbn.
  destruct (read_peer_info_line (S (pending_bytes (conn w))) [] w segs rest
              line Hconn Hc Hs Hnl Hlen) as (k & Hrun).
  { rewrite Hconn, pending_app. lia. }
  rewrite Hrun. cbn. destruct (line ++ [NL]) as [|x l] eqn:Hline.
  { destruct line; discriminate. }
  unfold decode, loads, json_get, json_get_default, hash_key. cbn.
  rewrite Hdec. cbn. rewrite Hload. cbn. rewrite Htruthy. cbn.
  rewrite Hkey. cbn. eexists. split; reflexivity.
Qed.

(** C8.  The pairing handler sends its own identity before it reads
    anything from the connection, whatever the connection then delivers.
    When the peer answers with one line that decodes to an object with a
    nickname, the handler stores under that nickname the declared address
    (the address of the connection when none is declared) and device class,
    pinned, with a last-seen time 300 seconds in the future; no later sweep
    removes that entry. *)
Theorem qr_pairing_sends_identity_then_pins (addr : string) (now : Z)
  (w : world) :
  (outcome (handle_qr_connection addr now) w = Val tt
   /\ exists after,
       trace (exec (handle_qr_connection addr now) w)
       = trace w ++ SockSend (JsonLine (identity_of w))
                 :: Log (SentOurInfo addr) :: after)
  /\ (forall segs rest line text peer key,
        conn w = segs ++ rest ->
        closes segs = true ->
        stream segs = line ++ [NL] ->
        has_newline line = false ->
        len line < 4096 ->
        decode_utf8 (line ++ [NL]) = Some text ->
        json_loads (str_strip text) = Some (JDict peer) ->
        truthy (get "nickname" peer) = true ->
        hashable (get "nickname" peer) = Some key ->
        peers (exec (handle_qr_connection addr now) w) =
          <[key := {| ip := get_default "ip" (JStr addr) peer;
                      last_seen := now + 300;
                      device_type :=
                        get_default "device_type" (JStr "android") peer;
                      qr_connected := true |}]> (peers w)
        /\ now < now + 300
        /\ forall sweep_time,
             peers (exec (cleanup_sweep sweep_time)
                      (exec (handle_qr_connection addr now) w)) !! key
             = Some {| ip := get_default "ip" (JStr addr) peer;
                       last_seen := now + 300;
                       device_type :=
                         get_default "device_type" (JStr "android") peer;
                       qr_connected := true |}).
Proof.
  set (w1 := emit (Log (SentOurInfo addr))
               (emit (SockSend (JsonLine (identity_of w))) w)).
  assert (Hstart : handle_qr_connection addr now w =
            call (try_except (await_peer_info addr now)
                    (fun e =>
                       match e with
                       | SocketTimeout => log (QRTimedOut addr)
                       | _ => log (QRHandlerError addr e)
                       end)) w1) by reflexivity.
  split.
  - pose proof (keeps_try_except (await_peer_info addr now)
                  (fun e =>
                     match e with
                     | SocketTimeout => log (QRTimedOut addr)
                     | _ => log (QRHandlerError addr e)
                     end) (keeps_await_peer_info addr now)
                  ltac:(intros []; apply keeps_log) w1)
      as [_ (after & Ht & _)].
    unfold exec, outcome in *. rewrite Hstart. unfold call, try_except in *.
    destruct (await_peer_info addr now w1) as [[[]| |e] W];
      cbn [fst snd] in *.
    + split; [reflexivity|]. exists after. rewrite Ht. unfold w1. cbn.
      rewrite <- !app_assoc. reflexivity.
    + split; [reflexivity|]. exists after. rewrite Ht. unfold w1. cbn.
      rewrite <- !app_assoc. reflexivity.
    + destruct e; cbn in *;
        (split; [reflexivity|]; exists after; rewrite Ht; unfold w1; cbn;
         rewrite <- !app_assoc; reflexivity).
  - intros segs rest line text peer key Hconn Hc Hs Hnl Hlen Hdec Hload
      Htruthy Hkey.
    destruct (await_peer_info_pairs addr now w1 segs rest line text peer key)
      as (W & Hrun & Hpeers); try assumption.
    unfold exec. rewrite Hstart. unfold call, try_except. rewrite Hrun.
    cbn [fst snd].
    split; [exact Hpeers|]. split; [lia|].
    intros sweep_time.
    change ((cleanup_sweep sweep_time W).2)
      with (exec (cleanup_sweep sweep_time) W).
    rewrite cleanup_sweep_lookup, Hpeers, lookup_insert_eq.
    unfold is_stale. cbn. rewrite andb_false_r. reflexivity.
Qed.

End PairingProperties.

(** * Examples *)

(** The request of [sample_request] followed in the same segment by
    [hel], then [lo]: five payload bytes in all. *)
Lemma accepted_transfer_stored_or_discarded_witness :
  exists new,
    outcome (@handle_item_receive sample_host "t1" "10.0.0.7" 0 accept_all)
      (sample_world (segment (sample_request ++ NL :: b "hel")
                     ++ segment (b "lo"))) = Val tt
    /\ written (join (@DOWNLOAD_DIR sample_host) "a.txt") new = b "hello"
    /\ completions new = ["a.txt"].
Proof.
  destruct (@accepted_transfer_stored_or_discarded sample_host
              "t1" "10.0.0.7" 0 accept_all
              (sample_world (segment (sample_request ++ NL :: b "hel")
                             ++ segment (b "lo")))
              sample_request (b "hello")
              (string_of_list_byte sample_request) sample_request_json
              "a.txt" 5)
    as (_ & _ & new & Hout & _ & _ & _ & Hdone & _);
    try (vm_compute; reflexivity); try discriminate.
  exists new. destruct Hdone as (Hw & Hc & _); [vm_compute; reflexivity|].
  split; [exact Hout|]. split; [exact Hw | exact Hc].
Defined.

(** The claim of C1 as first stated fails for a declared filename that ends
    in a slash: the request is accepted and all of its zero payload bytes
    arrive, yet the destination is the downloads directory itself, so
    nothing is opened or written and no completion is reported. *)
Lemma accepted_transfer_to_directory_name_not_stored :
  let w := sample_world (segment (directory_request ++ [NL])) in
  let W := exec (@handle_item_receive sample_host "t1" "10.0.0.7" 0
                   accept_all) w in
  stream (conn w) = directory_request ++ NL :: []
  /\ (exists text md,
        @decode_utf8 sample_host directory_request = Some text
        /\ @json_loads sample_host text = Some (JDict md)
        /\ dict_get "filename" md = Some (JStr "docs/")
        /\ dict_get "filesize" md = Some (JInt 0))
  /\ sends (trace W) = [Raw (b "ACCEPT" ++ [NL])]
  /\ basename "docs/" = ""
  /\ opened (trace W) = []
  /\ completions (trace W) = []
  /\ failures (trace W) = [OSError]
  /\ fs W = fs w.
Proof.
  cbv zeta. split; [vm_compute; reflexivity|]. split.
  - eexists _, _. split; [vm_compute; reflexivity|].
    split; [vm_compute; reflexivity|]. split; vm_compute; reflexivity.
  - repeat split; vm_compute; reflexivity.
Qed.

(** A first read delivers the beginning of the request of
    [sample_request]; a second one delivers its last sixteen bytes, the newline
    and the first three payload bytes; two more payload bytes follow. *)
Lemma header_read_keeps_payload_start_witness :
  exists new,
    trace (exec (@handle_item_receive sample_host "t1" "10.0.0.7" 0
                   accept_all)
             (sample_world
                (segment (take 60 sample_request)
                 ++ segment (drop 60 sample_request ++ NL :: b "hel")
                 ++ segment (b "lo"))))
      = [] ++ new
    /\ written (join (@DOWNLOAD_DIR sample_host) "a.txt") new = b "hello"
    /\ completions new = ["a.txt"].
Proof.
  destruct (@header_read_keeps_payload_start sample_host
              "t1" "10.0.0.7" 0 accept_all
              (sample_world
                 (segment (take 60 sample_request)
                  ++ segment (drop 60 sample_request ++ NL :: b "hel")
                  ++ segment (b "lo")))
              (segment (take 60 sample_request))
              "_"%byte (tl (drop 60 sample_request ++ NL :: b "hel"))
              (segment (b "lo")) (drop 60 sample_request) (b "hel")
              (string_of_list_byte sample_request) sample_request_json
              "a.txt" 5)
    as (new & Ht & _ & Hw & Hdone & _);
    try (vm_compute; reflexivity); try discriminate.
  exists new. split; [exact Ht|].
  split; [refine (eq_trans Hw _); vm_compute; reflexivity|].
  apply Hdone. vm_compute. reflexivity.
Defined.

(** An unpinned entry last seen at time 0 is removed by the sweep at time
    100. *)
Lemma cleanup_sweep_removes_iff_stale_unpinned_witness :
  peers (exec (cleanup_sweep 100) (world_with_bob 0 false)) !! KStr "bob"
  = None.
Proof.
  destruct (cleanup_sweep_removes_iff_stale_unpinned
              (world_with_bob 0 false) 100 (KStr "bob") (bob_entry 0 false))
    as [[_ Hremoved] _]; [vm_compute; reflexivity|].
  apply Hremoved. split; vm_compute; reflexivity.
Defined.

(** An announcement of the pinned peer [bob] rewrites its address and
    leaves it pinned. *)
Lemma discovery_upsert_last_write_wins_pin_monotonic_witness :
  peers (exec (@listen_iteration sample_host 7 (Datagram sample_announcement))
           (world_with_bob 0 true)) !! KStr "bob"
  = Some {| ip := JStr "10.0.0.7"; last_seen := 7;
            device_type := JStr "android"; qr_connected := true |}.
Proof.
  destruct (@discovery_upsert_last_write_wins_pin_monotonic sample_host
              [] (world_with_bob 0 true)) as (_ & Hupsert & _).
  destruct (Hupsert 7 (Datagram sample_announcement)
              sample_announcement_json (KStr "bob")) as [Hentry _].
  - exists sample_announcement, (string_of_list_byte sample_announcement).
    repeat split; vm_compute; reflexivity.
  - split; vm_compute; reflexivity.
  - reflexivity.
  - exact Hentry.
Defined.

(** A datagram that is not JSON leaves the registry as it is. *)
Lemma listener_drops_malformed_foreign_and_own_witness :
  peers (exec (@listen_iteration sample_host 7 (Datagram (b "hello")))
           (world_with_bob 0 false))
  = peers (world_with_bob 0 false).
Proof.
  destruct (@listener_drops_malformed_foreign_and_own sample_host 7
              (Datagram (b "hello")) (world_with_bob 0 false))
    as (Hmalformed & _).
  apply (Hmalformed (b "hello")); [reflexivity|].
  right. exists "hello". split; vm_compute; reflexivity.
Defined.

(** Nobody is known to the backend of [sample_world]. *)
Lemma send_item_unknown_peer_witness :
  trace (exec (@send_item sample_host (KStr "bob") "notes.txt" None)
           (sample_world []))
  = [Log (PeerNotFound (KStr "bob"))].
Proof.
  destruct (@send_item_unknown_peer sample_host (KStr "bob") "notes.txt" None
              (sample_world [])) as (_ & _ & Htrace & _);
    [reflexivity | exact Htrace].
Defined.

(** C3 fails on the code.  A connection delivers a request without its
    newline and closes: the handler does not abandon the connection.  It
    asks for a decision and replies; when the request is accepted it opens
    the destination file and then fails on [remaining_data], which the
    header loop never bound. *)
Lemma header_without_newline_is_answered :
  let w := sample_world (segment unterminated_request) in
  let accepted := exec (@handle_item_receive sample_host "t1" "10.0.0.7" 0
                          accept_all) w in
  let rejected := exec (@handle_item_receive sample_host "t1" "10.0.0.7" 0
                          reject_all) w in
  has_newline (stream (conn w)) = false
  /\ closes (conn w) = true
  /\ sends (trace accepted) = [Raw (b "ACCEPT" ++ [NL])]
  /\ opened (trace accepted) = [join (@DOWNLOAD_DIR sample_host) "a.txt"]
  /\ failures (trace accepted) = [UnboundLocalError]
  /\ sends (trace rejected) = [Raw (b "REJECT" ++ [NL])].
Proof. cbv zeta. repeat split; vm_compute; reflexivity. Qed.

(** The peer [phone] answers the identity of the listener with its own. *)
Lemma qr_pairing_sends_identity_then_pins_witness :
  peers (exec (@handle_qr_connection sample_host "10.0.0.9" 1000)
           (sample_world (segment (sample_identity ++ [NL])))) !! KStr "phone"
  = Some {| ip := JStr "10.0.0.9"; last_seen := 1300;
            device_type := JStr "android"; qr_connected := true |}.
Proof.
  destruct (@qr_pairing_sends_identity_then_pins sample_host "10.0.0.9" 1000
              (sample_world (segment (sample_identity ++ [NL]))))
    as [_ Hpin].
  specialize (Hpin (segment (sample_identity ++ [NL])) [] sample_identity
                (string_of_list_byte (sample_identity ++ [NL]))
                sample_identity_json (KStr "phone")
                ltac:(vm_compute; reflexivity) ltac:(vm_compute; reflexivity)
                ltac:(vm_compute; reflexivity) ltac:(vm_compute; reflexivity)
                ltac:(vm_compute; reflexivity) ltac:(vm_compute; reflexivity)
                ltac:(vm_compute; reflexivity) ltac:(vm_compute; reflexivity)
                ltac:(vm_compute; reflexivity)).
  destruct Hpin as (Hpeers & _ & _).
  rewrite Hpeers. apply lookup_insert_eq.
Defined.

(** The peer [bob] answers an offer of [notes.txt] with [REJECT]. *)
Lemma send_item_rejected_unless_accept_witness :
  outcome (@send_item sample_host (KStr "bob") "notes.txt" None)
    (sending_world (segment (b "REJECT" ++ [NL]))) = Val tt
  /\ exists new,
      trace (exec (@send_item sample_host (KStr "bob") "notes.txt" None)
               (sending_world (segment (b "REJECT" ++ [NL])))) = [] ++ new
      /\ payload_sent new = [].
Proof.
  destruct (@send_item_rejected_unless_accept sample_host (KStr "bob")
              "notes.txt" "10.0.0.5"
              (sending_world (segment (b "REJECT" ++ [NL])))
              (bob_entry 0 false) (File (b "hi")) (b "REJECT" ++ [NL]))
    as (Hout & new & Ht & _ & Hp & _);
    try (vm_compute; reflexivity); try discriminate.
  split; [exact Hout|]. exists new. split; [exact Ht | exact Hp].
Defined.

(** * Further properties *)

Section SweepMore.
Context {H : Host}.




End SweepMore.

Section SweepCompose.
Context {H : Host}.

Lemma is_stale_earlier (t t' : Z) (info : peer_info) :
  t' <= t -> is_stale t info = false -> is_stale t' info = false.
Proof.
  unfold is_stale. intros Hle Hst.
  destruct (qr_connected info); cbn in *; [apply andb_false_r|].
  rewrite andb_true_r in *.
  destruct (Z.gtb_spec (t - last_seen info) PEER_TIMEOUT); [discriminate|].
  destruct (Z.gtb_spec (t' - last_seen info) PEER_TIMEOUT); [lia|reflexivity].
Qed.

Lemma stale_peers_nil (now : Z) (known : gmap pykey peer_info) :
  (forall nick info, known !! nick = Some info -> is_stale now info = false) ->
  stale_peers now known = [].
Proof.
  intros Hall. destruct (stale_peers now known) as [|k l] eqn:Hs; [reflexivity|].
  assert (Hin : k ∈ stale_peers now known) by (rewrite Hs; left).
  apply elem_of_stale_peers in Hin as (info & Hlk & Hst).
  rewrite (Hall k info Hlk) in Hst. discriminate.
Qed.

(** X2.  After a sweep at time [t], a sweep at the same or an earlier time
    finds nothing to remove: it leaves the whole state, log included, as
    it is. *)
Theorem cleanup_sweep_settles (t t' : Z) (w : world) :
  t' <= t ->
  exec (cleanup_sweep t') (exec (cleanup_sweep t) w) = exec (cleanup_sweep t) w
  /\ stale_peers t' (peers (exec (cleanup_sweep t) w)) = [].
Proof.
  intros Hle.
  assert (Hnil : stale_peers t' (peers (exec (cleanup_sweep t) w)) = []).
  { apply stale_peers_nil. intros nick info.
    rewrite cleanup_sweep_lookup.
    destruct (peers w !! nick) as [old|]; [|discriminate].
    destruct (is_stale t old) eqn:Hst; [discriminate|].
    intros [= <-]. eapply is_stale_earlier; eassumption. }
  split; [|exact Hnil].
  unfold exec at 1. unfold cleanup_sweep at 1. cbn. rewrite Hnil. reflexivity.
Qed.

(** X3.  A peer whose announcement the listener stored at time [now] is
    removed by a later sweep at time [t] exactly when more than
    [PEER_TIMEOUT] seconds have passed and the entry was not pinned before
    the announcement; otherwise the sweep keeps the entry as the listener
    wrote it. *)
Theorem announced_peer_kept_for_timeout
  (now t : Z) (d : dgram) (w : world) (message : list (string * json))
  (key : pykey) :
  announces d message ->
  foreign_announcement (nickname w) message ->
  hashable (get "nickname" message) = Some key ->
  (peers (exec (cleanup_sweep t) (exec (listen_iteration now d) w)) !! key
     = None <->
   t - now > PEER_TIMEOUT /\ pinned (peers w) key = false)
  /\ (t - now <= PEER_TIMEOUT \/ pinned (peers w) key = true ->
      peers (exec (cleanup_sweep t) (exec (listen_iteration now d) w)) !! key
      = Some {| ip := get "ip" message;
                last_seen := now;
                device_type :=
                  get_default "device_type" (JStr "unknown") message;
                qr_connected := pinned (peers w) key |}).
Proof.
  intros Ha Hf Hk. rewrite cleanup_sweep_lookup.
  rewrite (listen_iteration_upsert now d w message key Ha Hf Hk).
  rewrite lookup_insert_eq. unfold is_stale, discovered_entry, pinned. cbn.
  destruct (match peers w !! key with
            | Some p => qr_connected p | None => false end) eqn:Hpin; cbn;
    destruct (Z.gtb_spec (t - now) PEER_TIMEOUT) as [Hgt|Hle]; cbn;
    (split; [split; [try discriminate; intros; try lia; auto | intros [? ?]; try reflexivity; try discriminate; try lia]
            | intros [?|?]; try reflexivity; try discriminate; try lia ]).
Qed.

End SweepCompose.

Section ListenerMore.
Context {H : Host}.

Lemma listen_iteration_trace (now : Z) (d : dgram) (w : world)
  (message : list (string * json)) (key : pykey) :
  announces d message ->
  foreign_announcement (nickname w) message ->
  hashable (get "nickname" message) = Some key ->
  trace (exec (listen_iteration now d) w) =
  trace w ++ match peers w !! key with
             | Some _ => []
             | None =>
                 [Log (Discovered (get "nickname" message)
                         (get_default "device_type" (JStr "unknown") message)
                         (get "ip" message))]
             end.
Proof.
  intros (data & text & -> & Hdec & Hload) [Hmagic Hnick] Hkey.
  unfold exec, listen_iteration, recvfrom, decode, loads, json_get,
    json_get_default, hash_key. cbn.
  rewrite Hdec. cbn. rewrite Hload. cbn. rewrite Hmagic. cbn.
  rewrite Hnick. cbn. rewrite Hkey. cbn.
  destruct (peers w !! key); cbn; [rewrite app_nil_r|]; reflexivity.
Qed.

(** X4.  The listener logs the discovery of a peer only when the nickname
    was not in the registry; an announcement of a known nickname, such as
    the repetition of the same announcement, adds nothing to the log. *)
Theorem discovery_logged_for_new_peer_only
  (now later : Z) (d : dgram) (w : world) (message : list (string * json))
  (key : pykey) :
  announces d message ->
  foreign_announcement (nickname w) message ->
  hashable (get "nickname" message) = Some key ->
  trace (exec (listen_iteration now d) w) =
    trace w ++ match peers w !! key with
               | Some _ => []
               | None =>
                   [Log (Discovered (get "nickname" message)
                           (get_default "device_type" (JStr "unknown") message)
                           (get "ip" message))]
               end
  /\ trace (exec (listen_iteration later d) (exec (listen_iteration now d) w))
     = trace (exec (listen_iteration now d) w).
Proof.
  intros Ha Hf Hk. split; [apply listen_iteration_trace; assumption|].
  destruct (listen_iteration_frame now d w) as [Hn _].
  rewrite (listen_iteration_trace later d _ message key Ha); try assumption.
  - rewrite (listen_iteration_upsert now d w message key Ha Hf Hk).
    rewrite lookup_insert_eq. apply app_nil_r.
  - rewrite Hn. exact Hf.
Qed.

Lemma listen_iteration_others (now : Z) (d : dgram) (w : world) :
  fs (exec (listen_iteration now d) w) = fs w
  /\ active_transfers (exec (listen_iteration now d) w) = active_transfers w
  /\ conn (exec (listen_iteration now d) w) = conn w.
Proof.
  unfold exec, listen_iteration, recvfrom, decode, loads, json_get,
    json_get_default, hash_key. cbn.
  repeat (case_match; cbn in *; simplify_eq); auto.
Qed.

Lemma listen_iteration_keeps_entry (now : Z) (d : dgram) (w : world) key info :
  peers w !! key = Some info ->
  exists info',
    peers (exec (listen_iteration now d) w) !! key = Some info'
    /\ qr_connected info' = qr_connected info.
Proof.
  intros Hlk.
  destruct (listen_iteration_entry now d w key) as [->|(a & dv & ->)].
  - eauto.
  - eexists. split; [reflexivity|]. rewrite Hlk. reflexivity.
Qed.

(** X5.  Whatever datagrams arrive, the discovery listener never removes an
    entry and never changes a pinned flag, in either direction; it does
    not touch the file system or the table of active transfers. *)
Theorem listen_for_peers_never_forgets (arrivals : list (Z * dgram))
  (w : world) :
  (forall key info,
     peers w !! key = Some info ->
     exists info',
       peers (exec (listen_for_peers arrivals) w) !! key = Some info'
       /\ qr_connected info' = qr_connected info)
  /\ fs (exec (listen_for_peers arrivals) w) = fs w
  /\ active_transfers (exec (listen_for_peers arrivals) w) = active_transfers w.
Proof.
  revert w. induction arrivals as [|[now d] rest IH]; intros w.
  - split; [|split; reflexivity]. intros key info Hlk. exists info. auto.
  - unfold exec in *. cbn [listen_for_peers]. cbn.
    destruct (running w); [|cbn; split; [eauto|split; reflexivity]].
    cbn.
    pose proof (listen_iteration_returns now d w) as Hret.
    pose proof (listen_iteration_others now d w) as (Hfs & Hat & _).
    pose proof (fun key info => listen_iteration_keeps_entry now d w key info)
      as Hkeep.
    unfold exec, outcome in *.
    destruct (listen_iteration now d w) as [r w1]. cbn in *. subst r.
    destruct (IH w1) as (IH1 & IH2 & IH3).
    split; [|split; congruence].
    intros key info Hlk. destruct (Hkeep key info Hlk) as (info1 & Hlk1 & Hq1).
    destruct (IH1 key info1 Hlk1) as (info2 & Hlk2 & Hq2).
    exists info2. split; [exact Hlk2 | congruence].
Qed.

End ListenerMore.

Arguments cleanup_sweep : simpl never.
Arguments recv : simpl never.

Section RequestProperties.
Context {H : Host}.

(** The header loop on a connection that will close returns the header
    line. *)
Lemma header_loop_reads (transfer_id addr : string) (w : world) :
  running w = true -> closes (conn w) = true ->
  exists rem c1 k,
    read_metadata (S (pending_bytes (conn w))) []
      (registered transfer_id addr w) =
    (Val (header_line (conn w), rem),
     with_io c1
       (trace (registered transfer_id addr w) ++ repeat (SockRecv 1024) k)
       (registered transfer_id addr w))
    /\ closes c1 = true.
Proof.
  intros Hrun Hc.
  destruct (read_metadata_closes (S (pending_bytes (conn w))) []
              (registered transfer_id addr w))
    as (c1 & k & Hc1 & Hres); cbn; try assumption; try lia; try reflexivity.
  cbn [conn registered emit set_active set_filepath app] in Hres.
  unfold header_line.
  destruct (split_newline (stream (conn w))) as [[head tail]|].
  - destruct Hres as (r & Hread & _). eauto.
  - eauto.
Qed.

(** X6.  When the user declines a well-formed transfer request, the
    handler asks once, answers [REJECT] and ends: after the header reads it
    logs the header, consults the user, sends the reply and cleans up; it
    opens no file, never reports the reception as active, and leaves the
    file system and the registry as they were. *)
Theorem rejected_request_gets_reject_only
  (transfer_id addr : string) (now : Z) (cb : json -> bool) (w : world)
  (text : string) (md : list (string * json)) :
  running w = true ->
  closes (conn w) = true ->
  header_line (conn w) <> [] ->
  decode_utf8 (header_line (conn w)) = Some text ->
  json_loads text = Some (JDict md) ->
  eq_str (get "type" md) "qr_handshake" = false ->
  dict_has "filename" md = true ->
  dict_has "filesize" md = true ->
  cb (JDict md) = false ->
  outcome (handle_item_receive transfer_id addr now cb) w = Val tt
  /\ (exists k,
        trace (exec (handle_item_receive transfer_id addr now cb) w)
        = trace w ++ [TransferAdded transfer_id]
          ++ repeat (SockRecv 1024) k
          ++ [Log (ReceivedMetadata (JDict md));
              TransferRequest (JDict md);
              SockSend (Raw (b "REJECT" ++ [NL]));
              TransferRemoved transfer_id;
              ReceiveActive false])
  /\ fs (exec (handle_item_receive transfer_id addr now cb) w) = fs w
  /\ peers (exec (handle_item_receive transfer_id addr now cb) w) = peers w.
Proof.
  intros Hrun Hc Hne Hdec Hload Hqr Hfn Hfs Hcb.
  destruct (header_loop_reads transfer_id addr w Hrun Hc)
    as (rem & c1 & k & Hread & Hc1).
  unfold exec, outcome, handle_item_receive, receive_session, loop_fuel. cbn.
  fold (registered transfer_id addr w). rewrite Hread. cbn.
  unfold receive_request, decode, loads, json_get, json_contains.
  destruct (header_line (conn w)) as [|x hd]; [contradiction|]. cbn.
  rewrite Hdec. cbn. rewrite Hload. cbn. rewrite Hqr. cbn.
  rewrite Hfn, Hfs. cbn. rewrite Hcb. cbn.
  unfold receive_cleanup. cbn. rewrite lookup_insert_eq. cbn.
  split; [reflexivity|]. split; [|split; reflexivity].
  exists k. rewrite <- !app_assoc. reflexivity.
Qed.

(** X7.  A header that is valid JSON but no transfer request is dropped
    without asking the user and without any reply: an object that lacks
    [filename] or [filesize] is logged as having missing fields, and a
    JSON value that is not an object makes [metadata.get] fail, which the
    handler logs as a failed reception.  Neither touches the file system
    or the registry. *)
Theorem unusable_request_is_not_prompted
  (transfer_id addr : string) (now : Z) (cb : json -> bool) (w : world)
  (text : string) (v : json) :
  running w = true ->
  closes (conn w) = true ->
  header_line (conn w) <> [] ->
  decode_utf8 (header_line (conn w)) = Some text ->
  json_loads text = Some v ->
  (forall md,
     v = JDict md ->
     eq_str (get "type" md) "qr_handshake" = false ->
     dict_has "filename" md && dict_has "filesize" md = false ->
     exists k,
       trace (exec (handle_item_receive transfer_id addr now cb) w)
       = trace w ++ [TransferAdded transfer_id]
         ++ repeat (SockRecv 1024) k
         ++ [Log (ReceivedMetadata v);
             Log (MissingFields addr);
             TransferRemoved transfer_id;
             ReceiveActive false])
  /\ ((forall md, v <> JDict md) ->
      exists k,
        trace (exec (handle_item_receive transfer_id addr now cb) w)
        = trace w ++ [TransferAdded transfer_id]
          ++ repeat (SockRecv 1024) k
          ++ [Log (ReceivedMetadata v);
              Log (ReceiveFailed AttributeError);
              TransferRemoved transfer_id;
              ReceiveActive false])
  /\ ((forall md, v = JDict md ->
         eq_str (get "type" md) "qr_handshake" = false
         /\ dict_has "filename" md && dict_has "filesize" md = false) ->
      fs (exec (handle_item_receive transfer_id addr now cb) w) = fs w
      /\ peers (exec (handle_item_receive transfer_id addr now cb) w)
         = peers w).
Proof.
  intros Hrun Hc Hne Hdec Hload.
  destruct (header_loop_reads transfer_id addr w Hrun Hc)
    as (rem & c1 & k & Hread & Hc1).
  unfold exec, handle_item_receive, receive_session, loop_fuel. cbn.
  fold (registered transfer_id addr w). rewrite Hread. cbn.
  unfold receive_request, decode, loads, json_get, json_contains.
  destruct (header_line (conn w)) as [|x hd]; [contradiction|]. cbn.
  rewrite Hdec. cbn. rewrite Hload. cbn.
  assert (Hdict : forall md, v = JDict md ->
            eq_str (get "type" md) "qr_handshake" = false ->
            dict_has "filename" md && dict_has "filesize" md = false ->
            negb (dict_has "filename" md) || negb (dict_has "filesize" md)
            = true).
  { intros md _ _ Hm. destruct (dict_has "filename" md),
      (dict_has "filesize" md); cbn in *; congruence. }
  split; [|split].
  - intros md -> Hqr Hmiss. cbn. rewrite Hqr. cbn.
    rewrite (Hdict md eq_refl Hqr Hmiss). cbn.
    unfold receive_cleanup. cbn. rewrite lookup_insert_eq. cbn.
    exists k. rewrite <- !app_assoc. reflexivity.
  - intros Hnd. destruct v as [ | | | | |md]; try (exfalso; eapply Hnd; reflexivity);
      cbn; unfold receive_failed, receive_cleanup; cbn;
      rewrite lookup_insert_eq; cbn; exists k; rewrite <- !app_assoc;
      reflexivity.
  - intros Hv. destruct v as [ | | | | |md];
      try (cbn; unfold receive_failed, receive_cleanup; cbn;
           rewrite lookup_insert_eq; cbn; split; reflexivity).
    destruct (Hv md eq_refl) as [Hqr Hmiss]. cbn. rewrite Hqr. cbn.
    rewrite (Hdict md eq_refl Hqr Hmiss). cbn.
    unfold receive_cleanup. cbn. rewrite lookup_insert_eq. cbn.
    split; reflexivity.
Qed.

(** X8.  A header of type [qr_handshake] on the transfer port pairs the
    peer: when it carries a nickname, the handler stores under it the
    address of the connection (not an address declared in the header), the
    declared device class ([android] by default), pinned, with a last-seen
    time 300 seconds ahead, answers with its handshake response, and no
    later sweep removes the entry.  Without a nickname it stores and sends
    nothing; a nickname that cannot be a dictionary key is logged as a
    failed reception.  No case asks the user or touches the file
    system. *)
Theorem handshake_on_transfer_port_pins_peer
  (transfer_id addr : string) (now : Z) (cb : json -> bool) (w : world)
  (text : string) (md : list (string * json)) :
  running w = true ->
  closes (conn w) = true ->
  header_line (conn w) <> [] ->
  decode_utf8 (header_line (conn w)) = Some text ->
  json_loads text = Some (JDict md) ->
  eq_str (get "type" md) "qr_handshake" = true ->
  (forall key,
     truthy (get "nickname" md) = true ->
     hashable (get "nickname" md) = Some key ->
     (exists k,
        trace (exec (handle_item_receive transfer_id addr now cb) w)
        = trace w ++ [TransferAdded transfer_id]
          ++ repeat (SockRecv 1024) k
          ++ [Log (ReceivedMetadata (JDict md));
              Log (DetectedQRHandshake addr);
              Log (QRHandshakeAdded (get "nickname" md)
                     (get_default "device_type" (JStr "android") md) addr);
              SockSend (JsonLine
                (JDict [("type", JStr "qr_handshake_response");
                        ("nickname", JStr (nickname w));
                        ("ip", JStr get_local_ip);
                        ("device_type", JStr "desktop");
                        ("status", JStr "connected")]));
              TransferRemoved transfer_id;
              ReceiveActive false])
     /\ peers (exec (handle_item_receive transfer_id addr now cb) w)
        = <[key := {| ip := JStr addr;
                      last_seen := now + 300;
                      device_type :=
                        get_default "device_type" (JStr "android") md;
                      qr_connected := true |}]> (peers w)
     /\ forall sweep_time,
          peers (exec (cleanup_sweep sweep_time)
                   (exec (handle_item_receive transfer_id addr now cb) w))
            !! key
          = Some {| ip := JStr addr;
                    last_seen := now + 300;
                    device_type :=
                      get_default "device_type" (JStr "android") md;
                    qr_connected := true |})
  /\ (truthy (get "nickname" md) = false ->
      (exists k,
         trace (exec (handle_item_receive transfer_id addr now cb) w)
         = trace w ++ [TransferAdded transfer_id]
           ++ repeat (SockRecv 1024) k
           ++ [Log (ReceivedMetadata (JDict md));
               Log (DetectedQRHandshake addr);
               TransferRemoved transfer_id;
               ReceiveActive false])
      /\ peers (exec (handle_item_receive transfer_id addr now cb) w)
         = peers w)
  /\ (truthy (get "nickname" md) = true ->
      hashable (get "nickname" md) = None ->
      (exists k,
         trace (exec (handle_item_receive transfer_id addr now cb) w)
         = trace w ++ [TransferAdded transfer_id]
           ++ repeat (SockRecv 1024) k
           ++ [Log (ReceivedMetadata (JDict md));
               Log (DetectedQRHandshake addr);
               Log (ReceiveFailed TypeError);
               TransferRemoved transfer_id;
               ReceiveActive false])
      /\ peers (exec (handle_item_receive transfer_id addr now cb) w)
         = peers w)
  /\ fs (exec (handle_item_receive transfer_id addr now cb) w) = fs w.
Proof.
  intros Hrun Hc Hne Hdec Hload Hqr.
  destruct (header_loop_reads transfer_id addr w Hrun Hc)
    as (rem & c1 & k & Hread & Hc1).
  assert (Hsweep : forall W key entry sweep_time,
            peers W = <[key := entry]> (peers w) ->
            qr_connected entry = true ->
            peers (exec (cleanup_sweep sweep_time) W) !! key = Some entry).
  { intros W key entry sweep_time HW Hpin.
    rewrite cleanup_sweep_lookup, HW, lookup_insert_eq.
    unfold is_stale. rewrite Hpin, andb_false_r. reflexivity. }
  unfold exec in *. unfold handle_item_receive, receive_session, loop_fuel.
  cbn. fold (registered transfer_id addr w). rewrite Hread. cbn.
  unfold receive_request, decode, loads, json_get, json_get_default,
    hash_key, our_handshake_response.
  destruct (header_line (conn w)) as [|x hd]; [contradiction|]. cbn.
  rewrite Hdec. cbn. rewrite Hload. cbn. rewrite Hqr. cbn.
  split; [|split; [|split]].
  - intros key Ht Hk. rewrite Ht. cbn. rewrite Hk. cbn.
    unfold receive_cleanup. cbn. rewrite lookup_insert_eq. cbn.
    split; [exists k; rewrite <- !app_assoc; reflexivity|].
    split; [reflexivity|].
    intros sweep_time. apply Hsweep; reflexivity.
  - intros Ht. rewrite Ht. cbn.
    unfold receive_cleanup. cbn. rewrite lookup_insert_eq. cbn.
    split; [exists k; rewrite <- !app_assoc; reflexivity|reflexivity].
  - intros Ht Hk. rewrite Ht. cbn. rewrite Hk. cbn.
    unfold receive_failed, receive_cleanup. cbn. rewrite lookup_insert_eq. cbn.
    split; [exists k; rewrite <- !app_assoc; reflexivity|reflexivity].
  - destruct (truthy (get "nickname" md)); cbn;
      [destruct (hashable (get "nickname" md)); cbn|];
      unfold receive_failed, receive_cleanup; cbn; rewrite lookup_insert_eq;
      reflexivity.
Qed.

(** X9.  Once the backend is stopped, a connection handed to the handler
    is neither read nor answered: the handler registers the transfer, logs
    that no metadata was received, and cleans up, leaving the pending
    input, the file system and the registry untouched. *)
Theorem stopped_backend_reads_nothing
  (transfer_id addr : string) (now : Z) (cb : json -> bool) (w : world) :
  running w = false ->
  trace (exec (handle_item_receive transfer_id addr now cb) w)
  = trace w ++ [TransferAdded transfer_id;
                Log (NoMetadata addr);
                TransferRemoved transfer_id;
                ReceiveActive false]
  /\ conn (exec (handle_item_receive transfer_id addr now cb) w) = conn w
  /\ fs (exec (handle_item_receive transfer_id addr now cb) w) = fs w
  /\ peers (exec (handle_item_receive transfer_id addr now cb) w) = peers w.
Proof.
  intros Hrun.
  unfold exec, handle_item_receive, receive_session, loop_fuel. cbn.
  unfold read_metadata. cbn. rewrite Hrun. cbn.
  unfold receive_request. cbn.
  unfold receive_cleanup. cbn. rewrite lookup_insert_eq. cbn.
  rewrite <- !app_assoc. repeat split; reflexivity.
Qed.




End RequestProperties.

(** ** What a reception can do to the file system *)




(** One read, whatever the connection does: only the pending input and
    the trace change. *)
Lemma recv_any (k : Z) (w : world) :
  exists R c',
    recv k w = (R, with_io c' (trace w ++ [SockRecv k]) w) /\ R <> Ret.
Proof.
  unfold recv. cbn. unfold with_io, emit, set_conn. cbn.
  destruct (conn w) as [|[c cs|e] rest]; cbn;
    try (eexists _, _; split; [reflexivity|discriminate]).
  destruct (len (c :: cs) <=? k); cbn;
    eexists _, _; (split; [reflexivity|discriminate]).
Qed.


Section Footprint.
Context {H : Host}.










End Footprint.

(** ** The outbound send operation, continued *)

(** Decides the equality of two worlds built from an explicit record by
    the setters. *)
Ltac same_world :=
  cbv [emit with_io set_fs set_conn set_peers set_active set_filepath
       set_temp_zip_path offer_header nickname running peers
       active_transfers fs conn trace filepath temp_zip_path];
  rewrite <- ?app_assoc; reflexivity.

(** The same when the traces hold no existential variable and are bracketed
    differently. *)
Ltac same_world_flat :=
  cbv [emit with_io set_fs set_conn set_peers set_active set_filepath
       set_temp_zip_path offer_header nickname running peers
       active_transfers fs conn trace filepath temp_zip_path];
  repeat first [rewrite <- app_assoc | progress cbn [app]]; reflexivity.

Lemma has_slash_append (a p : string) :
  has_slash (String.append a p) = has_slash a || has_slash p.
Proof.
  induction a as [|c a IH]; [reflexivity|].
  rewrite append_cons. cbn. rewrite IH. apply orb_assoc.
Qed.

Lemma ends_with_slash_has_slash (a : string) :
  ends_with_slash a = true -> has_slash a = true.
Proof.
  induction a as [|c a IH]; cbn; [discriminate|].
  destruct a as [|d a'].
  - intros ->. reflexivity.
  - intros Hs. rewrite (IH Hs). apply orb_true_r.
Qed.

Lemma basename_step (c : ascii) (rest : string) :
  has_slash rest = true -> basename (String c rest) = basename rest.
Proof.
  intros Hs. cbn. rewrite Hs. destruct (Ascii.eqb c SLASH); reflexivity.
Qed.

Lemma basename_after_slash (a p : string) :
  basename (String.append a (String SLASH p)) = basename p.
Proof.
  induction a as [|c a IH].
  - rewrite append_nil. cbn. reflexivity.
  - rewrite append_cons, basename_step; [exact IH|].
    rewrite has_slash_append. cbn. apply orb_true_r.
Qed.

Lemma basename_after_directory (a p : string) :
  ends_with_slash a = true -> basename (String.append a p) = basename p.
Proof.
  induction a as [|c a IH]; [discriminate|].
  destruct a as [|d a'].
  - cbn [ends_with_slash]. intros Hc. rewrite append_cons, append_nil.
    cbn. rewrite Hc. reflexivity.
  - intros Hs. rewrite append_cons.
    rewrite basename_step; [apply IH; exact Hs|].
    rewrite has_slash_append.
    rewrite (ends_with_slash_has_slash (String d a') Hs). reflexivity.
Qed.

(** [os.path.basename(os.path.join(a, p))] is [os.path.basename(p)]. *)
Lemma basename_join (a p : string) : basename (join a p) = basename p.
Proof.
  unfold join. destruct (starts_with_slash p); [reflexivity|].
  destruct (String.eqb_spec a "") as [->|Hne]; cbn [orb].
  - rewrite append_nil. reflexivity.
  - destruct (ends_with_slash a) eqn:He.
    + apply basename_after_directory. exact He.
    + apply basename_after_slash.
Qed.

Lemma ztake_cons (k : Z) (c : byte) (data : bytes) :
  0 < k -> ztake k (c :: data) = c :: ztake (k - 1) data.
Proof.
  intros Hk. unfold ztake. fold ztake. destruct (Z.leb_spec k 0); [lia|].
  reflexivity.
Qed.

(** The read-and-send loop sends the content in order, in non-empty chunks
    of at most [BUFFER_SIZE] bytes. *)
Lemma send_chunks_sends (fuel : nat) (content : bytes) (w : world) :
  (length content < fuel)%nat ->
  exists parts,
    send_chunks fuel content w =
      (Val tt,
       with_io (conn w)
         (trace w ++ List.map (fun part => SockSend (Raw part)) parts) w)
    /\ List.concat parts = content
    /\ Forall (fun part => part <> [] /\ len part <= BUFFER_SIZE) parts.
Proof.
  revert content w. induction fuel as [|fuel IH]; intros content w Hfuel.
  { lia. }
  unfold send_chunks. fold send_chunks.
  destruct content as [|c rest].
  { exists []. cbn. rewrite app_nil_r, with_io_same.
    split; [reflexivity|]. split; [reflexivity|constructor]. }
  rewrite ztake_cons by (unfold BUFFER_SIZE; lia). cbn.
  pose proof (length_zdrop BUFFER_SIZE c rest ltac:(unfold BUFFER_SIZE; lia))
    as Hdrop.
  match goal with |- context [send_chunks fuel ?d ?w1] =>
    destruct (IH d w1) as (parts & -> & Hcat & Hall)
  end.
  { cbn in Hfuel. lia. }
  exists ((c :: ztake (BUFFER_SIZE - 1) rest) :: parts).
  split; [|split].
  - unfold with_io, emit. cbn. rewrite <- app_assoc. reflexivity.
  - cbn [concat]. rewrite Hcat.
    rewrite <- (ztake_cons BUFFER_SIZE c rest) by (unfold BUFFER_SIZE; lia).
    apply ztake_zdrop.
  - constructor; [|exact Hall]. split; [discriminate|].
    rewrite <- (ztake_cons BUFFER_SIZE c rest) by (unfold BUFFER_SIZE; lia).
    apply len_ztake_le. unfold BUFFER_SIZE. lia.
Qed.

Lemma sends_raw_parts (parts : list bytes) :
  sends (List.map (fun part => SockSend (Raw part)) parts)
  = List.map Raw parts
  /\ payload_sent (List.map (fun part => SockSend (Raw part)) parts)
     = List.concat parts
  /\ send_errors (List.map (fun part => SockSend (Raw part)) parts) = [].
Proof.
  induction parts as [|part parts (IH1 & IH2 & IH3)]; cbn; [auto|].
  rewrite IH1, IH2, IH3. auto.
Qed.

Section SendMore.
Context {H : Host}.

(** An offer the peer answers with [ACCEPT]: the whole file follows the
    header. *)
Lemma offer_item_accepted (peer_nickname : pykey) (address item_name path
  item_type : string) (content line : bytes) (w : world) :
  fs w !! path = Some (File content) ->
  first_line (conn w) = Some line ->
  bytes_eqb (strip line) (b "ACCEPT") = true ->
  exists c' k parts,
    offer_item peer_nickname (JStr address) item_name path item_type None w =
    (Val tt,
     with_io c'
       (trace w
        ++ [Log (Connecting peer_nickname (JStr address)); SockOpen;
            SockConnect address TCP_PORT;
            SockSend (JsonLine (offer_header w path item_type content))]
        ++ repeat (SockRecv 8192) k
        ++ [SendActive true; FsOpenRead path]
        ++ List.map (fun part => SockSend (Raw part)) parts
        ++ [SendCompleted item_name; Log (ItemSent item_name peer_nickname)])
       w)
    /\ List.concat parts = content
    /\ Forall (fun part => part <> [] /\ len part <= BUFFER_SIZE) parts.
Proof.
  intros Hfile Hline Hacc. unfold offer_item, os_path_getsize, connect,
    loop_fuel, open_rb. cbn. rewrite Hfile. cbn.
  match goal with |- context [readline ?fu [] ?w1] =>
    destruct (readline_first_line fu [] w1 line) as (c' & k & Hrun)
  end; try reflexivity.
  { cbn. lia. }
  { exact Hline. }
  rewrite Hrun. cbn. rewrite Hacc. cbn. rewrite Hfile. cbn.
  match goal with |- context [send_chunks ?fu content ?w1] =>
    destruct (send_chunks_sends fu content w1) as (parts & -> & Hcat & Hall)
  end; [lia|].
  exists c', k, parts. split; [|split; assumption]. f_equal.
  destruct w as [n0 r0 p0 a0 f0 c0 t0 fp0 tz0]. same_world.
Qed.

(** A send of a file that the peer accepts, action by action. *)
Lemma send_item_accepted_run (peer_nickname : pykey)
  (item_name address : string) (w : world) (info : peer_info)
  (content line : bytes) :
  peers w !! peer_nickname = Some info ->
  ip info = JStr address ->
  fs w !! join SHARE_DIR item_name = Some (File content) ->
  first_line (conn w) = Some line ->
  bytes_eqb (strip line) (b "ACCEPT") = true ->
  exists c' k parts,
    send_item peer_nickname item_name None w =
    (Val tt,
     with_io c'
       (trace w
        ++ [Log (Connecting peer_nickname (JStr address)); SockOpen;
            SockConnect address TCP_PORT;
            SockSend (JsonLine
              (JDict [("filename", JStr (basename item_name));
                      ("filesize", JInt (len content));
                      ("type", JStr "file");
                      ("sender_nickname", JStr (nickname w))]))]
        ++ repeat (SockRecv 8192) k
        ++ [SendActive true; FsOpenRead (join SHARE_DIR item_name)]
        ++ List.map (fun part => SockSend (Raw part)) parts
        ++ [SendCompleted item_name; Log (ItemSent item_name peer_nickname)]
        ++ [SendActive false])
       (set_temp_zip_path None w))
    /\ List.concat parts = content
    /\ Forall (fun part => part <> [] /\ len part <= BUFFER_SIZE) parts.
Proof.
  intros Hpeer Hip Hitem Hline Hacc.
  unfold send_item, get_peer_dict, os_path_exists, os_path_isdir. cbn.
  rewrite lookup_fmap, Hpeer. cbn. rewrite Hitem. cbn. rewrite ?Hitem, Hip.
  unfold send_session, prepare_item, send_cleanup. cbn.
  match goal with |- context [offer_item _ _ _ _ _ _ ?w1] =>
    destruct (offer_item_accepted peer_nickname address item_name
                (join SHARE_DIR item_name) "file" content line w1)
      as (c' & k & parts & Hrun & Hcat & Hall)
  end; try assumption.
  rewrite Hrun. cbn. exists c', k, parts.
  split; [|split; assumption]. f_equal.
  unfold offer_header, len. rewrite basename_join.
  destruct w as [n0 r0 p0 a0 f0 c0 t0 fp0 tz0]. same_world_flat.
Qed.

(** X12.  When the peer answers the offer of a file with [ACCEPT], the
    sender transmits the header (base name, size in bytes, type [file], own
    nickname) and then the content of the file, whole and in order, in
    non-empty chunks of at most [BUFFER_SIZE] bytes; it reports and logs
    the completion, logs no error, ends by reporting the send as no longer
    active, and leaves the file system as it was. *)
Theorem accepted_offer_sends_whole_file (peer_nickname : pykey)
  (item_name address : string) (w : world) (info : peer_info)
  (content line : bytes) :
  peers w !! peer_nickname = Some info ->
  ip info = JStr address ->
  fs w !! join SHARE_DIR item_name = Some (File content) ->
  first_line (conn w) = Some line ->
  bytes_eqb (strip line) (b "ACCEPT") = true ->
  outcome (send_item peer_nickname item_name None) w = Val tt
  /\ fs (exec (send_item peer_nickname item_name None) w) = fs w
  /\ exists new parts,
      trace (exec (send_item peer_nickname item_name None) w) = trace w ++ new
      /\ sends new
         = JsonLine (JDict [("filename", JStr (basename item_name));
                            ("filesize", JInt (len content));
                            ("type", JStr "file");
                            ("sender_nickname", JStr (nickname w))])
           :: List.map Raw parts
      /\ List.concat parts = content
      /\ Forall (fun part => part <> [] /\ len part <= BUFFER_SIZE) parts
      /\ In (SendCompleted item_name) new
      /\ In (Log (ItemSent item_name peer_nickname)) new
      /\ send_errors new = []
      /\ last new = Some (SendActive false).
Proof.
  intros Hpeer Hip Hitem Hline Hacc.
  destruct (send_item_accepted_run peer_nickname item_name address w info
              content line Hpeer Hip Hitem Hline Hacc)
    as (c' & k & parts & Hrun & Hcat & Hall).
  unfold exec, outcome. rewrite Hrun. cbn [fst snd].
  split; [reflexivity|]. split; [reflexivity|].
  destruct (recvs_unsent 8192 k) as (Hp & He & Hs & Ha).
  destruct (sends_raw_parts parts) as (Hs1 & Hs2 & Hs3).
  eexists _, parts. split; [reflexivity|].
  split.
  { rewrite !sends_app, Hs, Hs1. cbn. rewrite app_nil_r. reflexivity. }
  split; [exact Hcat|]. split; [exact Hall|].
  split; [rewrite !in_app_iff; cbn; intuition auto|].
  split; [rewrite !in_app_iff; cbn; intuition auto|].
  split.
  { rewrite !send_errors_app, He, Hs3. reflexivity. }
  rewrite !app_assoc. apply last_snoc.
Qed.

(** X13.  Sending an item that is not in the share directory only logs
    that the item was not found: no socket is opened and the activity
    callback is not called, since the method returns before its [try]
    statement. *)
Theorem missing_item_is_only_logged (peer_nickname : pykey)
  (item_name : string) (refused : option exn) (w : world) (info : peer_info) :
  peers w !! peer_nickname = Some info ->
  fs w !! join SHARE_DIR item_name = None ->
  outcome (send_item peer_nickname item_name refused) w = Val tt
  /\ exec (send_item peer_nickname item_name refused) w
     = emit (Log (ItemNotFound item_name)) w.
Proof.
  intros Hpeer Hitem.
  unfold exec, outcome, send_item, get_peer_dict, os_path_exists. cbn.
  rewrite lookup_fmap, Hpeer. cbn. rewrite Hitem. cbn. split; reflexivity.
Qed.

(** [readline], whatever the connection does. *)
Lemma readline_any (fuel : nat) (acc : bytes) (w : world) :
  exists R c' k,
    readline fuel acc w =
    (R, with_io c' (trace w ++ repeat (SockRecv 8192) k) w).
Proof.
  revert acc w. induction fuel as [|fuel IH]; intros acc w.
  { exists (Exc OutOfFuel), (conn w), 0%nat. cbn. rewrite app_nil_r.
    rewrite with_io_same. reflexivity. }
  unfold readline. fold readline. cbn.
  destruct (recv_any 8192 w) as (R & c1 & -> & HR).
  destruct R as [[|x d]| |e]; try (eexists _, c1, 1%nat; reflexivity).
  destruct (split_newline (acc ++ x :: d)) as [[head tail]|];
    [eexists _, c1, 1%nat; reflexivity|].
  destruct (IH (acc ++ x :: d) (with_io c1 (trace w ++ [SockRecv 8192]) w))
    as (R & c' & k & ->).
  exists R, c', (S k). cbn. rewrite <- app_assoc. reflexivity.
Qed.

(** An offer, whatever the peer does: only the pending input and the trace
    change. *)
Lemma offer_item_any (peer_nickname : pykey) (peer_ip : json)
  (item_name path item_type : string) (refused : option exn) (w : world) :
  exists R c' new,
    offer_item peer_nickname peer_ip item_name path item_type refused w =
    (R, with_io c' (trace w ++ new) w).
Proof.
  destruct w as [n0 r0 p0 a0 f0 c0 t0 fp0 tz0].
  unfold offer_item, os_path_getsize, connect, loop_fuel, open_rb. cbn.
  destruct (f0 !! path) as [[content|]|] eqn:Hfile; cbn;
    try (exists (Exc OSError), c0, []; rewrite app_nil_r; reflexivity).
  destruct peer_ip as [ | | |address| | ]; cbn;
    try (eexists _, _, _; f_equal; same_world).
  destruct refused as [e|]; cbn;
    [eexists _, _, _; f_equal; same_world|].
  match goal with |- context [readline ?fu [] ?w1] =>
    destruct (readline_any fu [] w1) as (R & c' & k & ->)
  end.
  destruct R as [line| |e]; cbn;
    try (eexists _, _, _; f_equal; same_world).
  destruct (bytes_eqb (strip line) (b "ACCEPT")); cbn;
    [|eexists _, _, _; f_equal; same_world].
  rewrite Hfile. cbn.
  match goal with |- context [send_chunks ?fu content ?w1] =>
    destruct (send_chunks_sends fu content w1) as (parts & -> & _)
  end; [lia|].
  cbn. eexists _, _, _. f_equal. same_world.
Qed.

(** X14.  Whatever the peer does (refuse the connection, time out, close,
    reject, accept), sending a file returns normally, leaves the file
    system and the registry as they were, and ends by reporting the send
    as no longer active. *)
Theorem send_of_file_leaves_state (peer_nickname : pykey)
  (item_name : string) (refused : option exn) (w : world) (info : peer_info)
  (content : bytes) :
  peers w !! peer_nickname = Some info ->
  fs w !! join SHARE_DIR item_name = Some (File content) ->
  outcome (send_item peer_nickname item_name refused) w = Val tt
  /\ fs (exec (send_item peer_nickname item_name refused) w) = fs w
  /\ peers (exec (send_item peer_nickname item_name refused) w) = peers w
  /\ last (trace (exec (send_item peer_nickname item_name refused) w))
     = Some (SendActive false).
Proof.
  intros Hpeer Hitem.
  unfold exec, outcome, send_item, get_peer_dict, os_path_exists,
    os_path_isdir. cbn.
  rewrite lookup_fmap, Hpeer. cbn. rewrite Hitem. cbn. rewrite ?Hitem.
  unfold send_session, prepare_item, send_cleanup. cbn.
  match goal with |- context [offer_item ?a ?b ?c ?d ?e ?f ?w1] =>
    destruct (offer_item_any a b c d e f w1) as (R & c' & new & ->)
  end.
  destruct R as [[]| |e]; cbn; [| |destruct e; cbn];
    (split; [reflexivity|]); (split; [reflexivity|]);
    (split; [reflexivity|]); apply last_snoc.
Qed.

(** X15.  When the connection cannot be made, because the network refuses
    it or because the stored address of the peer is not a string (a peer
    announced without [ip]), nothing is sent and the send is never
    reported as active; the failure is logged, a time-out as such and any
    other error with its cause, and the send is reported as no longer
    active. *)
Theorem failed_connection_sends_nothing (peer_nickname : pykey)
  (item_name : string) (refused : option exn) (w : world) (info : peer_info)
  (content : bytes) (e : exn) :
  peers w !! peer_nickname = Some info ->
  fs w !! join SHARE_DIR item_name = Some (File content) ->
  (exists address, ip info = JStr address /\ refused = Some e)
  \/ ((forall address, ip info <> JStr address) /\ e = TypeError) ->
  exists new,
    trace (exec (send_item peer_nickname item_name refused) w) = trace w ++ new
    /\ sends new = []
    /\ send_errors new
       = [match e with
          | SocketTimeout => SendTimeout peer_nickname
          | _ => SendFailed item_name e
          end]
    /\ ~ In (SendActive true) new
    /\ In (SendActive false) new.
Proof.
  intros Hpeer Hitem Hcause.
  unfold exec, send_item, get_peer_dict, os_path_exists, os_path_isdir. cbn.
  rewrite lookup_fmap, Hpeer. cbn. rewrite Hitem. cbn. rewrite ?Hitem.
  unfold send_session, prepare_item, send_cleanup, offer_item,
    os_path_getsize, connect. cbn. rewrite Hitem. cbn.
  destruct Hcause as [(address & -> & ->)|[Hip ->]].
  - cbn. destruct e; cbn; eexists; rewrite <- ?app_assoc;
      (split; [reflexivity|]); cbn; repeat split; auto;
      intuition discriminate.
  - destruct (ip info) as [ | | |address| | ];
      try (exfalso; eapply Hip; reflexivity); cbn;
      eexists; rewrite <- ?app_assoc; (split; [reflexivity|]); cbn;
      repeat split; auto; intuition discriminate.
Qed.

(** X16.  Sending a folder packs it into an archive in the temporary
    directory.  Whatever the peer then does, the method returns normally
    having removed the archive: the file system is the one the packing
    left, without the archive file, and the last action reports the send
    as no longer active. *)
Theorem folder_archive_is_always_removed (peer_nickname : pykey)
  (item_name : string) (refused : option exn) (w : world) (info : peer_info)
  (archive : string) (f' : gmap string node) :
  peers w !! peer_nickname = Some info ->
  fs w !! join SHARE_DIR item_name = Some Dir ->
  make_archive (join gettempdir item_name) SHARE_DIR item_name (fs w)
    = Some (archive, f') ->
  outcome (send_item peer_nickname item_name refused) w = Val tt
  /\ fs (exec (send_item peer_nickname item_name refused) w)
     = match f' !! archive with
       | Some (File _) => delete archive f'
       | _ => f'
       end
  /\ (forall content,
        fs (exec (send_item peer_nickname item_name refused) w) !! archive
        <> Some (File content))
  /\ last (trace (exec (send_item peer_nickname item_name refused) w))
     = Some (SendActive false).
Proof.
  intros Hpeer Hitem Hmake.
  unfold exec, outcome, send_item, get_peer_dict, os_path_exists,
    os_path_isdir. cbn.
  rewrite lookup_fmap, Hpeer. cbn. rewrite Hitem. cbn. rewrite ?Hitem.
  unfold send_session, prepare_item, send_cleanup, shutil_make_archive,
    os_path_exists, os_remove. cbn. rewrite Hmake. cbn.
  match goal with |- context [offer_item ?a ?b ?c ?d ?e ?f ?w1] =>
    destruct (offer_item_any a b c d e f w1) as (R & c' & new & ->)
  end.
  assert (Hgone : forall content,
            match f' !! archive with
            | Some (File _) => delete archive f'
            | _ => f'
            end !! archive <> Some (File content)).
  { intros content. destruct (f' !! archive) as [[c0|]|] eqn:Hl;
      rewrite ?lookup_delete_eq, ?Hl; discriminate. }
  destruct R as [[]| |e]; cbn; [| |destruct e; cbn];
    destruct (f' !! archive) as [[c0|]|] eqn:Hl; cbn; rewrite ?Hl; cbn;
    (split; [reflexivity|]); (split; [reflexivity|]);
    (split; [first [exact Hgone | intros; rewrite ?lookup_delete_eq, ?Hl;
                                   discriminate]|]);
    apply last_snoc.
Qed.

End SendMore.

(** ** The QR pairing handler, continued *)

Lemma reads_app (t1 t2 : list event) :
  reads (t1 ++ t2) = (reads t1 + reads t2)%nat.
Proof.
  induction t1 as [|e t1 IH]; cbn; [reflexivity|].
  destruct e; cbn; rewrite IH; reflexivity.
Qed.

Lemma reads_repeat (bufsize : Z) (k : nat) :
  reads (repeat (SockRecv bufsize) k) = k.
Proof. induction k as [|k IH]; cbn; [reflexivity|]. rewrite IH. reflexivity. Qed.

Lemma length_ztake_zdrop (k : Z) (data : bytes) :
  (length (ztake k data) + length (zdrop k data))%nat = length data.
Proof. rewrite <- length_app, ztake_zdrop. reflexivity. Qed.

(** One read returns at most [bufsize] bytes, which are the bytes it takes
    from the pending input. *)
Lemma recv_bounded (k : Z) (w : world) :
  0 < k ->
  exists R c',
    recv k w = (R, with_io c' (trace w ++ [SockRecv k]) w)
    /\ (forall data, R = Val data -> len data <= k)
    /\ pending_bytes (conn w)
       = (match R with Val data => length data | _ => O end
          + pending_bytes c')%nat.
Proof.
  intros Hk. unfold recv. cbn. unfold with_io, emit, set_conn. cbn.
  destruct (conn w) as [|[c cs|e] rest]; cbn.
  - eexists _, _. split; [reflexivity|]. split; [|reflexivity].
    intros data [= <-]. unfold len. cbn. lia.
  - destruct (Z.leb_spec (len (c :: cs)) k); cbn;
      eexists _, _; (split; [reflexivity|]); (split; [intros data [= <-]|]).
    + assumption.
    + cbn. reflexivity.
    + apply len_ztake_le; lia.
    + rewrite pending_segment.
      pose proof (length_ztake_zdrop k (c :: cs)) as Hl. cbn in Hl. lia.
  - eexists _, _. split; [reflexivity|]. split; [discriminate|reflexivity].
Qed.

(** The read loop of the pairing handler, whatever the connection does: it
    reads at most 4096 times and takes fewer than 4096 + 1024 bytes from
    the connection. *)
Lemma read_peer_info_bounded (fuel : nat) (acc : bytes) (w : world) :
  exists R c' k,
    read_peer_info fuel acc w =
      (R, with_io c' (trace w ++ repeat (SockRecv 1024) k) w)
    /\ Z.of_nat k <= Z.max 0 (4096 - len acc)
    /\ Z.of_nat (pending_bytes (conn w)) + len acc
       <= Z.of_nat (pending_bytes c') + Z.max (len acc) (4095 + 1024).
Proof.
  revert acc w. induction fuel as [|fuel IH]; intros acc w.
  { exists (Exc OutOfFuel), (conn w), 0%nat. cbn. rewrite app_nil_r.
    rewrite with_io_same. split; [reflexivity|]. split; lia. }
  unfold read_peer_info. fold read_peer_info.
  destruct (negb (has_newline acc) && (len acc <? 4096)) eqn:Hgo.
  2:{ exists (Val acc), (conn w), 0%nat. cbn. rewrite app_nil_r.
      rewrite with_io_same. split; [reflexivity|]. split; lia. }
  apply andb_true_iff in Hgo as [_ Hlen]. apply Z.ltb_lt in Hlen.
  pose proof (len_nonneg acc) as Hacc.
  cbn. destruct (recv_bounded 1024 w ltac:(lia)) as (R & c1 & -> & Hb & Hp).
  destruct R as [[|x d]| |e]; cbn in Hp.
  - exists (Val acc), c1, 1%nat. split; [reflexivity|]. split; lia.
  - specialize (Hb (x :: d) eq_refl).
    destruct (IH (acc ++ x :: d) (with_io c1 (trace w ++ [SockRecv 1024]) w))
      as (R & c' & k & -> & Hk & Hd).
    cbn [conn with_io] in Hd.
    rewrite len_app in Hk, Hd. unfold len in *. cbn [length] in *.
    exists R, c', (S k). cbn. rewrite <- app_assoc.
    split; [reflexivity|]. split; lia.
  - exists Ret, c1, 1%nat. split; [reflexivity|]. split; lia.
  - exists (Exc e), c1, 1%nat. split; [reflexivity|]. split; lia.
Qed.

Section PairingMore.
Context {H : Host}.

(** The wait for the identity of the peer, whatever the connection does:
    bounded reads, then at most one pinned entry stored. *)
Lemma await_peer_info_any (addr : string) (now : Z) (w : world) :
  exists R c' k new known,
    await_peer_info addr now w =
      (R, with_io c' (trace w ++ repeat (SockRecv 1024) k ++ new)
            (set_peers (fun _ => known) w))
    /\ (k <= 4096)%nat
    /\ (pending_bytes (conn w) <= pending_bytes c' + (4095 + 1024))%nat
    /\ reads new = O
    /\ (known = peers w
        \/ exists key peer_ip dev,
             known = <[key := paired_entry peer_ip dev now]> (peers w)).
Proof.
  destruct w as [n0 r0 p0 a0 f0 c0 t0 fp0 tz0].
  unfold await_peer_info, loop_fuel. cbn.
  match goal with |- context [read_peer_info ?fu [] ?w1] =>
    destruct (read_peer_info_bounded fu [] w1) as (R & c' & k & -> & Hk & Hp)
  end.
  cbn [conn] in Hp. change (len []) with 0 in *.
  assert (Hk' : (k <= 4096)%nat) by lia.
  assert (Hp' : (pending_bytes c0 <= pending_bytes c' + (4095 + 1024))%nat)
    by lia.
  clear Hk Hp.
  unfold decode, loads, json_get, json_get_default, hash_key.
  destruct R as [[|x data]| |e]; cbn;
    try (exists (Val tt), c', k, [], p0; rewrite app_nil_r;
         repeat split; auto; fail);
    try (eexists _, c', k, [], p0; rewrite app_nil_r;
         repeat split; auto; fail).
  destruct (decode_utf8 (x :: data)) as [text|]; cbn;
    [|eexists _, c', k, [], p0; rewrite app_nil_r; repeat split; auto].
  destruct (json_loads (str_strip text)) as [v|]; cbn;
    [|eexists _, c', k, [_], p0; split; [f_equal; same_world|];
      repeat split; auto].
  destruct v as [ | | | | |peer]; cbn;
    try (eexists _, c', k, [_], p0; split; [f_equal; same_world|];
         repeat split; auto; fail).
  destruct (truthy (get "nickname" peer)); cbn;
    [|eexists _, c', k, [_], p0; split; [f_equal; same_world|];
      repeat split; auto].
  destruct (hashable (get "nickname" peer)) as [key|]; cbn;
    [|eexists _, c', k, [_], p0; split; [f_equal; same_world|];
      repeat split; auto].
  eexists _, c', k, [_; _], _. split; [f_equal; same_world|].
  repeat split; auto. right. eexists _, _, _. reflexivity.
Qed.

(** X17.  The pairing handler bounds what it accepts from a peer, whatever
    the peer sends: it reads from the connection at most 4096 times and
    takes fewer than 4096 + 1024 bytes from it. *)
Theorem pairing_read_is_bounded (addr : string) (now : Z) (w : world) :
  (reads (trace (exec (handle_qr_connection addr now) w))
   <= reads (trace w) + 4096)%nat
  /\ (pending_bytes (conn w)
      <= pending_bytes (conn (exec (handle_qr_connection addr now) w))
         + (4095 + 1024))%nat.
Proof.
  unfold exec, handle_qr_connection, qr_session, our_identity. cbn.
  match goal with |- context [await_peer_info addr now ?w1] =>
    destruct (await_peer_info_any addr now w1)
      as (R & c' & k & new & known & -> & Hk & Hp & Hr & _)
  end.
  cbn [conn trace emit] in *.
  destruct R as [[]| |e]; cbn; [| |destruct e; cbn];
    rewrite ?reads_app, ?reads_repeat, ?Hr; cbn; split; lia.
Qed.

(** X18.  Whatever the connection delivers, the pairing handler leaves
    the file system and the table of active transfers untouched, and the
    registry either as it was or with exactly one entry written: pinned,
    with a last-seen time 300 seconds ahead. *)
Theorem pairing_only_adds_pinned_entries (addr : string) (now : Z)
  (w : world) :
  fs (exec (handle_qr_connection addr now) w) = fs w
  /\ active_transfers (exec (handle_qr_connection addr now) w)
     = active_transfers w
  /\ (peers (exec (handle_qr_connection addr now) w) = peers w
      \/ exists key peer_ip dev,
           peers (exec (handle_qr_connection addr now) w)
           = <[key := {| ip := peer_ip;
                         last_seen := now + 300;
                         device_type := dev;
                         qr_connected := true |}]> (peers w)).
Proof.
  unfold exec, handle_qr_connection, qr_session, our_identity. cbn.
  match goal with |- context [await_peer_info addr now ?w1] =>
    destruct (await_peer_info_any addr now w1)
      as (R & c' & k & new & known & -> & _ & _ & _ & Hknown)
  end.
  cbn [peers emit] in Hknown.
  destruct R as [[]| |e]; cbn; [| |destruct e; cbn];
    (split; [reflexivity|]); (split; [reflexivity|]); exact Hknown.
Qed.

(** X19.  A pairing attempt that gets no answer.  When the peer closes
    the connection at once, the handler ends silently after its single
    read; when the first read fails, the handler logs a time-out as such
    and any other failure with its cause.  In both cases nothing but the
    log and the pending input changes. *)
Theorem unanswered_pairing_is_reported (addr : string) (now : Z)
  (w : world) :
  (conn w = [] ->
   exec (handle_qr_connection addr now) w
   = emit (SockRecv 1024)
       (emit (Log (SentOurInfo addr))
          (emit (SockSend (JsonLine (identity_of w))) w)))
  /\ (forall e rest,
        conn w = Fail e :: rest ->
        exec (handle_qr_connection addr now) w
        = emit (Log (match e with
                     | SocketTimeout => QRTimedOut addr
                     | _ => QRHandlerError addr e
                     end))
            (set_conn rest
               (emit (SockRecv 1024)
                  (emit (Log (SentOurInfo addr))
                     (emit (SockSend (JsonLine (identity_of w))) w))))).
Proof.
  split.
  - intros Hconn.
    unfold exec, handle_qr_connection, qr_session, our_identity,
      await_peer_info, loop_fuel. cbn. rewrite Hconn. cbn.
    unfold read_peer_info, recv. change (len [] <? 4096) with true.
    cbn. rewrite Hconn. cbn.
    destruct w as [n0 r0 p0 a0 f0 c0 t0 fp0 tz0]. cbn in Hconn. subst c0.
    unfold identity_of. same_world.
  - intros e rest Hconn.
    unfold exec, handle_qr_connection, qr_session, our_identity,
      await_peer_info, loop_fuel. cbn. rewrite Hconn. cbn.
    unfold read_peer_info, recv. change (len [] <? 4096) with true.
    cbn. rewrite Hconn. cbn.
    destruct w as [n0 r0 p0 a0 f0 c0 t0 fp0 tz0]. cbn in Hconn. subst c0.
    destruct e; cbn; unfold identity_of; same_world.
Qed.

End PairingMore.

(** ** A transfer between two backends *)

Lemma basename_of_name (p : string) : has_slash p = false -> basename p = p.
Proof.
  destruct p as [|c p]; [reflexivity|]. cbn.
  destruct (Ascii.eqb c SLASH); cbn; [discriminate|].
  intros ->. reflexivity.
Qed.

Lemma basename_idempotent (p : string) : basename (basename p) = basename p.
Proof. apply basename_of_name. apply basename_no_slash. Qed.

(** The offer goes out before the sender reads anything: whatever the peer
    answers, the header is the first thing sent. *)
Lemma offer_item_header_first {H : Host} (peer_nickname : pykey)
  (address item_name path item_type : string) (content : bytes) (w : world) :
  fs w !! path = Some (File content) ->
  exists R c' rest,
    offer_item peer_nickname (JStr address) item_name path item_type None w =
    (R, with_io c'
          (trace w
           ++ [Log (Connecting peer_nickname (JStr address)); SockOpen;
               SockConnect address TCP_PORT;
               SockSend (JsonLine (offer_header w path item_type content))]
           ++ rest) w).
Proof.
  intros Hfile.
  destruct w as [n0 r0 p0 a0 f0 c0 t0 fp0 tz0]. cbn in Hfile.
  unfold offer_item, os_path_getsize, connect, loop_fuel, open_rb. cbn.
  rewrite Hfile. cbn.
  match goal with |- context [readline ?fu [] ?w1] =>
    destruct (readline_any fu [] w1) as (R & c' & k & ->)
  end.
  destruct R as [line| |e]; cbn;
    try (eexists _, _, _; f_equal; same_world).
  destruct (bytes_eqb (strip line) (b "ACCEPT")); cbn;
    [|eexists _, _, _; f_equal; same_world].
  rewrite Hfile. cbn.
  match goal with |- context [send_chunks ?fu content ?w1] =>
    destruct (send_chunks_sends fu content w1) as (parts & -> & _)
  end; [lia|].
  cbn. eexists _, _, _. f_equal. same_world.
Qed.

(** The same for [send_item]. *)
Lemma send_item_header_first {H : Host} (peer_nickname : pykey)
  (item_name address : string) (w : world) (info : peer_info)
  (content : bytes) :
  peers w !! peer_nickname = Some info ->
  ip info = JStr address ->
  fs w !! join SHARE_DIR item_name = Some (File content) ->
  exists rest,
    trace (exec (send_item peer_nickname item_name None) w)
    = trace w
      ++ [Log (Connecting peer_nickname (JStr address)); SockOpen;
          SockConnect address TCP_PORT;
          SockSend (JsonLine
            (JDict [("filename", JStr (basename item_name));
                    ("filesize", JInt (len content));
                    ("type", JStr "file");
                    ("sender_nickname", JStr (nickname w))]))]
      ++ rest.
Proof.
  intros Hpeer Hip Hitem.
  unfold exec, send_item, get_peer_dict, os_path_exists, os_path_isdir. cbn.
  rewrite lookup_fmap, Hpeer. cbn. rewrite Hitem. cbn. rewrite ?Hitem, Hip.
  unfold send_session, prepare_item, send_cleanup. cbn.
  match goal with |- context [offer_item _ _ _ _ _ _ ?w1] =>
    destruct (offer_item_header_first peer_nickname address item_name
                (join SHARE_DIR item_name) "file" content w1 Hitem)
      as (R & c' & rest & ->)
  end.
  unfold offer_header, len. rewrite basename_join.
  destruct w as [n0 r0 p0 a0 f0 c0 t0 fp0 tz0].
  destruct R as [[]| |e]; cbn; [| |destruct e; cbn];
    eexists; rewrite <- ?app_assoc; cbn; reflexivity.
Qed.

Lemma wire_stream_cons {E : Encoder} (data : wire) (sent : list wire) :
  wire_stream (data :: sent) = on_wire data ++ wire_stream sent.
Proof. reflexivity. Qed.

Lemma wire_stream_raw {E : Encoder} (parts : list bytes) :
  wire_stream (List.map Raw parts) = List.concat parts.
Proof.
  induction parts as [|part parts IH]; [reflexivity|].
  cbn [List.map]. rewrite wire_stream_cons, IH. reflexivity.
Qed.

Section EndToEnd.

Context (sender receiver : Host) (E : Encoder).

(** X20.  A file offered by [send_item] on one backend and accepted by
    [handle_item_receive] on another arrives intact.  The two runs are
    joined by the connection alone: each side reads the bytes the other
    side sends.  When the header line the sender serialises is read back
    by the receiver as the same object, the user accepts, and the
    destination can be opened, the receiver ends with the content of the
    shared file at the downloads directory joined with the base name of
    the item, both sides report the completion and neither logs a
    failure. *)
Theorem accepted_file_arrives_intact
  (peer_nickname : pykey) (item_name address transfer_id addr : string)
  (now : Z) (cb : json -> bool) (ws wr : world) (info : peer_info)
  (content header : bytes) (text : string) (sent replied : list event) :
  let offer :=
    [("filename", JStr (basename item_name));
     ("filesize", JInt (len content));
     ("type", JStr "file");
     ("sender_nickname", JStr (nickname ws))] in
  let path := join (@DOWNLOAD_DIR receiver) (basename item_name) in
  peers ws !! peer_nickname = Some info ->
  ip info = JStr address ->
  fs ws !! join (@SHARE_DIR sender) item_name = Some (File content) ->
  running wr = true ->
  cb (JDict offer) = true ->
  names_directory path (fs wr) = false ->
  encode_utf8 (String.append (json_dumps (JDict offer)) LF)
    = header ++ [NL] ->
  has_newline header = false ->
  header <> [] ->
  @decode_utf8 receiver header = Some text ->
  @json_loads receiver text = Some (JDict offer) ->
  trace (exec (@send_item sender peer_nickname item_name None) ws)
    = trace ws ++ sent ->
  trace (exec (@handle_item_receive receiver transfer_id addr now cb) wr)
    = trace wr ++ replied ->
  stream (conn wr) = wire_stream (sends sent) ->
  closes (conn wr) = true ->
  stream (conn ws) = wire_stream (sends replied) ->
  fs (exec (@handle_item_receive receiver transfer_id addr now cb) wr)
    = <[path := File content]> (fs wr)
  /\ written path replied = content
  /\ completions replied = [basename item_name]
  /\ failures replied = []
  /\ In (SendCompleted item_name) sent
  /\ send_errors sent = []
  /\ fs (exec (@send_item sender peer_nickname item_name None) ws) = fs ws.
Proof.
  intros offer path Hpeer Hip Hitem Hrun Hcb Hnd Hline Hnl Hne Hdec Hload
    Hsent Hreplied Hin Hclose Hback.
  (* the header reaches the receiver, whatever follows it *)
  destruct (@send_item_header_first sender peer_nickname item_name address
              ws info content Hpeer Hip Hitem) as (rest & Hfirst).
  fold offer in Hfirst.
  assert (Hhead : exists tail, stream (conn wr) = header ++ NL :: tail).
  { rewrite Hin. rewrite Hsent in Hfirst. apply app_inv_head in Hfirst.
    rewrite Hfirst. cbn [app sends]. rewrite wire_stream_cons.
    cbn [on_wire]. rewrite Hline, <- app_assoc. eauto. }
  destruct Hhead as (tail & Hstream).
  (* so the receiver accepts *)
  destruct (read_metadata_closes (S (pending_bytes (conn wr))) []
              (registered transfer_id addr wr))
    as (c1 & k & Hc1 & Hres); cbn; try assumption; try lia; try reflexivity.
  cbn [conn registered emit set_active set_filepath app] in Hres.
  rewrite Hstream in Hres.
  assert (Hs : split_newline (header ++ NL :: tail) = Some (header, tail))
    by (apply split_newline_some; auto).
  rewrite Hs in Hres. destruct Hres as (r & Hread & Hrest).
  assert (Hnd' : names_directory
                   (join (@DOWNLOAD_DIR receiver)
                      (basename (basename item_name))) (fs wr) = false)
    by (rewrite basename_idempotent; exact Hnd).
  destruct (@handle_item_receive_accepted receiver transfer_id addr now cb
              wr header r c1 k text offer (basename item_name) (len content))
    as (R & W & new & Hrun' & -> & Ht & _ & Hw & Hsd & _ & _ & _ & Hgood);
    try assumption; try reflexivity.
  rewrite basename_idempotent in Hw, Hgood. fold path in Hw, Hgood.
  unfold exec in Hreplied |- *. rewrite Hrun' in Hreplied |- *.
  cbn [snd] in Hreplied |- *. rewrite Ht in Hreplied.
  apply app_inv_head in Hreplied. subst new.
  (* so the sender reads ACCEPT and sends the whole file *)
  assert (Hreply : first_line (conn ws) = Some (b "ACCEPT" ++ [NL])).
  { unfold first_line. rewrite Hback, Hsd. cbn [wire_stream List.map
      List.concat on_wire]. rewrite app_nil_r.
    assert (Hsp : split_newline (b "ACCEPT" ++ [NL])
                  = Some (b "ACCEPT", []))
      by (apply split_newline_some; split; reflexivity).
    rewrite Hsp. reflexivity. }
  destruct (@send_item_accepted_run sender peer_nickname item_name address
              ws info content (b "ACCEPT" ++ [NL]) Hpeer Hip Hitem Hreply
              eq_refl)
    as (c' & k' & parts & Hsend & Hcat & _).
  unfold exec in Hsent |- *. rewrite Hsend in Hsent |- *.
  cbn [snd trace with_io fs set_temp_zip_path] in Hsent |- *.
  apply app_inv_head in Hsent. subst sent.
  destruct (recvs_unsent 8192 k') as (_ & He & Hsk & _).
  destruct (sends_raw_parts parts) as (Hs1 & _ & Hs3).
  assert (Htail : tail = content).
  { rewrite !sends_app, Hsk, Hs1 in Hin. cbn [sends app] in Hin.
    rewrite ?app_nil_r, wire_stream_cons, wire_stream_raw, Hcat in Hin.
    cbn [on_wire] in Hin. fold offer in Hin.
    rewrite Hline, <- app_assoc, Hstream in Hin.
    apply app_inv_head in Hin. injection Hin as ->. reflexivity. }
  rewrite Htail in Hrest.
  assert (Hdata : r ++ ztake (len content - len r) (stream c1) = content).
  { rewrite <- Hrest. rewrite len_app. rewrite ztake_all by lia.
    reflexivity. }
  rewrite Hdata in Hw, Hgood.
  destruct (Hgood eq_refl) as (Hcm & _ & Hfile).
  destruct (Hfile eq_refl) as (Hfl & Hfs).
  split; [exact Hfs|]. split; [exact Hw|]. split; [exact Hcm|].
  split; [exact Hfl|].
  split; [rewrite !in_app_iff; cbn; intuition auto|].
  split; [|reflexivity].
  rewrite !send_errors_app, He, Hs3. reflexivity.
Qed.

End EndToEnd.

(** ** An announcement between two backends *)

Lemma broadcast_loop_sends {E : Encoder} (rounds : nat) (message : string)
  (w : world) (data : bytes) (address : string) (port : Z) :
  In (SendTo data address port) (broadcast_loop rounds message w) ->
  data = encode_utf8 message /\ port = UDP_PORT
  /\ (address = "255.255.255.255" \/ address = "<broadcast>")
  /\ running w = true.
Proof.
  induction rounds as [|rounds IH]; cbn; [contradiction|].
  destruct (running w); [|contradiction].
  cbn. intros [Hin|[Hin|[Hin|Hin]]]; try discriminate; auto;
    injection Hin as <- <- <-; auto.
Qed.

Section Announcement.

Context (sender receiver : Host) (E : Encoder).

(** X21.  What [broadcast_presence] sends is what [listen_for_peers]
    understands.  Every datagram of the broadcast goes to the discovery
    port; when it arrives whole at a listener that decodes it back to the
    announced object, a backend of another nickname lists the sender under
    its nickname with the announced address, the device class [desktop]
    and the time of arrival, keeping the pinned flag it had, while a
    backend of the same nickname (the sender itself, or a namesake)
    ignores it altogether. *)
Theorem broadcast_is_discovered_by_others
  (rounds : nat) (ws wr : world) (now : Z) (data : bytes)
  (address : string) (port : Z) (text : string) :
  In (SendTo data address port) (@broadcast_presence sender E rounds ws) ->
  len data <= 1024 ->
  @decode_utf8 receiver data = Some text ->
  @json_loads receiver text = Some (JDict (@presence_message sender ws)) ->
  port = UDP_PORT
  /\ (nickname wr <> nickname ws ->
      peers (exec (@listen_iteration receiver now (Datagram data)) wr)
      = <[KStr (nickname ws) :=
            {| ip := JStr (@get_local_ip sender);
               last_seen := now;
               device_type := JStr "desktop";
               qr_connected := pinned (peers wr) (KStr (nickname ws)) |}]>
          (peers wr))
  /\ (nickname wr = nickname ws ->
      exec (@listen_iteration receiver now (Datagram data)) wr = wr).
Proof.
  intros Hin Hfits Hdec Hload.
  destruct Hin as [Hin|Hin]; [discriminate|].
  apply broadcast_loop_sends in Hin as (-> & -> & _ & _).
  split; [reflexivity|]. split.
  - intros Hother.
    rewrite (@listen_iteration_upsert receiver now _ wr
               (@presence_message sender ws) (KStr (nickname ws))).
    + unfold discovered_entry, pinned. cbn.
      destruct (peers wr !! KStr (nickname ws)); reflexivity.
    + exists (encode_utf8 (json_dumps (JDict (@presence_message sender ws)))),
        text. auto.
    + split; [reflexivity|]. cbn.
      apply String.eqb_neq. congruence.
    + reflexivity.
  - intros Hsame. unfold exec, listen_iteration, try_except, recvfrom,
      decode, loads, json_get, json_get_default, hash_key. cbn.
    rewrite Hdec. cbn. rewrite Hload. cbn.
    rewrite Hsame, String.eqb_refl. cbn. reflexivity.
Qed.

End Announcement.

(** ** The names shown in the list of shared items *)

Lemma prefix_cons (c d : ascii) (old text : string) :
  String.prefix (String c old) (String d text)
  = Ascii.eqb c d && String.prefix old text.
Proof.
  cbn. destruct (ascii_dec c d) as [->|Hne].
  - rewrite Ascii.eqb_refl. reflexivity.
  - apply Ascii.eqb_neq in Hne. rewrite Hne. reflexivity.
Qed.

Lemma prefix_nil (text : string) : String.prefix "" text = true.
Proof. destruct text; reflexivity. Qed.

Lemma prefix_of_nil (c : ascii) (old : string) :
  String.prefix (String c old) "" = false.
Proof. reflexivity. Qed.

Lemma prefix_length (old text : string) :
  String.prefix old text = true ->
  (String.length old <= String.length text)%nat.
Proof.
  revert text. induction old as [|c old IH]; intros [|d text]; cbn [String.length];
    try lia; try discriminate.
  rewrite prefix_cons. intros [_ Hp]%andb_true_iff. apply IH in Hp. lia.
Qed.

Lemma prefix_append (old text more : string) :
  String.prefix old text = true ->
  String.prefix old (String.append text more) = true.
Proof.
  revert text. induction old as [|c old IH]; intros text.
  - intros _. apply prefix_nil.
  - destruct text as [|d text]; [discriminate|].
    rewrite append_cons, !prefix_cons.
    intros [Hc Hp]%andb_true_iff. rewrite Hc, (IH _ Hp). reflexivity.
Qed.

(** A prefix of [text ++ more] no longer than [text] is a prefix of
    [text]. *)
Lemma prefix_within (old text more : string) :
  (String.length old <= String.length text)%nat ->
  String.prefix old (String.append text more) = String.prefix old text.
Proof.
  revert text. induction old as [|c old IH]; intros text Hlen.
  - rewrite !prefix_nil. reflexivity.
  - destruct text as [|d text]; cbn [String.length] in Hlen; [lia|].
    rewrite append_cons, !prefix_cons, IH by lia. reflexivity.
Qed.

(** A prefix of [text ++ more] longer than [text] continues as a prefix of
    [more]. *)
Lemma prefix_beyond (old text more : string) :
  String.prefix old (String.append text more) = true ->
  (String.length text <= String.length old)%nat ->
  String.prefix (str_drop (String.length text) old) more = true.
Proof.
  revert old. induction text as [|d text IH]; intros old Hp Hlen.
  - rewrite append_nil in Hp. destruct old; exact Hp.
  - destruct old as [|c old]; cbn [String.length] in Hlen; [lia|].
    rewrite append_cons, prefix_cons in Hp.
    apply andb_true_iff in Hp as [_ Hp].
    cbn [String.length str_drop]. apply IH; [exact Hp | lia].
Qed.

Lemma str_drop_append (n : nat) (text more : string) :
  (n <= String.length text)%nat ->
  str_drop n (String.append text more)
  = String.append (str_drop n text) more.
Proof.
  revert text. induction n as [|n IH]; intros text Hlen.
  - destruct text; reflexivity.
  - destruct text as [|c text]; cbn [String.length] in Hlen; [lia|].
    rewrite append_cons. cbn [str_drop]. apply IH. lia.
Qed.

Lemma str_drop_length (n : nat) (text : string) :
  String.length (str_drop n text) = (String.length text - n)%nat.
Proof.
  revert text. induction n as [|n IH]; intros [|c text]; cbn; auto.
Qed.

(** The scan does not depend on the fuel, once there is enough of it. *)
Lemma replace_loop_fuel (fuel fuel' : nat) (old new text : string) :
  old <> "" ->
  (String.length text <= fuel)%nat -> (String.length text <= fuel')%nat ->
  replace_loop fuel old new text = replace_loop fuel' old new text.
Proof.
  intros Hold. revert fuel' text.
  induction fuel as [|fuel IH]; intros fuel' text Hf Hf'.
  - destruct text; cbn [String.length] in Hf; [|lia].
    destruct fuel'; cbn; [reflexivity|].
    destruct old; [contradiction|reflexivity].
  - destruct fuel' as [|fuel'].
    { destruct text; cbn [String.length] in Hf'; [|lia].
      cbn. destruct old; [contradiction|reflexivity]. }
    cbn [replace_loop].
    destruct (String.prefix old text) eqn:Hp.
    + f_equal. pose proof (prefix_length _ _ Hp) as Hlen.
      assert (String.length old <> 0)%nat
        by (destruct old; cbn; [contradiction|lia]).
      apply IH; rewrite str_drop_length; lia.
    + destruct text as [|c text]; [reflexivity|].
      cbn [String.length] in Hf, Hf'. f_equal. apply IH; lia.
Qed.

Lemma str_replace_nil (old new : string) :
  old <> "" -> str_replace old new "" = "".
Proof. destruct old; [contradiction|reflexivity]. Qed.

(** One step of [str.replace], by the fuel it needs. *)
Lemma str_replace_step (old new text : string) :
  old <> "" ->
  str_replace old new text =
  if String.prefix old text then
    String.append new (str_replace old new (str_drop (String.length old) text))
  else
    match text with
    | EmptyString => EmptyString
    | String c rest => String c (str_replace old new rest)
    end.
Proof.
  intros Hold. unfold str_replace.
  destruct old as [|o old]; [contradiction|].
  destruct text as [|c text]; [reflexivity|].
  cbn [String.length replace_loop].
  destruct (String.prefix (String o old) (String c text)) eqn:Hp.
  - f_equal. apply replace_loop_fuel; [discriminate| |lia].
    rewrite str_drop_length. cbn [String.length]. lia.
  - reflexivity.
Qed.

Lemma occurs_step (old text : string) :
  occurs old text =
  String.prefix old text
  || match text with
     | EmptyString => false
     | String _ rest => occurs old rest
     end.
Proof. destruct text; reflexivity. Qed.

Lemma occurs_str_drop (old text : string) (n : nat) :
  occurs old (str_drop n text) = true -> occurs old text = true.
Proof.
  revert text. induction n as [|n IH]; intros text.
  - destruct text; auto.
  - destruct text as [|c text]; [auto|]. cbn [str_drop]. intros Hin.
    rewrite occurs_step, (IH _ Hin). apply orb_true_r.
Qed.

(** Without an occurrence there is nothing to replace. *)
Lemma str_replace_absent (old new text : string) :
  old <> "" -> occurs old text = false -> str_replace old new text = text.
Proof.
  intros Hold. induction text as [|c text IH]; intros Hno.
  - apply str_replace_nil, Hold.
  - rewrite occurs_step in Hno. apply orb_false_iff in Hno as [Hp Hrest].
    rewrite str_replace_step, Hp by exact Hold. f_equal. exact (IH Hrest).
Qed.

Lemma length_append (a c : string) :
  String.length (String.append a c) = (String.length a + String.length c)%nat.
Proof.
  induction a as [|x a IH]; [reflexivity|].
  rewrite append_cons. cbn [String.length]. rewrite IH. reflexivity.
Qed.

(** Removing the occurrences of [old] shortens every text that has one. *)
Lemma str_remove_length (old text : string) :
  old <> "" ->
  (String.length (str_replace old "" text) <= String.length text)%nat
  /\ (occurs old text = true ->
      (String.length (str_replace old "" text) < String.length text)%nat).
Proof.
  intros Hold.
  assert (Hpos : (0 < String.length old)%nat)
    by (destruct old; cbn; [contradiction|lia]).
  remember (String.length text) as n eqn:Hn.
  revert text Hn. induction n as [n IH] using lt_wf_ind. intros text Hn.
  rewrite str_replace_step by exact Hold.
  destruct (String.prefix old text) eqn:Hp.
  - pose proof (prefix_length _ _ Hp) as Hlen.
    destruct (IH (String.length (str_drop (String.length old) text))
                ltac:(rewrite str_drop_length; lia) _ eq_refl) as [Hle _].
    rewrite str_drop_length in Hle. rewrite append_nil.
    split; [lia|]. intros _. lia.
  - destruct text as [|c text]; cbn [String.length] in *.
    + split; [lia|]. intros Hin. rewrite occurs_step, Hp in Hin.
      discriminate.
    + destruct (IH (String.length text) ltac:(lia) text eq_refl)
        as [Hle Hlt].
      split; [lia|]. intros Hin. rewrite occurs_step, Hp in Hin.
      cbn in Hin. specialize (Hlt Hin). lia.
Qed.

(** A tag without border, put after a text, is found there only at the
    end or inside the text. *)
Lemma prefix_before_tag (old text : string) :
  bordered old = false -> text <> "" ->
  String.prefix old (String.append text old) = String.prefix old text.
Proof.
  intros Hb Hne.
  destruct (Nat.le_gt_cases (String.length old) (String.length text))
    as [Hlen|Hlen]; [apply prefix_within, Hlen|].
  destruct (String.prefix old (String.append text old)) eqn:Hp.
  - exfalso. apply prefix_beyond in Hp; [|lia].
    assert (Hex : bordered old = true).
    { apply existsb_exists. exists (String.length text).
      split; [|exact Hp]. apply in_seq.
      destruct text; cbn [String.length] in *; [contradiction|lia]. }
    congruence.
  - symmetry. destruct (String.prefix old text) eqn:Hq; [|reflexivity].
    apply prefix_length in Hq. lia.
Qed.

(** So removing the tag from a tagged text is removing it from the text. *)
Lemma str_remove_tagged (old text : string) :
  old <> "" -> bordered old = false ->
  str_replace old "" (String.append text old) = str_replace old "" text.
Proof.
  intros Hold Hb.
  remember (String.length text) as n eqn:Hn.
  revert text Hn. induction n as [n IH] using lt_wf_ind. intros text Hn.
  destruct text as [|c text].
  - rewrite append_nil, str_replace_step by exact Hold.
    assert (Hself : String.prefix old old = true).
    { clear. induction old as [|c old IH]; [reflexivity|].
      rewrite prefix_cons, Ascii.eqb_refl, IH. reflexivity. }
    rewrite Hself.
    assert (Hall : str_drop (String.length old) old = "").
    { clear. induction old as [|c old IH]; [reflexivity|]. exact IH. }
    rewrite Hall, str_replace_nil by exact Hold. reflexivity.
  - rewrite (str_replace_step old "" (String.append (String c text) old)),
      (str_replace_step old "" (String c text)) by exact Hold.
    rewrite prefix_before_tag by (exact Hb || discriminate).
    destruct (String.prefix old (String c text)) eqn:Hp.
    + pose proof (prefix_length _ _ Hp) as Hlen.
      rewrite str_drop_append by exact Hlen. f_equal.
      assert (Hpos : (0 < String.length old)%nat)
        by (destruct old; cbn; [contradiction|lia]).
      apply (IH (String.length (str_drop (String.length old) (String c text))));
        [|reflexivity].
      rewrite str_drop_length. lia.
    + rewrite append_cons. f_equal.
      cbn [String.length] in Hn.
      apply (IH (String.length text)); [lia|reflexivity].
Qed.

(** X22.  The list of shared items shows a folder under its name followed
    by [FOLDER_TAG], and sending or deleting a selected entry names the
    item by removing every [FOLDER_TAG] from the shown text.  The name
    that comes back is the name of the item exactly when the name does not
    contain [FOLDER_TAG] itself: any other shared file or folder is sent,
    or deleted, under a different, shorter name. *)
Theorem selected_name_is_item_name (item_name : string) (is_folder : bool) :
  (selected_item_name (display_text item_name is_folder) = item_name
   <-> occurs FOLDER_TAG item_name = false)
  /\ (occurs FOLDER_TAG item_name = true ->
      (String.length (selected_item_name (display_text item_name is_folder))
       < String.length item_name)%nat).
Proof.
  assert (Hold : FOLDER_TAG <> "") by discriminate.
  assert (Hb : bordered FOLDER_TAG = false) by reflexivity.
  assert (Hsame : selected_item_name (display_text item_name is_folder)
                  = str_replace FOLDER_TAG "" item_name).
  { unfold selected_item_name, display_text. destruct is_folder;
      [apply str_remove_tagged; assumption | reflexivity]. }
  rewrite Hsame.
  destruct (str_remove_length FOLDER_TAG item_name Hold) as [_ Hlt].
  split; [|exact Hlt]. split.
  - intros Heq. destruct (occurs FOLDER_TAG item_name); [|reflexivity].
    specialize (Hlt eq_refl). rewrite Heq in Hlt. lia.
  - apply str_replace_absent, Hold.
Qed.

(** ** Colours of the interface *)

Lemma clamp_range (c : Z) : 0 <= clamp c <= 255.
Proof. unfold clamp. lia. Qed.

(** Offsets of the same sign accumulate on a channel in range. *)
Lemma clamp_accumulates (c d e : Z) :
  0 <= c <= 255 -> (0 <= d /\ 0 <= e) \/ (d <= 0 /\ e <= 0) ->
  clamp (clamp (c + d) + e) = clamp (c + (d + e)).
Proof. unfold clamp. lia. Qed.

Lemma hex_digit_value (d : Z) :
  0 <= d < 16 -> hex_value (hex_digit d) = Some d.
Proof.
  intros Hd.
  assert (Hcases : d = 0 \/ d = 1 \/ d = 2 \/ d = 3 \/ d = 4 \/ d = 5
                   \/ d = 6 \/ d = 7 \/ d = 8 \/ d = 9 \/ d = 10 \/ d = 11
                   \/ d = 12 \/ d = 13 \/ d = 14 \/ d = 15) by lia.
  repeat (destruct Hcases as [->|Hcases]; [reflexivity|]).
  subst d. reflexivity.
Qed.

Lemma hex_value_range (c : ascii) (h : Z) :
  hex_value c = Some h -> 0 <= h < 16.
Proof.
  unfold hex_value.
  repeat match goal with
         | |- context [if ?x then _ else _] => destruct x eqn:?
         end; intros [= <-]; lia.
Qed.

Lemma hex_value_not_hash (c : ascii) (h : Z) :
  hex_value c = Some h -> Ascii.eqb c "#" = false.
Proof.
  intros Hc. apply Ascii.eqb_neq. intros ->. discriminate.
Qed.

(** What [format_02x] writes is the numeral of its argument. *)
Lemma format_02x_pair (n : Z) : 0 <= n <= 255 -> hex_pair n (format_02x n).
Proof.
  intros Hn. exists (hex_digit (n / 16)), (hex_digit (n mod 16)), (n / 16),
    (n mod 16).
  split; [reflexivity|].
  split; [apply hex_digit_value; split;
            [apply Z.div_pos; lia | apply Z.div_lt_upper_bound; lia]|].
  split; [apply hex_digit_value; apply Z.mod_pos_bound; lia|].
  apply Z.div_mod. lia.
Qed.

Lemma hex_pair_range (n : Z) (text : string) :
  hex_pair n text -> 0 <= n <= 255.
Proof.
  intros (c & d & h & l & _ & Hc & Hd & ->).
  apply hex_value_range in Hc, Hd. lia.
Qed.

Section Colours.

Context {N : Numerals}.

(** [int(text, 16)] reads a two-digit hexadecimal numeral, and rejects the
    empty string. *)
Hypothesis int16_pair : forall n text, hex_pair n text -> int16 text = Some n.
Hypothesis int16_empty : int16 "" = None.

Lemma adjust_color_runs (rr gg bb : string) (r g b offset : Z) :
  hex_pair r rr -> hex_pair g gg -> hex_pair b bb ->
  adjust_color (String "#" (String.append rr (String.append gg bb))) offset
  = Some (format_colour (clamp (r + offset)) (clamp (g + offset))
            (clamp (b + offset))).
Proof.
  intros Hr Hg Hb.
  pose proof (int16_pair _ _ Hr) as Ir.
  pose proof (int16_pair _ _ Hg) as Ig.
  pose proof (int16_pair _ _ Hb) as Ib.
  destruct Hr as (r1 & r2 & hr & lr & -> & Hr1 & _).
  destruct Hg as (g1 & g2 & hg & lg & -> & _).
  destruct Hb as (b1 & b2 & hb & lb & -> & _).
  unfold adjust_color. cbn [lstrip_hash].
  rewrite ?Ascii.eqb_refl, !append_cons, !append_nil. cbn [lstrip_hash].
  rewrite (hex_value_not_hash _ _ Hr1).
  cbn [str_slice str_take str_drop Nat.sub].
  rewrite Ir, Ig, Ib. reflexivity.
Qed.

(** X23.  [adjust_color] on a colour written [#rrggbb], with digits of
    either case: every channel is moved by the offset and kept within 0
    and 255, and the result is written in the same form, in lower case.
    So the result can be adjusted again, offsets of the same sign add up,
    and the offset 0 gives a colour that further zero adjustments leave
    alone.  A colour of fewer than five digits, such as the short form
    [#abc], makes [int] fail. *)
Theorem adjust_color_moves_channels (rr gg bb : string) (r g b offset : Z) :
  hex_pair r rr -> hex_pair g gg -> hex_pair b bb ->
  let colour := String "#" (String.append rr (String.append gg bb)) in
  let moved :=
    format_colour (clamp (r + offset)) (clamp (g + offset))
      (clamp (b + offset)) in
  adjust_color colour offset = Some moved
  /\ (forall again,
        (0 <= offset /\ 0 <= again) \/ (offset <= 0 /\ again <= 0) ->
        adjust_color moved again = adjust_color colour (offset + again))
  /\ adjust_color moved 0 = Some moved
  /\ (forall short other,
        (String.length (lstrip_hash short) <= 4)%nat ->
        adjust_color short other = None).
Proof.
  intros Hr Hg Hb colour moved.
  pose proof (hex_pair_range _ _ Hr) as Rr.
  pose proof (hex_pair_range _ _ Hg) as Rg.
  pose proof (hex_pair_range _ _ Hb) as Rb.
  assert (Hmoved : forall again,
            adjust_color moved again
            = Some (format_colour (clamp (clamp (r + offset) + again))
                      (clamp (clamp (g + offset) + again))
                      (clamp (clamp (b + offset) + again)))).
  { intros again. apply adjust_color_runs;
      apply format_02x_pair, clamp_range. }
  split; [apply adjust_color_runs; assumption|].
  split.
  { intros again Hsign. rewrite Hmoved.
    unfold colour. rewrite (adjust_color_runs rr gg bb r g b) by assumption.
    rewrite !clamp_accumulates by assumption. reflexivity. }
  split.
  { rewrite Hmoved. unfold moved. rewrite !Z.add_0_r.
    assert (Hfix : forall c, clamp (clamp c) = clamp c)
      by (intros c; unfold clamp; lia).
    rewrite !Hfix. reflexivity. }
  intros short other Hlen. unfold adjust_color.
  destruct (int16 (str_slice 0 2 (lstrip_hash short))); [|reflexivity].
  destruct (int16 (str_slice 2 4 (lstrip_hash short))); [|reflexivity].
  assert (Hend : str_slice 4 6 (lstrip_hash short) = "").
  { destruct (lstrip_hash short) as [|c1 [|c2 [|c3 [|c4 [|c5 rest]]]]];
      cbn [String.length] in Hlen; try reflexivity. lia. }
  rewrite Hend, int16_empty. reflexivity.
Qed.

End Colours.

(** ** Examples of the further properties *)

Ltac by_computation :=
  vm_compute; first [reflexivity | discriminate | lia].

(** After the sweep at time 100, the sweep at time 50 changes nothing. *)
Lemma cleanup_sweep_settles_witness :
  exec (cleanup_sweep 50) (exec (cleanup_sweep 100) (world_with_bob 0 false))
  = exec (cleanup_sweep 100) (world_with_bob 0 false).
Proof.
  destruct (cleanup_sweep_settles 100 50 (world_with_bob 0 false))
    as [Hsame _]; [lia | exact Hsame].
Defined.

(** The peer [bob], announced at time 7, is gone after the sweep at time
    100. *)
Lemma announced_peer_kept_for_timeout_witness :
  peers (exec (cleanup_sweep 100)
           (exec (@listen_iteration sample_host 7
                    (Datagram sample_announcement))
              (world_with_bob 0 false))) !! KStr "bob" = None.
Proof.
  destruct (@announced_peer_kept_for_timeout sample_host 7 100
              (Datagram sample_announcement) (world_with_bob 0 false)
              sample_announcement_json (KStr "bob")) as [[_ Hgone] _].
  - exists sample_announcement, (string_of_list_byte sample_announcement).
    repeat split; vm_compute; reflexivity.
  - split; vm_compute; reflexivity.
  - reflexivity.
  - apply Hgone. split; vm_compute; reflexivity.
Defined.

(** The first announcement of [bob] is logged. *)
Lemma discovery_logged_for_new_peer_only_witness :
  trace (exec (@listen_iteration sample_host 7 (Datagram sample_announcement))
           (sample_world []))
  = [Log (Discovered (JStr "bob") (JStr "android") (JStr "10.0.0.7"))].
Proof.
  destruct (@discovery_logged_for_new_peer_only sample_host 7 8
              (Datagram sample_announcement) (sample_world [])
              sample_announcement_json (KStr "bob")) as [Hfirst _].
  - exists sample_announcement, (string_of_list_byte sample_announcement).
    repeat split; vm_compute; reflexivity.
  - split; vm_compute; reflexivity.
  - reflexivity.
  - exact Hfirst.
Defined.

(** The request of [sample_request], declined. *)
Lemma rejected_request_gets_reject_only_witness :
  fs (exec (@handle_item_receive sample_host "t1" "10.0.0.7" 0 reject_all)
        (sample_world (segment (sample_request ++ [NL]))))
  = ∅.
Proof.
  destruct (@rejected_request_gets_reject_only sample_host
              "t1" "10.0.0.7" 0 reject_all
              (sample_world (segment (sample_request ++ [NL])))
              (string_of_list_byte sample_request) sample_request_json)
    as (_ & _ & Hfs & _); [by_computation .. | exact Hfs].
Defined.

(** An announcement sent to the transfer port has no [filename]. *)
Lemma unusable_request_is_not_prompted_witness :
  exists k,
    trace (exec (@handle_item_receive sample_host "t1" "10.0.0.7" 0 accept_all)
             (sample_world (segment (sample_announcement ++ [NL]))))
    = [] ++ [TransferAdded "t1"] ++ repeat (SockRecv 1024) k
      ++ [Log (ReceivedMetadata (JDict sample_announcement_json));
          Log (MissingFields "10.0.0.7");
          TransferRemoved "t1";
          ReceiveActive false].
Proof.
  destruct (@unusable_request_is_not_prompted sample_host
              "t1" "10.0.0.7" 0 accept_all
              (sample_world (segment (sample_announcement ++ [NL])))
              (string_of_list_byte sample_announcement)
              (JDict sample_announcement_json))
    as (Hmissing & _); [by_computation .. | ].
  apply (Hmissing sample_announcement_json); by_computation.
Defined.

(** The pairing request of [phone] on the transfer port. *)
Lemma handshake_on_transfer_port_pins_peer_witness :
  peers (exec (@handle_item_receive example_host "t1" "10.0.0.9" 1000
                 accept_all)
           (sample_world (segment (handshake_request ++ [NL]))))
  = {[ KStr "phone" := {| ip := JStr "10.0.0.9"; last_seen := 1300;
                           device_type := JStr "ios";
                           qr_connected := true |} ]}.
Proof.
  destruct (@handshake_on_transfer_port_pins_peer example_host
              "t1" "10.0.0.9" 1000 accept_all
              (sample_world (segment (handshake_request ++ [NL])))
              (string_of_list_byte handshake_request) handshake_request_json)
    as (Hpairs & _); [by_computation .. | ].
  destruct (Hpairs (KStr "phone")) as (_ & Hpeers & _);
    [by_computation .. | exact Hpeers].
Defined.

(** A request handed to the handler of a stopped backend. *)
Lemma stopped_backend_reads_nothing_witness :
  conn (exec (@handle_item_receive sample_host "t1" "10.0.0.7" 0 accept_all)
          (stopped_world (segment (sample_request ++ [NL]))))
  = segment (sample_request ++ [NL]).
Proof.
  destruct (@stopped_backend_reads_nothing sample_host "t1" "10.0.0.7" 0
              accept_all (stopped_world (segment (sample_request ++ [NL]))))
    as (_ & Hconn & _); [reflexivity | exact Hconn].
Defined.


(** The peer [bob] accepts [notes.txt]. *)
Lemma accepted_offer_sends_whole_file_witness :
  exists new parts,
    trace (exec (@send_item sample_host (KStr "bob") "notes.txt" None)
             (sending_world (segment (b "ACCEPT" ++ [NL])))) = [] ++ new
    /\ List.concat parts = b "hi"
    /\ In (SendCompleted "notes.txt") new.
Proof.
  destruct (@accepted_offer_sends_whole_file sample_host (KStr "bob")
              "notes.txt" "10.0.0.5"
              (sending_world (segment (b "ACCEPT" ++ [NL])))
              (bob_entry 0 false) (b "hi") (b "ACCEPT" ++ [NL]))
    as (_ & _ & new & parts & Ht & _ & Hcat & _ & Hdone & _);
    [by_computation .. | ].
  exists new, parts. repeat split; assumption.
Defined.

(** The backend of [world_with_bob] has nothing to share. *)
Lemma missing_item_is_only_logged_witness :
  exec (@send_item sample_host (KStr "bob") "notes.txt" None)
    (world_with_bob 0 false)
  = emit (Log (ItemNotFound "notes.txt")) (world_with_bob 0 false).
Proof.
  destruct (@missing_item_is_only_logged sample_host (KStr "bob")
              "notes.txt" None (world_with_bob 0 false) (bob_entry 0 false))
    as [_ Hrun]; [by_computation .. | exact Hrun].
Defined.

(** The reply of [bob] times out. *)
Lemma send_of_file_leaves_state_witness :
  fs (exec (@send_item sample_host (KStr "bob") "notes.txt" None)
        (sending_world [Fail SocketTimeout]))
  = fs (sending_world [Fail SocketTimeout]).
Proof.
  destruct (@send_of_file_leaves_state sample_host (KStr "bob")
              "notes.txt" None (sending_world [Fail SocketTimeout])
              (bob_entry 0 false) (b "hi"))
    as (_ & Hfs & _); [by_computation .. | exact Hfs].
Defined.

(** The connection to [bob] times out. *)
Lemma failed_connection_sends_nothing_witness :
  exists new,
    trace (exec (@send_item sample_host (KStr "bob") "notes.txt"
                   (Some SocketTimeout))
             (sending_world [])) = [] ++ new
    /\ sends new = []
    /\ send_errors new = [SendTimeout (KStr "bob")].
Proof.
  destruct (@failed_connection_sends_nothing sample_host (KStr "bob")
              "notes.txt" (Some SocketTimeout) (sending_world [])
              (bob_entry 0 false) (b "hi") SocketTimeout)
    as (new & Ht & Hs & He & _);
    [by_computation | by_computation
     | left; exists "10.0.0.5"; split; reflexivity | ].
  exists new. repeat split; assumption.
Defined.

(** The folder [album] is packed, offered and rejected. *)
Lemma folder_archive_is_always_removed_witness :
  fs (exec (@send_item example_host (KStr "bob") "album" None)
        (folder_world (segment (b "REJECT" ++ [NL]))))
  = fs (folder_world (segment (b "REJECT" ++ [NL]))).
Proof.
  destruct (@folder_archive_is_always_removed example_host (KStr "bob")
              "album" None (folder_world (segment (b "REJECT" ++ [NL])))
              (bob_entry 0 false) "/tmp/album.zip"
              (<["/tmp/album.zip" := File (b "PK")]>
                 (fs (folder_world (segment (b "REJECT" ++ [NL]))))))
    as (_ & Hfs & _); [by_computation .. | ].
  rewrite Hfs. vm_compute. reflexivity.
Defined.

(** [alice] offers [notes.txt] to [bob], who accepts it. *)
Lemma accepted_file_arrives_intact_witness :
  fs (exec (@handle_item_receive wire_host "t1" "10.0.0.2" 0 accept_all)
        (receiving_world (segment (notes_offer ++ NL :: b "hi"))))
  = <[join (@DOWNLOAD_DIR wire_host) (basename "notes.txt") := File (b "hi")]>
      (fs (receiving_world (segment (notes_offer ++ NL :: b "hi")))).
Proof.
  destruct (accepted_file_arrives_intact sample_host wire_host
              example_encoder (KStr "bob") "notes.txt" "10.0.0.5" "t1"
              "10.0.0.2" 0 accept_all
              (sending_world (segment (b "ACCEPT" ++ [NL])))
              (receiving_world (segment (notes_offer ++ NL :: b "hi")))
              (bob_entry 0 false) (b "hi") notes_offer
              (string_of_list_byte notes_offer)
              (trace (exec (@send_item sample_host (KStr "bob") "notes.txt"
                              None)
                        (sending_world (segment (b "ACCEPT" ++ [NL])))))
              (trace (exec (@handle_item_receive wire_host "t1" "10.0.0.2"
                              0 accept_all)
                        (receiving_world
                           (segment (notes_offer ++ NL :: b "hi"))))))
    as (Hfs & _); [by_computation .. | exact Hfs].
Defined.

(** The announcement of [alice] reaches [bob]. *)
Lemma broadcast_is_discovered_by_others_witness :
  peers (exec (@listen_iteration wire_host 7 (Datagram alice_presence))
           (receiving_world []))
  = <[KStr "alice" := {| ip := JStr "10.0.0.2"; last_seen := 7;
                          device_type := JStr "desktop";
                          qr_connected := false |}]> ∅.
Proof.
  destruct (broadcast_is_discovered_by_others sample_host wire_host
              example_encoder 1 (sample_world []) (receiving_world []) 7
              alice_presence "<broadcast>" UDP_PORT
              (string_of_list_byte alice_presence))
    as (_ & Hother & _).
  - right. right. left. vm_compute. reflexivity.
  - by_computation.
  - by_computation.
  - by_computation.
  - apply Hother. by_computation.
Defined.

Lemma sample_int16_pair (n : Z) (text : string) :
  hex_pair n text -> @int16 sample_numerals text = Some n.
Proof.
  intros (c & d & h & l & -> & Hc & Hd & ->). cbn. rewrite Hc, Hd.
  reflexivity.
Qed.

(** The hover colour of the blue buttons. *)
Lemma adjust_color_moves_channels_witness :
  @adjust_color sample_numerals "#3B82F6" (-20) = Some "#276ee2".
Proof.
  destruct (@adjust_color_moves_channels sample_numerals sample_int16_pair
              eq_refl "3B" "82" "F6" 59 130 246 (-20))
    as (Hmoved & _).
  - exists "3"%char, "B"%char, 3, 11. repeat split; reflexivity.
  - exists "8"%char, "2"%char, 8, 2. repeat split; reflexivity.
  - exists "F"%char, "6"%char, 15, 6. repeat split; reflexivity.
  - exact Hmoved.
Defined.
